(** * Hair Factory: the preset persistence subsystem of [preset_util.py]

    A shallow embedding of the content-addressed preset store: the content
    hasher ([immutable_dict], [hash_dict], [hash_list]), the structural scan
    of a node graph ([node_scan], [node_link_scan], [get_all_nodes],
    [node_type_dict]), the HDF5 record store with its save, rename, export
    and import transactions, the archive wrapper [modify_in_zip] and the
    save operators that validate a proposed preset name.

    Conventions.
    - A Python [str] is a [string] whose characters are the code points
      below 256; the character classes of [re], [str.upper], [int] and the
      JSON string encoder are given for that range.
    - A function that can raise returns a [result]; code that mutates the
      open HDF5 file is written in the state-and-exception monad [M], which
      keeps the mutations made before an exception was raised.
    - [hashlib.sha256] and [json.dumps] are library code; they are written
      out so that every definition evaluates. *)

From Stdlib Require Import List String Ascii ZArith NArith Lia Bool Arith.
From Stdlib Require Import Permutation DecimalString DecimalPos.
Import ListNotations.

Open Scope string_scope.
Open Scope list_scope.

Infix "+++" := String.append (at level 60, right associativity).

(* ================================================================== *)
(** ** Python built-ins used by the source *)

Module Py.

(** Exceptions the modelled code raises. [NameExistsError] is the class
    declared in [preset_util.py]; the others are Python's own. *)
Inductive exn : Type :=
| NameExistsError (message : string)
| KeyError
| IndexError
| TypeError
| ValueError
| AttributeError
| StopIteration
| OSError.

Inductive result (A : Type) : Type :=
| Ok (a : A)
| Raise (e : exn).
Arguments Ok {A} a.
Arguments Raise {A} e.

Definition rbind {A B} (r : result A) (k : A -> result B) : result B :=
  match r with
  | Ok a => k a
  | Raise e => Raise e
  end.

Definition of_option {A} (e : exn) (o : option A) : result A :=
  match o with
  | Some a => Ok a
  | None => Raise e
  end.

Fixpoint rmap {A B} (f : A -> result B) (l : list A) : result (list B) :=
  match l with
  | [] => Ok []
  | a :: t => rbind (f a) (fun b => rbind (rmap f t) (fun bs => Ok (b :: bs)))
  end.

Definition code (c : ascii) : N := N_of_ascii c.

Definition between (lo hi : N) (c : ascii) : bool :=
  (N.leb lo (code c) && N.leb (code c) hi)%bool.

Definition is_digit (c : ascii) : bool := between 48 57 c.

(** [str.split(sep)] for a one-character separator: never empty. *)
Fixpoint split (sep : ascii) (s : string) : list string :=
  match s with
  | EmptyString => [EmptyString]
  | String c r =>
      if Ascii.eqb c sep then EmptyString :: split sep r
      else match split sep r with
           | h :: t => String c h :: t
           | [] => [String c EmptyString]
           end
  end.

(** [sep.join(parts)] *)
Fixpoint join (sep : string) (parts : list string) : string :=
  match parts with
  | [] => EmptyString
  | [p] => p
  | p :: rest => p +++ sep +++ join sep rest
  end.

(** [str(z)] for an [int]. *)
Definition str_of_Z (z : Z) : string := NilZero.string_of_int (Z.to_int z).

Fixpoint repeat_char (c : ascii) (n : nat) : string :=
  match n with
  | O => EmptyString
  | S k => String c (repeat_char c k)
  end.

(** [s.zfill(width)]: zeros go after a leading sign. *)
Definition zfill (width : nat) (s : string) : string :=
  let pad := repeat_char "0"%char (width - String.length s) in
  match s with
  | String c r =>
      if (Ascii.eqb c "-" || Ascii.eqb c "+")%bool then String c (pad +++ r)
      else pad +++ s
  | EmptyString => pad
  end.

(** [s.upper()]. Exact on ASCII; the other code points below 256 are left
    as they are, and none of them upper-cases to an ASCII letter other than
    S, so a comparison of the result with ['NONE'] is exact. *)
Definition upper_char (c : ascii) : ascii :=
  if between 97 122 c then ascii_of_N (code c - 32) else c.

Fixpoint upper (s : string) : string :=
  match s with
  | EmptyString => EmptyString
  | String c r => String (upper_char c) (upper r)
  end.

(** The class [\w] of [re] for [str] patterns, on code points below 256. *)
Definition re_word (c : ascii) : bool :=
  (is_digit c || between 65 90 c || between 97 122 c || N.eqb (code c) 95
   || N.eqb (code c) 170 || N.eqb (code c) 178 || N.eqb (code c) 179
   || N.eqb (code c) 181 || N.eqb (code c) 185 || N.eqb (code c) 186
   || between 188 190 c || between 192 214 c || between 216 246 c
   || between 248 255 c)%bool.

(** The class [\s] of [re] for [str] patterns, on code points below 256. *)
Definition re_space (c : ascii) : bool :=
  (between 9 13 c || between 28 32 c || N.eqb (code c) 133
   || N.eqb (code c) 160)%bool.

(** [re.search(cls, text)]: the position of the first match, if any. *)
Fixpoint search (cls : ascii -> bool) (text : string) : option nat :=
  match text with
  | EmptyString => None
  | String c r => if cls c then Some O else option_map S (search cls r)
  end.

(** White space that [int] skips around a literal. *)
Definition int_space (c : ascii) : bool :=
  (between 9 13 c || N.eqb (code c) 32 || N.eqb (code c) 133
   || N.eqb (code c) 160)%bool.

Fixpoint lstrip (s : string) : string :=
  match s with
  | String c r => if int_space c then lstrip r else s
  | EmptyString => EmptyString
  end.

Fixpoint all_space (s : string) : bool :=
  match s with
  | EmptyString => true
  | String c r => (int_space c && all_space r)%bool
  end.

(** Digits with single underscores between them; [prev] tells whether the
    last character read was a digit. The literal ends at the first white
    space, which must then run to the end of the string. *)
Fixpoint int_digits (s : string) (acc : Z) (prev : bool) : option Z :=
  match s with
  | EmptyString => if prev then Some acc else None
  | String c r =>
      if is_digit c then int_digits r (acc * 10 + Z.of_N (code c - 48)) true
      else if Ascii.eqb c "_" then
        if prev then
          match r with
          | String d _ => if is_digit d then int_digits r acc false else None
          | EmptyString => None
          end
        else None
      else if (prev && all_space s)%bool then Some acc
      else None
  end.

(** [int(s)] in base ten; [None] is [ValueError]. *)
Definition int (s : string) : option Z :=
  match lstrip s with
  | String c r =>
      if Ascii.eqb c "-" then option_map Z.opp (int_digits r 0 false)
      else if Ascii.eqb c "+" then int_digits r 0 false
      else int_digits (String c r) 0 false
  | EmptyString => None
  end.

End Py.
Export Py.

(* ================================================================== *)
(** ** Configuration values and [json.dumps] *)

(** The values the store hashes and serialises: JSON scalars, Python's two
    sequence kinds, string-keyed dicts in insertion order, and the two host
    array kinds the source converts by hand. A float is carried by the text
    [repr] gives it, which is what [json.dumps] emits. *)
#[warnings="-register-all"]
Inductive value : Type :=
| VNone
| VBool (b : bool)
| VInt (z : Z)
| VFloat (repr : string)
| VStr (s : string)
| VList (xs : list value)
| VTuple (xs : list value)
| VArray (tolist : list value)     (* numpy.ndarray, by its tolist() *)
| VVector (items : list value)     (* mathutils Vector, Euler, bpy array *)
| VDict (kvs : list (string * value)).

Definition dict : Type := list (string * value).

Module Json.

Definition dquote : ascii := ascii_of_N 34.
Definition backslash : ascii := ascii_of_N 92.

Definition hex_digit (n : N) : ascii :=
  if N.ltb n 10 then ascii_of_N (48 + n) else ascii_of_N (87 + n).

(** One character under [ensure_ascii=True]. *)
Definition escape_char (c : ascii) : string :=
  let n := code c in
  if N.eqb n 34 then String backslash (String dquote EmptyString)
  else if N.eqb n 92 then String backslash (String backslash EmptyString)
  else if N.eqb n 10 then String backslash "n"
  else if N.eqb n 13 then String backslash "r"
  else if N.eqb n 9 then String backslash "t"
  else if N.eqb n 8 then String backslash "b"
  else if N.eqb n 12 then String backslash "f"
  else if between 32 126 c then String c EmptyString
  else String backslash
         ("u00" +++ String (hex_digit (N.div n 16))
                      (String (hex_digit (N.modulo n 16)) EmptyString)).

Fixpoint escape (s : string) : string :=
  match s with
  | EmptyString => EmptyString
  | String c r => escape_char c +++ escape r
  end.

(** [json.encoder.py_encode_basestring_ascii] *)
Definition encode_basestring_ascii (s : string) : string :=
  String dquote (escape s +++ String dquote EmptyString).

Fixpoint sequence {A} (l : list (option A)) : option (list A) :=
  match l with
  | [] => Some []
  | None :: _ => None
  | Some a :: t => option_map (cons a) (sequence t)
  end.

(** [sorted(dct.items())]: the keys of a dict are distinct, so the order of
    the result is decided by the keys alone. *)
Fixpoint insert_item {A} (kv : string * A) (l : list (string * A))
  : list (string * A) :=
  match l with
  | [] => [kv]
  | h :: t => if String.leb (fst kv) (fst h) then kv :: h :: t
              else h :: insert_item kv t
  end.

Fixpoint sort_items {A} (l : list (string * A)) : list (string * A) :=
  match l with
  | [] => []
  | kv :: t => insert_item kv (sort_items t)
  end.

Definition item_text (kv : string * option string) : option string :=
  option_map (fun t => encode_basestring_ascii (fst kv) +++ ": " +++ t)
             (snd kv).

(** [json.dumps(v, sort_keys=sort_keys)] with the default separators;
    [None] is the [TypeError] raised for an object that is not JSON
    serialisable. Lists and tuples are both written as arrays. *)
Fixpoint dumps (sort_keys : bool) (v : value) {struct v} : option string :=
  match v with
  | VNone => Some "null"
  | VBool b => Some (if b then "true" else "false")
  | VInt z => Some (str_of_Z z)
  | VFloat r => Some r
  | VStr s => Some (encode_basestring_ascii s)
  | VList xs | VTuple xs =>
      option_map (fun l => "[" +++ join ", " l +++ "]")
                 (sequence (map (dumps sort_keys) xs))
  | VArray _ | VVector _ => None
  | VDict kvs =>
      let items := map (fun kv => (fst kv, dumps sort_keys (snd kv))) kvs in
      let items := if sort_keys then sort_items items else items in
      option_map (fun l => "{" +++ join ", " l +++ "}")
                 (sequence (map item_text items))
  end.

(** [loads(dumps(v))]: what a payload written with [dumps] reads back as.
    Tuples come back as lists; the rest is unchanged. *)
Fixpoint reload (v : value) {struct v} : result value :=
  match v with
  | VList xs | VTuple xs => rbind (rmap reload xs) (fun l => Ok (VList l))
  | VArray _ | VVector _ => Raise TypeError
  | VDict kvs =>
      rbind (rmap (fun kv => rbind (reload (snd kv))
                               (fun w => Ok (fst kv, w))) kvs)
            (fun l => Ok (VDict l))
  | _ => Ok v
  end.

End Json.

(* ================================================================== *)
(** ** [hashlib.sha256] *)

Module SHA256.
Open Scope Z_scope.

Definition w32 (x : Z) : Z := Z.land x 4294967295.
Definition add32 (x y : Z) : Z := w32 (x + y).
Definition rotr (n x : Z) : Z :=
  w32 (Z.lor (Z.shiftr x n) (Z.shiftl x (32 - n))).
Definition Ch (x y z : Z) : Z :=
  Z.lxor (Z.land x y) (Z.land (w32 (Z.lnot x)) z).
Definition Maj (x y z : Z) : Z :=
  Z.lxor (Z.lxor (Z.land x y) (Z.land x z)) (Z.land y z).
Definition Sigma0 x := Z.lxor (Z.lxor (rotr 2 x) (rotr 13 x)) (rotr 22 x).
Definition Sigma1 x := Z.lxor (Z.lxor (rotr 6 x) (rotr 11 x)) (rotr 25 x).
Definition sigma0 x := Z.lxor (Z.lxor (rotr 7 x) (rotr 18 x)) (Z.shiftr x 3).
Definition sigma1 x := Z.lxor (Z.lxor (rotr 17 x) (rotr 19 x)) (Z.shiftr x 10).

(** The round constants: the first 32 bits of the fractional parts of the
    cube roots of the first 64 primes. *)
Definition K : list Z :=
  [1116352408; 1899447441; 3049323471; 3921009573; 961987163; 1508970993;
   2453635748; 2870763221; 3624381080; 310598401; 607225278; 1426881987;
   1925078388; 2162078206; 2614888103; 3248222580; 3835390401; 4022224774;
   264347078; 604807628; 770255983; 1249150122; 1555081692; 1996064986;
   2554220882; 2821834349; 2952996808; 3210313671; 3336571891; 3584528711;
   113926993; 338241895; 666307205; 773529912; 1294757372; 1396182291;
   1695183700; 1986661051; 2177026350; 2456956037; 2730485921; 2820302411;
   3259730800; 3345764771; 3516065817; 3600352804; 4094571909; 275423344;
   430227734; 506948616; 659060556; 883997877; 958139571; 1322822218;
   1537002063; 1747873779; 1955562222; 2024104815; 2227730452; 2361852424;
   2428436474; 2756734187; 3204031479; 3329325298].

(** The initial hash value, from the square roots of the first 8 primes. *)
Definition H0 : list Z :=
  [1779033703; 3144134277; 1013904242; 2773480762;
   1359893119; 2600822924; 528734635; 1541459225].

(** Padding: a one bit, zeros up to 56 modulo 64, the bit length on 8 bytes. *)
Definition pad (msg : list Z) : list Z :=
  let len := Z.of_nat (List.length msg) in
  let zeros := Z.to_nat ((55 - len) mod 64) in
  let bits := 8 * len in
  msg ++ [128] ++ repeat 0 zeros
      ++ map (fun i => Z.land (Z.shiftr bits (8 * i)) 255) [7; 6; 5; 4; 3; 2; 1; 0].

Fixpoint words (n : nat) (bytes : list Z) : list Z :=
  match n, bytes with
  | S k, a :: b :: c :: d :: rest =>
      (Z.shiftl a 24 + Z.shiftl b 16 + Z.shiftl c 8 + d) :: words k rest
  | _, _ => []
  end.

(** The message schedule, most recent word first. *)
Fixpoint schedule (n : nat) (rev_w : list Z) : list Z :=
  match n with
  | O => rev_w
  | S k =>
      let w := add32 (add32 (sigma1 (nth 1 rev_w 0)) (nth 6 rev_w 0))
                     (add32 (sigma0 (nth 14 rev_w 0)) (nth 15 rev_w 0)) in
      schedule k (w :: rev_w)
  end.

Definition round (s : list Z) (kw : Z * Z) : list Z :=
  match s with
  | [a; b; c; d; e; f; g; h] =>
      let t1 := add32 (add32 (add32 h (Sigma1 e)) (Ch e f g))
                      (add32 (fst kw) (snd kw)) in
      let t2 := add32 (Sigma0 a) (Maj a b c) in
      [add32 t1 t2; a; b; c; add32 d t1; e; f; g]
  | _ => s
  end.

Definition compress (h : list Z) (block : list Z) : list Z :=
  let w := rev (schedule 48 (rev (words 16 block))) in
  map (fun p => add32 (fst p) (snd p))
      (combine h (fold_left round (combine K w) h)).

Fixpoint blocks (n : nat) (h : list Z) (bytes : list Z) : list Z :=
  match n with
  | O => h
  | S k => blocks k (compress h (firstn 64 bytes)) (skipn 64 bytes)
  end.

Definition digest (msg : list Z) : list Z :=
  let p := pad msg in
  blocks (Nat.div (List.length p) 64) H0 p.

Definition hex_word (w : Z) : string :=
  string_of_list_ascii
    (map (fun i => Json.hex_digit (Z.to_N (Z.land (Z.shiftr w (4 * i)) 15)))
         [7; 6; 5; 4; 3; 2; 1; 0]).

(** [sha256(text.encode('utf-8')).hexdigest()] for ASCII [text], which is
    what [json.dumps] produces. *)
Definition hexdigest (text : string) : string :=
  String.concat EmptyString
    (map hex_word
         (digest (map (fun c => Z.of_N (code c)) (list_ascii_of_string text)))).

End SHA256.

(* ================================================================== *)
(** ** Content hasher *)

(** The branch [immutable_dict] takes for one value of the dict: a nested
    dict is rebuilt the same way, a list or an array becomes a tuple,
    anything else is kept. *)
Fixpoint immutable_value (v : value) {struct v} : value :=
  match v with
  | VDict kvs => VDict (map (fun kv => (fst kv, immutable_value (snd kv))) kvs)
  | VList xs => VTuple xs
  | VArray tolist => VTuple tolist
  | w => w
  end.

(** [immutable_dict] *)
Definition immutable_dict (data_dict : dict) : dict :=
  map (fun kv => (fst kv, immutable_value (snd kv))) data_dict.

(** [hash_dict]: the digest of the sorted-key JSON text. Reading the text
    back in chunks of [chunk_size] feeds the same bytes to the digest. *)
Definition hash_dict (data_dict : dict) : result string :=
  let hash_dict := immutable_dict data_dict in
  rbind (of_option TypeError (Json.dumps true (VDict hash_dict)))
        (fun hash_string => Ok (SHA256.hexdigest hash_string)).

(** [hash_list]: the digest of the JSON text of [tuple(data_list)]. *)
Definition hash_list (data_list : list value) : result string :=
  let hash_list := VTuple data_list in
  rbind (of_option TypeError (Json.dumps false hash_list))
        (fun hash_string => Ok (SHA256.hexdigest hash_string)).

(* ================================================================== *)
(** ** Python dicts and values as the source uses them *)

Module Dict.

Fixpoint get {A} (d : list (string * A)) (k : string) : option A :=
  match d with
  | [] => None
  | (k', v) :: t => if String.eqb k' k then Some v else get t k
  end.

Definition mem {A} (d : list (string * A)) (k : string) : bool :=
  match get d k with
  | Some _ => true
  | None => false
  end.

Definition keys {A} (d : list (string * A)) : list string := map fst d.

(** [d[k] = v]: an existing key keeps its place, a new key goes last. *)
Fixpoint set {A} (d : list (string * A)) (k : string) (v : A)
  : list (string * A) :=
  match d with
  | [] => [(k, v)]
  | (k', v') :: t =>
      if String.eqb k' k then (k', v) :: t else (k', v') :: set t k v
  end.

(** [dict(pairs)], also the merge of a dict comprehension. *)
Definition of_pairs {A} (pairs : list (string * A)) : list (string * A) :=
  fold_left (fun d kv => set d (fst kv) (snd kv)) pairs [].

(** [d[k]] *)
Definition item {A} (d : list (string * A)) (k : string) : result A :=
  of_option KeyError (get d k).

End Dict.

Definition mem_string (s : string) (l : list string) : bool :=
  existsb (String.eqb s) l.

(** [is_basic_type] *)
Definition is_basic_type (v : value) : bool :=
  match v with
  | VInt _ | VFloat _ | VStr _ | VBool _ => true
  | _ => false
  end.

(** [list(v)] *)
Definition py_list (v : value) : result value :=
  match v with
  | VList xs | VTuple xs | VArray xs | VVector xs => Ok (VList xs)
  | VDict kvs => Ok (VList (map (fun kv => VStr (fst kv)) kvs))
  | VStr s =>
      Ok (VList (map (fun c => VStr (String c EmptyString))
                     (list_ascii_of_string s)))
  | _ => Raise TypeError
  end.

(** Truth value of [if v:]; a float is zero when its text is that of a
    signed zero. *)
Definition truthy (v : value) : bool :=
  match v with
  | VNone => false
  | VBool b => b
  | VInt z => negb (Z.eqb z 0)
  | VFloat r => negb (mem_string r ["0.0"; "-0.0"])
  | VStr s => negb (String.eqb s EmptyString)
  | VList xs | VTuple xs | VArray xs | VVector xs =>
      negb (Nat.eqb (List.length xs) 0)
  | VDict kvs => negb (Nat.eqb (List.length kvs) 0)
  end.

(** [seq[i]] with Python's negative indices. *)
Definition py_nth {A} (l : list A) (i : Z) : result A :=
  let n := Z.of_nat (List.length l) in
  let j := if Z.ltb i 0 then (n + i)%Z else i in
  if Z.ltb j 0 then Raise IndexError
  else of_option IndexError (nth_error l (Z.to_nat j)).

(* ================================================================== *)
(** ** The live node graph, as the host exposes it *)

Module Graph.

(** An input socket: [socket.name], [bool(socket.links)] and
    [socket.default_value] where the socket has one. *)
Record socket : Type := {
  sock_name : string;
  sock_linked : bool;
  sock_default : option value
}.

(** A link of a tree, by the identities of [from_node] and [to_node]. *)
Definition link : Type := (nat * nat)%type.

(** A node. [uid] is the identity the host compares nodes by; [attributes]
    holds [getattr(node, a)] for every [a] of [dir(node)], in that order;
    [get_data kind] is what the get function that [get_nodes_func_dict]
    gives for [kind] returns on this node; [group_nodes] and [group_links]
    are [node.node_tree.nodes] and [node.node_tree.links] of a node of type
    ['GROUP'] and are not read for any other node. *)
#[warnings="-register-all"]
Inductive node : Type :=
  Node (uid : nat) (name : string) (type : string)
       (attributes : dict) (inputs : list socket)
       (get_data : string -> result dict)
       (group_nodes : list node) (group_links : list link).

Definition uid (n : node) := let 'Node u _ _ _ _ _ _ _ := n in u.
Definition name (n : node) := let 'Node _ s _ _ _ _ _ _ := n in s.
Definition type (n : node) := let 'Node _ _ t _ _ _ _ _ := n in t.
Definition attributes (n : node) := let 'Node _ _ _ a _ _ _ _ := n in a.
Definition inputs (n : node) := let 'Node _ _ _ _ i _ _ _ := n in i.
Definition get_data (n : node) := let 'Node _ _ _ _ _ g _ _ := n in g.
Definition group_nodes (n : node) := let 'Node _ _ _ _ _ _ g _ := n in g.
Definition group_links (n : node) := let 'Node _ _ _ _ _ _ _ l := n in l.

Definition is_group (n : node) : bool := String.eqb (type n) "GROUP".

(** An item of [node_group.interface.items_tree]; panels have no
    [socket_type]. *)
Record interface_item : Type := {
  item_name : string;
  socket_type : option string;
  identifier : option string
}.

(** A node tree: a material's [node_tree] or a geometry node group.
    [interface] is [None] where the host has no [interface] attribute. *)
Record node_tree : Type := {
  tree_name : string;
  nodes : list node;
  links : list link;
  interface : option (list interface_item)
}.

(** [node.node_tree] of a group node. *)
Definition group_tree (n : node) : node_tree :=
  {| tree_name := name n; nodes := group_nodes n; links := group_links n;
     interface := None |}.

Record material : Type := {
  mat_name : string;
  mat_node_tree : node_tree
}.

(** A modifier: its node group and its property bag, [dict(modifier)]. *)
Record modifier : Type := {
  node_group : node_tree;
  properties : dict
}.

(* ---------------------------------------------------------------- *)
(** *** Structural scan: [node_scan], [node_link_scan], [get_all_nodes] *)

(** One step of [node_scan] appends an index path, the node and its type. *)
Record scanned : Type := {
  s_index : list nat;
  s_node : nat;
  s_type : string
}.

Fixpoint node_scan_node (idx : list nat) (n : node) {struct n}
  : list scanned :=
  match n with
  | Node u _ t _ _ _ gnodes _ =>
      {| s_index := idx; s_node := u; s_type := t |}
      :: (if String.eqb t "GROUP" then
            (fix scan (l : list node) (i : nat) {struct l} : list scanned :=
               match l with
               | [] => []
               | m :: rest => node_scan_node (idx ++ [i]) m ++ scan rest (S i)
               end) gnodes O
          else [])
  end.

Fixpoint node_scan_from (l : list node) (index : list nat) (i : nat)
  : list scanned :=
  match l with
  | [] => []
  | m :: rest =>
      node_scan_node (index ++ [i]) m ++ node_scan_from rest index (S i)
  end.

(** [node_scan(node_group, node_dict, index)]: what it appends to
    [node_dict]; [index=None] is the empty path. *)
Definition node_scan (nodes : list node) (index : list nat) : list scanned :=
  node_scan_from nodes index O.

(** The last position of [node_dict['nodes']] that holds the node. *)
Fixpoint last_index (u : nat) (l : list scanned) (i : nat) (found : option nat)
  : option nat :=
  match l with
  | [] => found
  | e :: rest =>
      last_index u rest (S i) (if Nat.eqb u (s_node e) then Some i else found)
  end.

(** The entry one link appends to [node_dict['links']]; indexing
    [node_dict['indices']] with [None] raises [TypeError]. *)
Definition link_entry (scan : list scanned) (l : link)
  : result (list nat * list nat) :=
  rbind (of_option TypeError (last_index (fst l) scan O None)) (fun fn =>
  rbind (of_option TypeError (last_index (snd l) scan O None)) (fun tn =>
  rbind (of_option IndexError (nth_error scan fn)) (fun f =>
  rbind (of_option IndexError (nth_error scan tn)) (fun t =>
  Ok (s_index f, s_index t))))).

Fixpoint node_link_scan_node (scan : list scanned) (n : node) {struct n}
  : result (list (list nat * list nat)) :=
  match n with
  | Node _ _ t _ _ _ gnodes glinks =>
      if String.eqb t "GROUP" then
        rbind (rmap (link_entry scan) glinks) (fun here =>
        rbind ((fix below (l : list node) {struct l} :=
                  match l with
                  | [] => Ok []
                  | m :: rest =>
                      rbind (node_link_scan_node scan m) (fun a =>
                      rbind (below rest) (fun b => Ok (a ++ b)))
                  end) gnodes) (fun deeper =>
        Ok (here ++ deeper)))
      else Ok []
  end.

Fixpoint node_link_scan_nodes (scan : list scanned) (l : list node)
  : result (list (list nat * list nat)) :=
  match l with
  | [] => Ok []
  | m :: rest =>
      rbind (node_link_scan_node scan m) (fun a =>
      rbind (node_link_scan_nodes scan rest) (fun b => Ok (a ++ b)))
  end.

(** [node_link_scan(node_group, node_dict)]: what it appends to
    [node_dict['links']]. *)
Definition node_link_scan (g : node_tree) (scan : list scanned)
  : result (list (list nat * list nat)) :=
  rbind (rmap (link_entry scan) (links g)) (fun here =>
  rbind (node_link_scan_nodes scan (nodes g)) (fun deeper =>
  Ok (here ++ deeper))).

Definition path_value (p : list nat) : value :=
  VList (map (fun i => VInt (Z.of_nat i)) p).

(** [get_all_nodes]: the dict that is hashed into a graph identity. Each
    entry of ['indices'] is a one-element list holding the path. *)
Definition get_all_nodes (g : node_tree) : result dict :=
  let scan := node_scan (nodes g) [] in
  rbind (node_link_scan g scan) (fun lks =>
  Ok [("indices", VList (map (fun e => VList [path_value (s_index e)]) scan));
      ("types", VList (map (fun e => VStr (s_type e)) scan));
      ("links", VList (map (fun ft => VList [path_value (fst ft);
                                             path_value (snd ft)]) lks))]).

(* ---------------------------------------------------------------- *)
(** *** Special nodes: [get_node_structure_list], [node_type_dict] *)

Fixpoint structure_node (ntype : string) (data : list nat) (n : node)
  {struct n} : list (list nat) :=
  match n with
  | Node _ _ t _ _ _ gnodes _ =>
      (if String.eqb t ntype then [data] else [])
      ++ (if String.eqb t "GROUP" then
            (fix go (l : list node) (i : nat) {struct l} : list (list nat) :=
               match l with
               | [] => []
               | m :: rest =>
                   structure_node ntype (data ++ [i]) m ++ go rest (S i)
               end) gnodes O
          else [])
  end.

Fixpoint structure_from (ntype : string) (l : list node) (parent : list nat)
  (i : nat) : list (list nat) :=
  match l with
  | [] => []
  | m :: rest =>
      structure_node ntype (parent ++ [i]) m
      ++ structure_from ntype rest parent (S i)
  end.

(** [get_node_structure_list(nodes, ntype, parent)]: the paths of the
    nodes of type [ntype], through the groups; [parent=None] is the empty
    path. *)
Definition get_node_structure_list (nodes : list node) (ntype : string)
  (parent : list nat) : list (list nat) :=
  structure_from ntype nodes parent O.

Inductive classification : Type := Geometry_Node | Material.

Definition classification_name (c : classification) : string :=
  match c with
  | Geometry_Node => "Geometry_Node"
  | Material => "Material"
  end.

(** [slice_dict[classification]] of [node_type_dict] *)
Definition slice_dict (c : classification) : list string :=
  match c with
  | Geometry_Node =>
      ["CURVE_FLOAT"; "VALTORGB"; "CURVE_VEC"; "CURVE_RGB"; "INPUT_COLOR"]
  | Material => ["RGB"; "CURVE_FLOAT"; "VALTORGB"; "CURVE_VEC"; "CURVE_RGB"]
  end.

(** [node_type_dict]: kind to paths, for the kinds that occur. *)
Definition node_type_dict (g : node_tree) (c : classification)
  : list (string * list (list nat)) :=
  filter (fun kv => Nat.ltb 0 (List.length (snd kv)))
         (Dict.of_pairs
            (map (fun node_type =>
                    (node_type,
                     get_node_structure_list (nodes g) node_type []))
                 (slice_dict c))).

(** The classification as the JSON value that is stored and read back. *)
Definition classification_value (ntd : list (string * list (list nat)))
  : value :=
  VDict (map (fun kv => (fst kv, VList (map path_value (snd kv)))) ntd).

(** [get_nodes_func_dict()[node_type]] *)
Definition kinds : list string :=
  ["CURVE_FLOAT"; "VALTORGB"; "CURVE_RGB"; "CURVE_VEC"; "INPUT_COLOR"; "RGB"].

Definition get_nodes_func_dict (node_type : string)
  : result (node -> result dict) :=
  if mem_string node_type kinds then Ok (fun n => get_data n node_type)
  else Raise KeyError.

(** [node_type_abbr_dict()[node_type]] *)
Definition node_type_abbr (node_type : string) : result string :=
  Dict.item [("RGB", "RB"); ("CURVE_FLOAT", "FC"); ("VALTORGB", "CR");
             ("CURVE_VEC", "VC"); ("CURVE_RGB", "RC"); ("INPUT_COLOR", "IC")]
            node_type.

(** [nodes[key]] for a string key: the node of that name. *)
Fixpoint node_named (l : list node) (key : string) : result node :=
  match l with
  | [] => Raise KeyError
  | n :: rest => if String.eqb (name n) key then Ok n else node_named rest key
  end.

(** The text an element of a path takes inside [nodes['...']]. *)
Definition path_key (v : value) : result string :=
  match v with
  | VInt z => Ok (str_of_Z z)
  | VStr s => Ok s
  | _ => Raise TypeError
  end.

(** [.node_tree.nodes[k1].node_tree.nodes[k2]...] starting at a node. *)
Fixpoint descend (n : node) (keys : list value) : result node :=
  match keys with
  | [] => Ok n
  | k :: rest =>
      if is_group n then
        rbind (path_key k) (fun key =>
        rbind (node_named (group_nodes n) key) (fun m => descend m rest))
      else Raise AttributeError
  end.

(** [get_node_group_groups(node_group.name, groups)] and
    [get_mat_group_groups(material.name, groups)]: the expression built by
    [get_groups_str] or [get_mat_str] looks every element of the path up as
    a node name, the decimal text of the index. Both are called with a path
    of two or more elements, and then denote the same node. *)
Definition get_group_groups (g : node_tree) (groups : list value)
  : result node :=
  match groups with
  | [] => Raise IndexError
  | k :: rest =>
      rbind (path_key k) (fun key =>
      rbind (node_named (nodes g) key) (fun m => descend m rest))
  end.

(** The node a stored path denotes, as the save loops resolve it:
    [nodes[node[0]]] for a path of length one, else by names. *)
Definition node_at (g : node_tree) (path : value) : result node :=
  match path with
  | VList [VInt i] | VTuple [VInt i] => py_nth (nodes g) i
  | VList [_] | VTuple [_] => Raise TypeError
  | VList groups | VTuple groups => get_group_groups g groups
  | _ => Raise TypeError
  end.

(* ---------------------------------------------------------------- *)
(** *** Flat values of a material: [format_mat_node_data] *)

Definition ignore_attr : list string :=
  ["__doc__"; "__module__"; "__slots__"; "bl_description";
   "bl_height_default"; "bl_height_max"; "bl_height_min"; "bl_icon";
   "bl_idname"; "bl_label"; "bl_rna"; "bl_static_type"; "bl_width_default";
   "bl_width_max"; "bl_width_min"; "color"; "color_mapping"; "color_tag";
   "debug_zone_body_lazy_function_graph"; "debug_zone_lazy_function_graph";
   "dimensions"; "draw_buttons"; "draw_buttons_ext"; "height"; "hide";
   "input_template"; "inputs"; "internal_links"; "is_registered_node_type";
   "label"; "location"; "location_absolute"; "name"; "output_template";
   "outputs"; "parent"; "poll"; "poll_instance"; "rna_type"; "select";
   "show_options"; "show_preview"; "show_texture"; "socket_value_update";
   "texture_mapping"; "type"; "update"; "use_custom_color";
   "warning_propagation"; "width"; "object"; "script"].

(** [get_node_attr]: one single-entry dict per attribute kept. *)
Definition get_node_attr (n : node) : list (string * value) :=
  filter (fun kv => (negb (mem_string (fst kv) ignore_attr)
                     && negb (String.prefix "hf_" (fst kv)))%bool)
         (attributes n).

Fixpoint node_inputs_from (l : list socket) (idx : nat)
  : list (string * value) :=
  match l with
  | [] => []
  | s :: rest =>
      (if negb (sock_linked s) then
         match sock_default s with
         | Some v =>
             let v' := match v with VVector items => VList items | _ => v end in
             [(sock_name s, VList [v'; VInt (Z.of_nat idx)])]
         | None => []
         end
       else [])
      ++ node_inputs_from rest (S idx)
  end.

(** [get_node_inputs]: the unlinked sockets that have a default value,
    each with its position. *)
Definition get_node_inputs (n : node) : list (string * value) :=
  node_inputs_from (inputs n) O.

Definition ignore_types : list string :=
  ["RGB"; "CURVE_FLOAT"; "VALTORGB"; "CURVE_VEC"; "CURVE_RGB"; "INPUT_COLOR";
   "OUTPUT_MATERIAL"; "REROUTE"; "FRAME"; "GROUP"; "GROUP_INPUT";
   "GROUP_OUTPUT"; "TEX_IMAGE"].

(** What [format_mat_node_data] yields for one entry of the structure. *)
Definition ndata (index : list nat) (n : node) : value :=
  VDict [("node", path_value index);
         ("type", VStr (type n));
         ("data", VDict [("attr", VDict (Dict.of_pairs (get_node_attr n)));
                         ("inputs", VDict (Dict.of_pairs (get_node_inputs n)))])].

Fixpoint get_nodes_from (l : list node) (idx : nat) : list value :=
  match l with
  | [] => []
  | n :: rest =>
      (if negb (mem_string (type n) ignore_types) then [ndata [idx] n] else [])
      ++ get_nodes_from rest (S idx)
  end.

(** [get_node_structure_gen(node_tree, parent=None)] followed by the
    formatting loop. The module defines [get_group_nodes] twice; the second
    definition, the one in force, passes [parent] on unchanged, so every
    nested tree is scanned with [parent=None] and each node is indexed by
    its position in its own tree. *)
Fixpoint structure_gen_node (n : node) {struct n} : list value :=
  match n with
  | Node _ _ t _ _ _ gnodes _ =>
      if String.eqb t "GROUP" then
        get_nodes_from gnodes O
        ++ (fix below (l : list node) {struct l} : list value :=
              match l with
              | [] => []
              | m :: rest => structure_gen_node m ++ below rest
              end) gnodes
      else []
  end.

Definition get_node_structure_gen (g : node_tree) : list value :=
  get_nodes_from (nodes g) O ++ flat_map structure_gen_node (nodes g).

(** [get_mat_node_group_inputs]: for every group node of the tree itself,
    the defaults of its unlinked sockets; reading [default_value] of a
    socket that has none raises [AttributeError]. *)
Definition group_input (s : socket) : result (list (string * value)) :=
  if sock_linked s then Ok []
  else match sock_default s with
       | None => Raise AttributeError
       | Some v =>
           if is_basic_type v then Ok [(sock_name s, v)]
           else rbind (py_list v) (fun l => Ok [(sock_name s, l)])
       end.

Definition group_inputs (n : node) : result dict :=
  let data := Dict.of_pairs (map (fun s => (sock_name s, s)) (inputs n)) in
  rbind (rmap (fun ks => group_input (snd ks)) data) (fun l =>
  Ok (List.concat l)).

Definition get_mat_node_group_inputs (g : node_tree) : result (list value) :=
  rmap (fun n =>
          rbind (group_inputs n) (fun data =>
          Ok (VDict [("name", VStr (name n)); ("node", VNone);
                     ("type", VStr (type n));
                     ("data", VDict [("attr", VDict []);
                                     ("inputs", VDict data)])])))
       (filter is_group (nodes g)).

(** [list(format_mat_node_data(material))] *)
Definition format_mat_node_data (m : material) : result (list value) :=
  rbind (get_mat_node_group_inputs (mat_node_tree m)) (fun groups =>
  Ok (get_node_structure_gen (mat_node_tree m) ++ groups)).

(* ---------------------------------------------------------------- *)
(** *** Flat values of a node group: [get_node_group_input_data] *)

Definition ignore_sockets : list string :=
  ["NodeSocketGeometry"; "NodeSocketObject"; "NodeSocketMaterial"].

Definition input_datum (m : modifier) (it : interface_item)
  : result (list (string * value)) :=
  match socket_type it with
  | None => Ok []
  | Some st =>
      if mem_string st ignore_sockets then Ok []
      else match identifier it with
           | None => Ok []
           | Some sock =>
               if String.eqb sock EmptyString then Ok []
               else match Dict.get (properties m) sock with
                    | None => Ok []
                    | Some v =>
                        if truthy v then
                          if is_basic_type v then Ok [(sock, v)]
                          else rbind (py_list v) (fun l => Ok [(sock, l)])
                        else Ok []
                    end
           end
  end.

(** [dict(get_node_group_input_data(node_group))], with [modifier] the
    active modifier: the truthy properties stored under the identifiers of
    the interface sockets. *)
Definition get_node_group_input_data (g : node_tree) (m : modifier)
  : result dict :=
  match interface g with
  | None => Ok []
  | Some items =>
      let it_dict := Dict.of_pairs (map (fun it => (item_name it, it)) items) in
      rbind (rmap (fun ki => input_datum m (snd ki)) it_dict) (fun l =>
      Ok (Dict.of_pairs (List.concat l)))
  end.

End Graph.

(* ================================================================== *)
(** ** The HDF5 file [Presets.hfdb] *)

Module H5.

(** A dataset: its attributes and its content, decoded. A payload written
    as [dumps(x)] is held as [loads] reads it back; an array of ids is held
    as a list of strings. *)
Record dataset : Type := {
  attrs : list (string * string);
  data : value
}.

(** A group created with [track_order=True]: its members in creation
    order, under distinct keys. *)
Definition group : Type := list (string * dataset).

(** [/PRESETS/MATERIALS] or [/PRESETS/GEOMETRY_NODES] *)
Record type_file : Type := {
  INFO : group;
  DATA : group;
  TRANSACTIONS : group;
  FULL : group;
  VALUES : group
}.

(** The file that [create_preset_files] lays out. [KIND] holds the
    datasets [/PRESETS/{ntype}], each a growing array of node ids. *)
Record file : Type := {
  MATERIALS : type_file;
  GEOMETRY_NODES : type_file;
  MODIFIER_STACK : group;
  KIND : list (string * list string);
  NODES : group;
  NODE_STACK : group;
  PHYSICS : list (string * group);
  HAIR_POINTS : group;
  HAIR_SIZES : group
}.

Definition empty_type_file : type_file :=
  {| INFO := []; DATA := []; TRANSACTIONS := []; FULL := []; VALUES := [] |}.

(** [create_preset_files] on a new file. *)
Definition create_preset_files : file :=
  {| MATERIALS := empty_type_file;
     GEOMETRY_NODES := empty_type_file;
     MODIFIER_STACK := [];
     KIND := map (fun ntype => (ntype, []))
                 ["RGB"; "CURVE_FLOAT"; "VALTORGB"; "CURVE_VEC"; "CURVE_RGB";
                  "INPUT_COLOR"];
     NODES := [];
     NODE_STACK := [];
     PHYSICS := [("CLOTH", []); ("SOFT_BODY", []); ("COLLISION", [])];
     HAIR_POINTS := [];
     HAIR_SIZES := [] |}.

(** The tables the transactions address. *)
Inductive table : Type :=
| T_INFO (c : Graph.classification)
| T_DATA (c : Graph.classification)
| T_TRANSACTIONS (c : Graph.classification)
| T_FULL (c : Graph.classification)
| T_VALUES (c : Graph.classification)
| T_MODIFIER_STACK
| T_NODES
| T_NODE_STACK
| T_PHYSICS (ptype : string)
| T_HAIR_POINTS
| T_HAIR_SIZES.

Definition type_file_of (c : Graph.classification) (f : file) : type_file :=
  match c with
  | Graph.Material => MATERIALS f
  | Graph.Geometry_Node => GEOMETRY_NODES f
  end.

Definition with_type_file (c : Graph.classification) (f : file)
  (t : type_file) : file :=
  match c with
  | Graph.Material =>
      {| MATERIALS := t; GEOMETRY_NODES := GEOMETRY_NODES f;
         MODIFIER_STACK := MODIFIER_STACK f; KIND := KIND f;
         NODES := NODES f; NODE_STACK := NODE_STACK f; PHYSICS := PHYSICS f;
         HAIR_POINTS := HAIR_POINTS f; HAIR_SIZES := HAIR_SIZES f |}
  | Graph.Geometry_Node =>
      {| MATERIALS := MATERIALS f; GEOMETRY_NODES := t;
         MODIFIER_STACK := MODIFIER_STACK f; KIND := KIND f;
         NODES := NODES f; NODE_STACK := NODE_STACK f; PHYSICS := PHYSICS f;
         HAIR_POINTS := HAIR_POINTS f; HAIR_SIZES := HAIR_SIZES f |}
  end.

(** [hf[path]] for the path of a table; a physics type that has no group
    raises [KeyError]. *)
Definition open_table (t : table) (f : file) : result group :=
  match t with
  | T_INFO c => Ok (INFO (type_file_of c f))
  | T_DATA c => Ok (DATA (type_file_of c f))
  | T_TRANSACTIONS c => Ok (TRANSACTIONS (type_file_of c f))
  | T_FULL c => Ok (FULL (type_file_of c f))
  | T_VALUES c => Ok (VALUES (type_file_of c f))
  | T_MODIFIER_STACK => Ok (MODIFIER_STACK f)
  | T_NODES => Ok (NODES f)
  | T_NODE_STACK => Ok (NODE_STACK f)
  | T_PHYSICS ptype => Dict.item (PHYSICS f) ptype
  | T_HAIR_POINTS => Ok (HAIR_POINTS f)
  | T_HAIR_SIZES => Ok (HAIR_SIZES f)
  end.

(** The file with the members of one table replaced. *)
Definition with_table (t : table) (g : group) (f : file) : file :=
  let tf c := type_file_of c f in
  match t with
  | T_INFO c =>
      with_type_file c f
        {| INFO := g; DATA := DATA (tf c); TRANSACTIONS := TRANSACTIONS (tf c);
           FULL := FULL (tf c); VALUES := VALUES (tf c) |}
  | T_DATA c =>
      with_type_file c f
        {| INFO := INFO (tf c); DATA := g; TRANSACTIONS := TRANSACTIONS (tf c);
           FULL := FULL (tf c); VALUES := VALUES (tf c) |}
  | T_TRANSACTIONS c =>
      with_type_file c f
        {| INFO := INFO (tf c); DATA := DATA (tf c); TRANSACTIONS := g;
           FULL := FULL (tf c); VALUES := VALUES (tf c) |}
  | T_FULL c =>
      with_type_file c f
        {| INFO := INFO (tf c); DATA := DATA (tf c);
           TRANSACTIONS := TRANSACTIONS (tf c);
           FULL := g; VALUES := VALUES (tf c) |}
  | T_VALUES c =>
      with_type_file c f
        {| INFO := INFO (tf c); DATA := DATA (tf c);
           TRANSACTIONS := TRANSACTIONS (tf c);
           FULL := FULL (tf c); VALUES := g |}
  | T_MODIFIER_STACK =>
      {| MATERIALS := MATERIALS f; GEOMETRY_NODES := GEOMETRY_NODES f;
         MODIFIER_STACK := g; KIND := KIND f;
         NODES := NODES f; NODE_STACK := NODE_STACK f; PHYSICS := PHYSICS f;
         HAIR_POINTS := HAIR_POINTS f; HAIR_SIZES := HAIR_SIZES f |}
  | T_NODES =>
      {| MATERIALS := MATERIALS f; GEOMETRY_NODES := GEOMETRY_NODES f;
         MODIFIER_STACK := MODIFIER_STACK f; KIND := KIND f;
         NODES := g; NODE_STACK := NODE_STACK f; PHYSICS := PHYSICS f;
         HAIR_POINTS := HAIR_POINTS f; HAIR_SIZES := HAIR_SIZES f |}
  | T_NODE_STACK =>
      {| MATERIALS := MATERIALS f; GEOMETRY_NODES := GEOMETRY_NODES f;
         MODIFIER_STACK := MODIFIER_STACK f; KIND := KIND f;
         NODES := NODES f; NODE_STACK := g; PHYSICS := PHYSICS f;
         HAIR_POINTS := HAIR_POINTS f; HAIR_SIZES := HAIR_SIZES f |}
  | T_PHYSICS ptype =>
      {| MATERIALS := MATERIALS f; GEOMETRY_NODES := GEOMETRY_NODES f;
         MODIFIER_STACK := MODIFIER_STACK f; KIND := KIND f;
         NODES := NODES f; NODE_STACK := NODE_STACK f;
         PHYSICS := Dict.set (PHYSICS f) ptype g;
         HAIR_POINTS := HAIR_POINTS f; HAIR_SIZES := HAIR_SIZES f |}
  | T_HAIR_POINTS =>
      {| MATERIALS := MATERIALS f; GEOMETRY_NODES := GEOMETRY_NODES f;
         MODIFIER_STACK := MODIFIER_STACK f; KIND := KIND f;
         NODES := NODES f; NODE_STACK := NODE_STACK f; PHYSICS := PHYSICS f;
         HAIR_POINTS := g; HAIR_SIZES := HAIR_SIZES f |}
  | T_HAIR_SIZES =>
      {| MATERIALS := MATERIALS f; GEOMETRY_NODES := GEOMETRY_NODES f;
         MODIFIER_STACK := MODIFIER_STACK f; KIND := KIND f;
         NODES := NODES f; NODE_STACK := NODE_STACK f; PHYSICS := PHYSICS f;
         HAIR_POINTS := HAIR_POINTS f; HAIR_SIZES := g |}
  end.

Definition with_kind (k : list (string * list string)) (f : file) : file :=
  {| MATERIALS := MATERIALS f; GEOMETRY_NODES := GEOMETRY_NODES f;
     MODIFIER_STACK := MODIFIER_STACK f; KIND := k;
     NODES := NODES f; NODE_STACK := NODE_STACK f; PHYSICS := PHYSICS f;
     HAIR_POINTS := HAIR_POINTS f; HAIR_SIZES := HAIR_SIZES f |}.

(* ---------------------------------------------------------------- *)
(** *** Code that runs on the open file *)

(** State and exception: the file as it is when the code returns or
    raises, and what it returned or raised. *)
Definition M (A : Type) : Type := file -> file * result A.

Definition ret {A} (a : A) : M A := fun f => (f, Ok a).
Definition raise {A} (e : exn) : M A := fun f => (f, Raise e).
Definition bind {A B} (m : M A) (k : A -> M B) : M B :=
  fun f => match m f with
           | (f', Ok a) => k a f'
           | (f', Raise e) => (f', Raise e)
           end.
Definition lift {A} (r : result A) : M A := fun f => (f, r).
Definition read {A} (g : file -> A) : M A := fun f => (f, Ok (g f)).
Definition write (g : file -> file) : M unit := fun f => (g f, Ok tt).

Declare Scope hf_scope.
Delimit Scope hf_scope with hf.
Notation "x <- c ;; k" := (bind c (fun x => k))
  (at level 61, c at next level, right associativity) : hf_scope.
Notation "c ;;; k" := (bind c (fun _ => k))
  (at level 61, right associativity) : hf_scope.
Open Scope hf_scope.

Fixpoint for_each {A} (l : list A) (body : A -> M unit) : M unit :=
  match l with
  | [] => ret tt
  | a :: rest => body a ;;; for_each rest body
  end.

(** [hf[path]] *)
Definition table_of (t : table) : M group := fun f => (f, open_table t f).

(** [id_ in group.keys()] *)
Definition has_key (t : table) (id_ : string) : M bool :=
  g <- table_of t ;; ret (Dict.mem g id_).

(** [group[id_]] *)
Definition dataset_of (t : table) (id_ : string) : M dataset :=
  g <- table_of t ;; lift (Dict.item g id_).

(** [group.create_dataset(id_, data=...)]: the new member has no
    attribute yet; an existing name is refused with [ValueError]. *)
Definition create_dataset (t : table) (id_ : string) (v : value) : M unit :=
  g <- table_of t ;;
  if Dict.mem g id_ then raise ValueError
  else write (with_table t (g ++ [(id_, {| attrs := []; data := v |})])).

(** [group[id_].attrs[key] = text] *)
Definition set_attr (t : table) (id_ key text : string) : M unit :=
  g <- table_of t ;;
  d <- lift (Dict.item g id_) ;;
  write (with_table t
           (Dict.set g id_ {| attrs := Dict.set (attrs d) key text;
                              data := data d |})).

(** [group[id_].attrs.get(key)] *)
Definition get_attr (t : table) (id_ key : string) : M (option string) :=
  d <- dataset_of t id_ ;; ret (Dict.get (attrs d) key).

(** [get_names(pfile)]: the ['name'] attribute of every member, [None]
    where a member has none. *)
Definition get_names (pfile : group) : list (option string) :=
  map (fun kd => Dict.get (attrs (snd kd)) "name") pfile.

(** [name in get_names(pfile)] *)
Definition name_in (name : string) (names : list (option string)) : bool :=
  existsb (fun o => match o with
                    | Some n => String.eqb n name
                    | None => false
                    end) names.

Definition names_of (t : table) : M (list (option string)) :=
  g <- table_of t ;; ret (get_names g).

(** An array of ids as a value, and back ([dataset[:].astype(str)]). *)
Definition ids_value (ids : list string) : value := VList (map VStr ids).

Definition ids_of (v : value) : list string :=
  match v with
  | VList xs | VTuple xs =>
      flat_map (fun x => match x with VStr s => [s] | _ => [] end) xs
  | _ => []
  end.

(** [dataset.resize((shape[0] + 1,)); dataset[-1:] = array([id_])] *)
Definition append_id (t : table) (key id_ : string) : M unit :=
  g <- table_of t ;;
  d <- lift (Dict.item g key) ;;
  write (with_table t
           (Dict.set g key {| attrs := attrs d;
                              data := ids_value (ids_of (data d) ++ [id_]) |})).

(** [hf['/PRESETS/' + node_type]], one of the six datasets of ids. h5py
    resolves any path below [/PRESETS]; a name that is not one of the six
    is taken to raise [KeyError]. *)
Definition kind_ids (node_type : string) : M (list string) :=
  fun f => (f, Dict.item (KIND f) node_type).

Definition kind_append (node_type id_ : string) : M unit :=
  ids <- kind_ids node_type ;;
  write (fun f => with_kind (Dict.set (KIND f) node_type (ids ++ [id_])) f).

End H5.

(* ================================================================== *)
(** ** Preset transactions *)

Module Presets.
Import Graph H5.

(* ---------------------------------------------------------------- *)
(** *** Series names: [get_max_series_num], [get_match_series_highest] *)

(** The part of a name before its first dot: [name.split('.')[0]]. *)
Definition base_name (name : string) : string :=
  hd EmptyString (split "." name).

(** The body of the loop of [get_max_series_num] for one name [n]. *)
Definition series_step (name : string) (num : Z) (n : option string)
  : result Z :=
  match n with
  | None => Ok num
  | Some n =>
      if String.eqb n EmptyString then Ok num
      else
        let ns := split "." n in
        if String.eqb (hd EmptyString ns) (base_name name) then
          match ns with
          | _ :: second :: _ =>
              rbind (of_option ValueError (int second)) (fun i =>
              Ok (if Z.ltb num i then i else num))
          | _ => Ok num
          end
        else Ok num
  end.

Fixpoint max_series_from (name : string) (data : list (option string))
  (num : Z) : result Z :=
  match data with
  | [] => Ok num
  | n :: rest =>
      rbind (series_step name num n) (fun num' =>
      max_series_from name rest num')
  end.

(** [get_max_series_num(name, data)] *)
Definition get_max_series_num (name : string) (data : list (option string))
  : result Z :=
  max_series_from name data 0.

(** [get_match_series_highest(name, data)] *)
Definition get_match_series_highest (name : string)
  (data : list (option string)) : result string :=
  rbind (get_max_series_num name data) (fun ms =>
  Ok (base_name name +++ "." +++ zfill 3 (str_of_Z (ms + 1)))).

(** The naming step every inner record goes through after it was created:
[[
    if name in get_names(pfile):
        name = get_match_series_highest(name, get_names(pfile))
]]
    The new record is already a member of [pfile] and has no name yet. *)
Definition series_name (t : table) (name : string) : M string :=
  names <- names_of t ;;
  if name_in name names then lift (get_match_series_highest name names)
  else ret name.

Definition name_exists (preset_name : string) : exn :=
  NameExistsError ("[Preset Name] " +++ preset_name
                   +++ " already exists. Please choose another name.").

(* ---------------------------------------------------------------- *)
(** *** Saving a material or a node group *)

(** What is saved: a material, or a node group together with the active
    modifier its values are read from. *)
Inductive subject : Type :=
| Of_material (m : material)
| Of_node_group (node_group : node_tree) (active : modifier).

Definition class_of (s : subject) : classification :=
  match s with
  | Of_material _ => Material
  | Of_node_group _ _ => Geometry_Node
  end.

Definition tree_of (s : subject) : node_tree :=
  match s with
  | Of_material m => mat_node_tree m
  | Of_node_group g _ => g
  end.

Definition name_of (s : subject) : string :=
  match s with
  | Of_material m => mat_name m
  | Of_node_group g _ => tree_name g
  end.

(** [node_values] and [values_id]: for a material the list
    [format_mat_node_data] yields, hashed by [hash_list]; for a node group
    the dict of [get_node_group_input_data], hashed by [hash_dict]. *)
Definition values_of (s : subject) : result (value * string) :=
  match s with
  | Of_material m =>
      rbind (format_mat_node_data m) (fun node_values =>
      rbind (hash_list node_values) (fun values_id =>
      Ok (VList node_values, values_id)))
  | Of_node_group g active =>
      rbind (get_node_group_input_data g active) (fun node_values =>
      rbind (hash_dict node_values) (fun values_id =>
      Ok (VDict node_values, values_id)))
  end.

(** [hash_dict(get_all_nodes(node_tree))] *)
Definition graph_id (g : node_tree) : result string :=
  rbind (get_all_nodes g) hash_dict.

(** The kinds and paths of a stored classification, as the loops over
    [ntd_] read them. *)
Definition sequence_of (v : value) : result (list value) :=
  match v with
  | VList xs | VTuple xs => Ok xs
  | _ => Raise TypeError
  end.

Definition kinds_of (ntd : value) : result (list (string * list value)) :=
  match ntd with
  | VDict kvs =>
      rmap (fun kv => rbind (sequence_of (snd kv)) (fun l => Ok (fst kv, l)))
           kvs
  | _ => Raise TypeError
  end.

(** The loop over the nodes of one kind. [ct] is the running count the
    suggested names are numbered with, [ids] is [nis[node_type]]. *)
Fixpoint save_nodes (g : node_tree) (node_type : string)
  (func : node -> result dict) (nodes : list value) (ct : nat)
  (ids : list string) : M (list string) :=
  match nodes with
  | [] => ret ids
  | node :: rest =>
      n <- lift (node_at g node) ;;
      data <- lift (func n) ;;
      nid <- lift (hash_dict data) ;;
      has <- has_key T_NODES nid ;;
      ct' <- (if negb has then
                payload <- lift (Json.reload (VDict data)) ;;
                create_dataset T_NODES nid payload ;;;
                abbr <- lift (node_type_abbr node_type) ;;
                suggested_name <-
                  series_name T_NODES
                    (abbr +++ "_" +++ str_of_Z (Z.of_nat ct)) ;;
                set_attr T_NODES nid "name" suggested_name ;;;
                set_attr T_NODES nid "type" node_type ;;;
                ret (S ct)
              else ret ct) ;;
      listed <- kind_ids node_type ;;
      (if negb (mem_string nid listed) then kind_append node_type nid
       else ret tt) ;;;
      save_nodes g node_type func rest ct' (ids ++ [nid])
  end.

(** The loop over the kinds of [ntd_]; the result is [node_ids]. *)
Fixpoint save_kinds (g : node_tree) (ntd : list (string * list value))
  (node_ids : list (string * list string)) : M (list (string * list string)) :=
  match ntd with
  | [] => ret node_ids
  | (node_type, nodes) :: rest =>
      func <- lift (get_nodes_func_dict node_type) ;;
      listed <- kind_ids node_type ;;
      nis <- save_nodes g node_type func nodes (List.length listed) [] ;;
      save_kinds g rest (Dict.set node_ids node_type nis)
  end.

Definition node_ids_dict (node_ids : list (string * list string)) : dict :=
  map (fun kv => (fst kv, ids_value (snd kv))) node_ids.

(** The links step shared by save and import: [FULL] and [VALUES] under
    the graph id. The result tells whether the preset id was newly linked. *)
Definition link_preset (c : classification) (mat_id pid values_id : string)
  : M bool :=
  has <- has_key (T_FULL c) mat_id ;;
  if negb has then
    create_dataset (T_FULL c) mat_id (ids_value [pid]) ;;;
    create_dataset (T_VALUES c) mat_id (ids_value [values_id]) ;;;
    ret true
  else
    pf <- dataset_of (T_FULL c) mat_id ;;
    saved <- (if negb (mem_string pid (ids_of (data pf))) then
                append_id (T_FULL c) mat_id pid ;;; ret true
              else ret false) ;;
    pv <- dataset_of (T_VALUES c) mat_id ;;
    (if negb (mem_string values_id (ids_of (data pv))) then
       append_id (T_VALUES c) mat_id values_id
     else ret tt) ;;;
    ret saved.

(** The step under [# INFO]: the classification of the graph, computed and
    recorded when the graph id is new, read back otherwise. *)
Definition save_info (s : subject) (mat_id user_ : string) : M value :=
  let c := class_of s in
  known <- has_key (T_INFO c) mat_id ;;
  if negb known then
    let ntd_ := classification_value (node_type_dict (tree_of s) c) in
    create_dataset (T_INFO c) mat_id ntd_ ;;;
    set_attr (T_INFO c) mat_id "name" (base_name (name_of s)) ;;;
    set_attr (T_INFO c) mat_id "class" (classification_name c) ;;;
    set_attr (T_INFO c) mat_id "user" user_ ;;;
    ret ntd_
  else
    minfo <- dataset_of (T_INFO c) mat_id ;;
    ret (data minfo).

(** The step under [# DATA]: the values record, created when its id is
    new and then named after the preset, with a series suffix if that name
    is taken in the table. *)
Definition save_data (c : classification) (values_id : string)
  (node_values : value) (preset_name : string) : M unit :=
  known <- has_key (T_DATA c) values_id ;;
  if negb known then
    payload <- lift (Json.reload node_values) ;;
    create_dataset (T_DATA c) values_id payload ;;;
    values_name <- series_name (T_DATA c) preset_name ;;
    set_attr (T_DATA c) values_id "name" values_name
  else ret tt.

(** The end of the step under [# NODES]: the node stack record. *)
Definition save_node_stack (node_ids : list (string * list string))
  : M string :=
  ni_id <- lift (hash_dict (node_ids_dict node_ids)) ;;
  known <- has_key T_NODE_STACK ni_id ;;
  (if negb known then
     create_dataset T_NODE_STACK ni_id (VDict (node_ids_dict node_ids))
   else ret tt) ;;;
  ret ni_id.

(** The step under [# TRANSACTIONS], with the read of [pname] that
    follows it. *)
Definition save_transaction (c : classification)
  (mat_id values_id ni_id preset_name : string) : M (string * option string) :=
  pid <- lift (hash_list [VStr mat_id; VStr values_id; VStr ni_id]) ;;
  known <- has_key (T_TRANSACTIONS c) pid ;;
  (if negb known then
     create_dataset (T_TRANSACTIONS c) pid
                    (ids_value [mat_id; values_id; ni_id]) ;;;
     set_attr (T_TRANSACTIONS c) pid "name" preset_name
   else ret tt) ;;;
  pname <- get_attr (T_TRANSACTIONS c) pid "name" ;;
  ret (pid, pname).

(** What a save does when the proposed name is already the name of a
    transaction: the preset savers refuse, the saver of one layer of a
    modifier stack takes the next series name. *)
Inductive on_collision : Type := Refuse | Next_in_series.

Definition check_preset_name (policy : on_collision) (c : classification)
  (preset_name : string) : M string :=
  names <- names_of (T_TRANSACTIONS c) ;;
  if name_in preset_name names then
    match policy with
    | Refuse => raise (name_exists preset_name)
    | Next_in_series => lift (get_match_series_highest preset_name names)
    end
  else ret preset_name.

(** The body shared by [material_preset_processing],
    [geometry_node_preset_processing] and [geometry_node_processing], which
    differ in the group of the file they work on, in how the flat values
    are read and hashed, in the class they record and in what they do with
    a name that is taken. The steps are the blocks the source marks with
    comments. The result is [(preset_saved, pname, pid)]. *)
Definition graph_processing (policy : on_collision) (s : subject)
  (preset_name user_ : string) : M (bool * option string * string) :=
  let c := class_of s in
  let g := tree_of s in
  preset_name <- check_preset_name policy c preset_name ;;
  mat_id <- lift (graph_id g) ;;
  nv <- lift (values_of s) ;;
  let node_values := fst nv in
  let values_id := snd nv in
  ntd_ <- save_info s mat_id user_ ;;
  save_data c values_id node_values preset_name ;;;
  ntd <- lift (kinds_of ntd_) ;;
  node_ids <- save_kinds g ntd [] ;;
  ni_id <- save_node_stack node_ids ;;
  trans <- save_transaction c mat_id values_id ni_id preset_name ;;
  let pid := fst trans in
  let pname := snd trans in
  preset_saved <- link_preset c mat_id pid values_id ;;
  ret (preset_saved, pname, pid).

(** [material_preset_processing(file, material, preset_name, user_)] *)
Definition material_preset_processing (m : material)
  (preset_name user_ : string) : M (bool * option string) :=
  r <- graph_processing Refuse (Of_material m) preset_name user_ ;;
  ret (fst r).

(** [geometry_node_preset_processing(file, node_group, preset_name, user_)],
    with [active] the active modifier of the context object. *)
Definition geometry_node_preset_processing (node_group : node_tree)
  (active : modifier) (preset_name user_ : string) : M (bool * option string) :=
  r <- graph_processing Refuse (Of_node_group node_group active)
                        preset_name user_ ;;
  ret (fst r).

(** [geometry_node_processing(hf, modifier, preset_name, user_)] *)
Definition geometry_node_processing (m : modifier)
  (preset_name user_ : string) : M (bool * option string * string) :=
  graph_processing Next_in_series (Of_node_group (node_group m) m)
                   preset_name user_.

(** A modifier of the object: its type, and for a nodes modifier the
    group with its [hf_user]. *)
Record stack_modifier : Type := {
  mod_type : string;
  mod_nodes : modifier;
  hf_user : string
}.

Fixpoint save_layers (mods : list stack_modifier) (preset_name : string)
  (ids : list string) (success fail : list (option string))
  : M (list string * list (option string) * list (option string)) :=
  match mods with
  | [] => ret (ids, success, fail)
  | md :: rest =>
      let nname := base_name (tree_name (node_group (mod_nodes md))) in
      let preset_name_ := preset_name +++ "_" +++ nname in
      r <- geometry_node_processing (mod_nodes md) preset_name_ (hf_user md) ;;
      let '(preset_saved, pname, pid) := r in
      if preset_saved : bool then
        save_layers rest preset_name (ids ++ [pid]) (success ++ [pname]) fail
      else
        save_layers rest preset_name (ids ++ [pid]) success (fail ++ [pname])
  end.

(** [modifier_stack_preset_processing(file, ob, preset_name,
    include_surface_deform)], with [modifiers] the modifiers of [ob]. *)
Definition modifier_stack_preset_processing (modifiers : list stack_modifier)
  (preset_name : string) (include_surface_deform : bool)
  : M (list (option string) * list (option string)) :=
  let mods :=
    filter (fun md =>
              (String.eqb (mod_type md) "NODES"
               && (include_surface_deform
                   || negb (String.eqb
                              (base_name (tree_name (node_group (mod_nodes md))))
                              "Surface Deform")))%bool) modifiers in
  names <- names_of T_MODIFIER_STACK ;;
  if name_in preset_name names then raise (name_exists preset_name)
  else
    r <- save_layers mods preset_name [] [] [] ;;
    let '(mod_stack_ids, success, fail) := r in
    ms_id <- lift (hash_list (map VStr mod_stack_ids)) ;;
    known <- has_key T_MODIFIER_STACK ms_id ;;
    if negb known then
      create_dataset T_MODIFIER_STACK ms_id (ids_value mod_stack_ids) ;;;
      set_attr T_MODIFIER_STACK ms_id "name" preset_name ;;;
      ret (success ++ [Some preset_name], fail)
    else ret (success, fail ++ [Some preset_name]).

(* ---------------------------------------------------------------- *)
(** *** Saving one special node *)

Fixpoint match_node_from (u : nat) (l : list node) (idx : nat)
  : list (list nat * string) :=
  match l with
  | [] => []
  | n :: rest =>
      (if Nat.eqb (uid n) u then [([idx], type n)] else [])
      ++ match_node_from u rest (S idx)
  end.

Fixpoint match_structure_node (u : nat) (n : node) {struct n}
  : list (list nat * string) :=
  match n with
  | Node _ _ t _ _ _ gnodes _ =>
      if String.eqb t "GROUP" then
        match_node_from u gnodes O
        ++ (fix below (l : list node) {struct l} : list (list nat * string) :=
              match l with
              | [] => []
              | m :: rest => match_structure_node u m ++ below rest
              end) gnodes
      else []
  end.

(** [match_node_structure_gen(node_, node_tree)]: as in
    [get_node_structure_gen], the definition of [get_group_nodes] in force
    passes [parent=None] down, so a match is indexed by its position in
    its own tree. *)
Definition match_node_structure_gen (u : nat) (g : node_tree)
  : list (list nat * string) :=
  match_node_from u (nodes g) O ++ flat_map (match_structure_node u) (nodes g).

(** [node_preset_processing(file, node, node_tree, preset_name, ...)] *)
Definition node_preset_processing (node_ : nat) (g : node_tree)
  (preset_name : string) : M (bool * option string) :=
  found <- lift (of_option StopIteration
                           (hd_error (match_node_structure_gen node_ g))) ;;
  let node_data := fst found in
  let node_type := snd found in
  func <- lift (get_nodes_func_dict node_type) ;;
  n <- lift (node_at g (path_value node_data)) ;;
  data <- lift (func n) ;;
  nid <- lift (hash_dict data) ;;
  names <- names_of T_NODES ;;
  if name_in preset_name names then
    raise (NameExistsError ("[Node Preset] " +++ preset_name
                            +++ " already exists. Please choose another name."))
  else
    known <- has_key T_NODES nid ;;
    if negb known then
      kind_ids node_type ;;;
      payload <- lift (Json.reload (VDict data)) ;;
      create_dataset T_NODES nid payload ;;;
      set_attr T_NODES nid "name" preset_name ;;;
      set_attr T_NODES nid "type" node_type ;;;
      listed <- kind_ids node_type ;;
      (if negb (mem_string nid listed) then kind_append node_type nid
       else ret tt) ;;;
      ret (true, None)
    else
      pname <- get_attr T_NODES nid "name" ;;
      ret (false, pname).

(** The id the save computes for a subject whose special nodes hash to
    [node_ids]: [hash_list([mat_id, values_id, ni_id])]. *)
Definition transaction_id (mat_id values_id ni_id : string) : result string :=
  hash_list [VStr mat_id; VStr values_id; VStr ni_id].

(* ---------------------------------------------------------------- *)
(** *** Physics, collision and hair presets *)

(** The body shared by [physics_preset_processing] (on
    [/PHYSICS/{ptype}]) and [collision_preset_processing] (on
    [/PHYSICS/COLLISION]). *)
Definition settings_preset_processing (t : table) (data : dict)
  (preset_name : string) : M (bool * option string) :=
  names <- names_of t ;;
  if name_in preset_name names then raise (name_exists preset_name)
  else
    phy_id <- lift (hash_dict data) ;;
    known <- has_key t phy_id ;;
    if negb known then
      payload <- lift (Json.reload (VDict data)) ;;
      create_dataset t phy_id payload ;;;
      set_attr t phy_id "name" preset_name ;;;
      ret (true, Some preset_name)
    else
      pname <- get_attr t phy_id "name" ;;
      ret (false, pname).

(** [physics_preset_processing(file, ptype, data, preset_name)] *)
Definition physics_preset_processing (ptype : string) (data : dict)
  (preset_name : string) : M (bool * option string) :=
  settings_preset_processing (T_PHYSICS ptype) data preset_name.

(** [collision_preset_processing(file, data, preset_name)] *)
Definition collision_preset_processing (data : dict) (preset_name : string)
  : M (bool * option string) :=
  settings_preset_processing (T_PHYSICS "COLLISION") data preset_name.

(** [hair_preset_processing(file, data, preset_name)]: [data] holds the
    arrays ['points'] and ['sizes']; their storage as half floats and
    short integers is not modelled, the arrays are kept as they are. *)
Definition hair_preset_processing (data : dict) (preset_name : string)
  : M (bool * option string) :=
  names <- names_of T_HAIR_POINTS ;;
  if name_in preset_name names then raise (name_exists preset_name)
  else
    h_id <- lift (hash_dict data) ;;
    known <- has_key T_HAIR_POINTS h_id ;;
    if negb known then
      points <- lift (Dict.item data "points") ;;
      (match points with VArray _ => ret tt | _ => raise AttributeError end) ;;;
      create_dataset T_HAIR_POINTS h_id points ;;;
      set_attr T_HAIR_POINTS h_id "name" preset_name ;;;
      sizes <- lift (Dict.item data "sizes") ;;
      (match sizes with VArray _ => ret tt | _ => raise AttributeError end) ;;;
      create_dataset T_HAIR_SIZES h_id sizes ;;;
      ret (true, Some preset_name)
    else
      pname <- get_attr T_HAIR_POINTS h_id "name" ;;
      ret (false, pname).

(* ---------------------------------------------------------------- *)
(** *** Renaming *)

(** [change_preset_name(file, pfile, id_, name)] *)
Definition change_preset_name (pfile : table) (id_ name : string)
  : M (option string) :=
  names <- names_of pfile ;;
  if name_in name names then
    raise (NameExistsError ("[Preset] " +++ name
                            +++ " already in use. Please choose another name."))
  else
    prev_name <- get_attr pfile id_ "name" ;;
    set_attr pfile id_ "name" name ;;;
    ret prev_name.

(* ---------------------------------------------------------------- *)
(** *** Export *)

Definition opt_str (o : option string) : value :=
  match o with
  | Some s => VStr s
  | None => VNone
  end.

(** [v[k]] on a decoded JSON value. *)
Definition getitem (v k : value) : result value :=
  match v, k with
  | VDict kvs, VStr s => Dict.item kvs s
  | VDict _, _ => Raise KeyError
  | VList xs, VInt i | VTuple xs, VInt i => py_nth xs i
  | VStr s, VInt i =>
      rbind (py_nth (list_ascii_of_string s) i) (fun ch =>
      Ok (VStr (String ch EmptyString)))
  | _, _ => Raise TypeError
  end.

Definition as_str (v : value) : result string :=
  match v with
  | VStr s => Ok s
  | _ => Raise TypeError
  end.

(** One entry of [ndata[ntype]]: the path, the payload of the node record
    bound to it, the name of that record and its id. *)
Definition export_node (nst : value) (ntype : string) (i : nat) (n : value)
  : M value :=
  ids <- lift (getitem nst (VStr ntype)) ;;
  nid_ <- lift (getitem ids (VInt (Z.of_nat i))) ;;
  nid <- lift (as_str nid_) ;;
  record <- dataset_of T_NODES nid ;;
  ret (VList [n; data record; opt_str (Dict.get (attrs record) "name");
              VStr nid]).

Fixpoint export_nodes (nst : value) (ntype : string) (i : nat)
  (nodes : list value) : M (list value) :=
  match nodes with
  | [] => ret []
  | n :: rest =>
      e <- export_node nst ntype i n ;;
      es <- export_nodes nst ntype (S i) rest ;;
      ret (e :: es)
  end.

Fixpoint export_kinds (nst : value) (ntd : list (string * list value))
  : M dict :=
  match ntd with
  | [] => ret []
  | (ntype, nodes) :: rest =>
      es <- export_nodes nst ntype O nodes ;;
      more <- export_kinds nst rest ;;
      ret ((ntype, VList es) :: more)
  end.

(** [export_mat_preset_data_by_preset_id] and
    [export_gn_preset_data_by_preset_id], which differ in the group they
    read; the result is the document as [json.dump] writes it and
    [read_json] reads it back. *)
Definition export_preset_data_by_preset_id (c : classification)
  (id_ : string) : M value :=
  ptrans <- dataset_of (T_TRANSACTIONS c) id_ ;;
  let pname := Dict.get (attrs ptrans) "name" in
  let trans := data ptrans in
  t0 <- lift (rbind (getitem trans (VInt 0)) as_str) ;;
  minfo <- dataset_of (T_INFO c) t0 ;;
  let mname := Dict.get (attrs minfo) "name" in
  let mclass := Dict.get (attrs minfo) "class" in
  let muser := Dict.get (attrs minfo) "user" in
  let ntd := data minfo in
  t2 <- lift (rbind (getitem trans (VInt 2)) as_str) ;;
  nstack <- dataset_of T_NODE_STACK t2 ;;
  let nst := data nstack in
  kinds <- lift (kinds_of ntd) ;;
  ndata <- export_kinds nst kinds ;;
  t1 <- lift (rbind (getitem trans (VInt 1)) as_str) ;;
  values <- dataset_of (T_DATA c) t1 ;;
  ret (VDict [("name", opt_str pname);
              ("id", VStr id_);
              ("transaction", trans);
              ("group", VDict [("name", opt_str mname);
                               ("class", opt_str mclass);
                               ("user", opt_str muser)]);
              ("node_stack", nst);
              ("data", VDict [("values", data values);
                              ("nodes", VDict ndata)])]).

Definition export_mat_preset_data_by_preset_id :=
  export_preset_data_by_preset_id Material.

Definition export_gn_preset_data_by_preset_id :=
  export_preset_data_by_preset_id Geometry_Node.

(* ---------------------------------------------------------------- *)
(** *** Import *)

(** The fields [import_*_preset_data] reads off the document before it
    opens the file. *)
Record preset_fields : Type := {
  f_name : value;
  f_id : value;
  f_graph_id : value;
  f_group_name : value;
  f_group_class : value;
  f_group_user : value;
  f_values : value;
  f_values_id : value;
  f_stack_id : value;
  f_node_stack : value;
  f_nodes : value
}.

Definition read_fields (preset_data : value) : result preset_fields :=
  let at_ v k := getitem v (VStr k) in
  rbind (at_ preset_data "name") (fun preset_name =>
  rbind (at_ preset_data "id") (fun pid =>
  rbind (rbind (at_ preset_data "transaction")
               (fun t => getitem t (VInt 0))) (fun mat_id =>
  rbind (rbind (at_ preset_data "group") (fun g => at_ g "name")) (fun gname =>
  rbind (rbind (at_ preset_data "group") (fun g => at_ g "class")) (fun gclass =>
  rbind (rbind (at_ preset_data "group") (fun g => at_ g "user")) (fun guser =>
  rbind (rbind (at_ preset_data "data") (fun d => at_ d "values")) (fun vals =>
  rbind (rbind (at_ preset_data "transaction")
               (fun t => getitem t (VInt 1))) (fun values_id =>
  rbind (rbind (at_ preset_data "transaction")
               (fun t => getitem t (VInt 2))) (fun ni_id =>
  rbind (at_ preset_data "node_stack") (fun node_stack =>
  rbind (rbind (at_ preset_data "data") (fun d => at_ d "nodes")) (fun nodes =>
  Ok {| f_name := preset_name; f_id := pid; f_graph_id := mat_id;
        f_group_name := gname; f_group_class := gclass;
        f_group_user := guser; f_values := vals; f_values_id := values_id;
        f_stack_id := ni_id; f_node_stack := node_stack;
        f_nodes := nodes |}))))))))))).

(** [v in group.keys()] for a value read from a document. *)
Definition has_value_key (t : table) (v : value) : M bool :=
  match v with
  | VStr s => has_key t s
  | _ => ret false
  end.

(** [v in get_names(pfile)] for a value read from a document. *)
Definition value_name_in (v : value) (names : list (option string)) : bool :=
  match v with
  | VStr s => name_in s names
  | VNone => existsb (fun o => match o with None => true | _ => false end)
                     names
  | _ => false
  end.

(** The naming step on a value read from a document; [None] has no
    [split]. *)
Definition series_value_name (t : table) (v : value) : M value :=
  names <- names_of t ;;
  if value_name_in v names then
    match v with
    | VStr s => n <- lift (get_match_series_highest s names) ;; ret (VStr n)
    | _ => raise AttributeError
    end
  else ret v.

(** [d[:2]] *)
Definition first_two (d : value) : result value :=
  match d with
  | VList xs | VTuple xs => Ok (VList (firstn 2 xs))
  | VStr s => Ok (VStr (String.substring 0 2 s))
  | _ => Raise TypeError
  end.

(** [{n: [f(d) for d in nodes[n]] for n in nodes}] *)
Definition map_nodes (f : value -> result value) (nodes : value)
  : result value :=
  rbind (kinds_of nodes) (fun ks =>
  rbind (rmap (fun kv => rbind (rmap f (snd kv))
                           (fun l => Ok (fst kv, VList l))) ks) (fun l =>
  Ok (VDict l))).

(** The loop of the import over the nodes of one kind. *)
Fixpoint import_nodes (node_type : string) (nodes : list value) : M unit :=
  match nodes with
  | [] => ret tt
  | node :: rest =>
      abbr <- lift (node_type_abbr node_type) ;;
      data <- lift (getitem node (VInt 2)) ;;
      nid_ <- lift (getitem node (VInt 4)) ;;
      known <- has_value_key T_NODES nid_ ;;
      (if negb known then
         nid <- lift (as_str nid_) ;;
         payload <- lift (Json.reload data) ;;
         create_dataset T_NODES nid payload ;;;
         suggested <- lift (getitem node (VInt 3)) ;;
         suggested_name <- series_value_name T_NODES suggested ;;
         sname <- lift (as_str suggested_name) ;;
         set_attr T_NODES nid "name" sname ;;;
         set_attr T_NODES nid "type" node_type
       else ret tt) ;;;
      listed <- kind_ids node_type ;;
      nid <- lift (as_str nid_) ;;
      (if negb (mem_string nid listed) then kind_append node_type nid
       else ret tt) ;;;
      import_nodes node_type rest
  end.

Fixpoint import_kinds (ks : list (string * list value)) : M unit :=
  match ks with
  | [] => ret tt
  | (node_type, nodes) :: rest =>
      kind_ids node_type ;;;
      import_nodes node_type nodes ;;;
      import_kinds rest
  end.

(** The blocks of the import from [# INFO] to [# LINKS]: the records the
    new transaction refers to. *)
Definition import_records (c : classification) (d : preset_fields)
  (pid mat_id values_id ni_id pname_ : string) : M unit :=
  (* INFO *)
  known <- has_key (T_INFO c) mat_id ;;
  (if negb known then
     ntd <- lift (map_nodes first_two (f_nodes d)) ;;
     payload <- lift (Json.reload ntd) ;;
     create_dataset (T_INFO c) mat_id payload ;;;
     mname <- lift (as_str (f_group_name d)) ;;
     set_attr (T_INFO c) mat_id "name" mname ;;;
     mclass <- lift (as_str (f_group_class d)) ;;
     set_attr (T_INFO c) mat_id "class" mclass ;;;
     muser <- lift (as_str (f_group_user d)) ;;
     set_attr (T_INFO c) mat_id "user" muser
   else ret tt) ;;;
  (* DATA *)
  known <- has_key (T_DATA c) values_id ;;
  (if negb known then
     payload <- lift (Json.reload (f_values d)) ;;
     create_dataset (T_DATA c) values_id payload ;;;
     values_name <- series_name (T_DATA c) pname_ ;;
     set_attr (T_DATA c) values_id "name" values_name
   else ret tt) ;;;
  (* NODES *)
  ks <- lift (kinds_of (f_nodes d)) ;;
  import_kinds ks ;;;
  known <- has_key T_NODE_STACK ni_id ;;
  (if negb known then
     node_ids <- lift (map_nodes (fun e => getitem e (VInt 4)) (f_nodes d)) ;;
     payload <- lift (Json.reload node_ids) ;;
     create_dataset T_NODE_STACK ni_id payload
   else ret tt) ;;;
  (* LINKS *)
  link_preset c mat_id pid values_id ;;;
  ret tt.

(** What the import does once the preset id is known to be new: the
    naming step and the block [# TRANSACTIONS], then the records. *)
Definition import_new (c : classification) (d : preset_fields)
  : M (bool * option string) :=
  preset_name <- series_value_name (T_TRANSACTIONS c) (f_name d) ;;
  (* TRANSACTIONS *)
  pid <- lift (as_str (f_id d)) ;;
  mat_id <- lift (as_str (f_graph_id d)) ;;
  values_id <- lift (as_str (f_values_id d)) ;;
  ni_id <- lift (as_str (f_stack_id d)) ;;
  create_dataset (T_TRANSACTIONS c) pid
                 (ids_value [mat_id; values_id; ni_id]) ;;;
  pname_ <- lift (as_str preset_name) ;;
  set_attr (T_TRANSACTIONS c) pid "name" pname_ ;;;
  pname <- get_attr (T_TRANSACTIONS c) pid "name" ;;
  import_records c d pid mat_id values_id ni_id pname_ ;;;
  ret (true, pname).

(** [import_mat_preset_data] and [import_gn_preset_data], which differ in
    the group they write. Ids and attributes of the file are strings; a
    document that gives another JSON value where the import needs one is
    taken to raise [TypeError] at the point of use. *)
Definition import_preset_data (c : classification) (preset_data : value)
  : M (bool * option string) :=
  d <- lift (read_fields preset_data) ;;
  known <- has_value_key (T_TRANSACTIONS c) (f_id d) ;;
  if known then
    pid <- lift (as_str (f_id d)) ;;
    pname <- get_attr (T_TRANSACTIONS c) pid "name" ;;
    ret (false, pname)
  else import_new c d.

Definition import_mat_preset_data := import_preset_data Material.
Definition import_gn_preset_data := import_preset_data Geometry_Node.

End Presets.

(* ================================================================== *)
(** ** The archive wrapper [modify_in_zip] *)

Module Zip.

Section Wrapper.

(** What a file holds. [read_file_by_chunks] cuts the extracted file into
    the pieces that are written back, one [writestr] each. *)
Variable content : Type.
Variable read_file_by_chunks : content -> list content.

(** The directory of the archive: the archive itself, when there is one,
    as its entries in the order written, and the other files next to it. *)
Record disk : Type := {
  zip_file : option (list (string * content));
  extract_dir : list (string * content)
}.

(** The entry [ZipFile.extract] finds under a name: the last one written. *)
Fixpoint entry_named (entries : list (string * content)) (file_name : string)
  : option content :=
  match entries with
  | [] => None
  | (n, c) :: rest =>
      match entry_named rest file_name with
      | Some c' => Some c'
      | None => if String.eqb n file_name then Some c else None
      end
  end.

Definition remove_file (files : list (string * content)) (file_name : string)
  : list (string * content) :=
  filter (fun nc => negb (String.eqb (fst nc) file_name)) files.

(** [with ZipFile(zip_file, 'r') as zf: zf.extract(file_name, extract_dir)] *)
Definition extract (file_name : string) (d : disk) : disk * result unit :=
  match zip_file d with
  | None => (d, Raise OSError)
  | Some entries =>
      match entry_named entries file_name with
      | None => (d, Raise KeyError)
      | Some c =>
          ({| zip_file := zip_file d;
              extract_dir := Dict.set (extract_dir d) file_name c |}, Ok tt)
      end
  end.

(** [extract_file.unlink()] *)
Definition unlink (file_name : string) (d : disk) : disk * result unit :=
  if Dict.mem (extract_dir d) file_name then
    ({| zip_file := zip_file d;
        extract_dir := remove_file (extract_dir d) file_name |}, Ok tt)
  else (d, Raise OSError).

(** The mutation function runs on the extracted file and leaves it as it
    is when it returns or raises. *)
Definition run {R} (func : content -> content * result R)
  (file_name : string) (d : disk) : disk * result R :=
  match Dict.get (extract_dir d) file_name with
  | None => (d, Raise OSError)
  | Some c =>
      let (c', r) := func c in
      ({| zip_file := zip_file d;
          extract_dir := Dict.set (extract_dir d) file_name c' |}, r)
  end.

(** [with ZipFile(zip_file, 'w', ...) as zf: for chunk in ...:
    zf.writestr(file_name, chunk)]. Opening for writing starts a new, empty
    archive; [write_fault = Some k] is an I/O error at the write of chunk
    number [k], after which the archive holds the chunks written so far. *)
Definition recompress (file_name : string) (write_fault : option nat)
  (d : disk) : disk * result unit :=
  match Dict.get (extract_dir d) file_name with
  | None => ({| zip_file := Some []; extract_dir := extract_dir d |},
             Raise OSError)
  | Some c =>
      let chunks := read_file_by_chunks c in
      let entries k := map (fun ch => (file_name, ch)) (firstn k chunks) in
      match write_fault with
      | Some k =>
          if Nat.ltb k (List.length chunks) then
            ({| zip_file := Some (entries k); extract_dir := extract_dir d |},
             Raise OSError)
          else
            ({| zip_file := Some (entries (List.length chunks));
                extract_dir := extract_dir d |}, Ok tt)
      | None =>
          ({| zip_file := Some (entries (List.length chunks));
              extract_dir := extract_dir d |}, Ok tt)
      end
  end.

(** The [try] block of [modify_in_zip]. *)
Definition attempt {R} (file_name : string)
  (func : content -> content * result R) (write_fault : option nat)
  (d : disk) : disk * result R :=
  match extract file_name d with
  | (d1, Raise e) => (d1, Raise e)
  | (d1, Ok _) =>
      match run func file_name d1 with
      | (d2, Raise e) => (d2, Raise e)
      | (d2, Ok data) =>
          match recompress file_name write_fault d2 with
          | (d3, Raise e) => (d3, Raise e)
          | (d3, Ok _) =>
              match unlink file_name d3 with
              | (d4, Raise e) => (d4, Raise e)
              | (d4, Ok _) => (d4, Ok data)
              end
          end
      end
  end.

(** [modify_in_zip(zip_file, file_name, func, *args, **kwargs)]: the bare
    [except] removes the extracted file, ignoring a failure to do so, and
    the function then ends without a [return], which gives [None]. *)
Definition modify_in_zip {R} (file_name : string)
  (func : content -> content * result R) (write_fault : option nat)
  (d : disk) : disk * result (option R) :=
  match attempt file_name func write_fault d with
  | (d', Ok data) => (d', Ok (Some data))
  | (d', Raise _) => (fst (unlink file_name d'), Ok None)
  end.

End Wrapper.

Arguments zip_file {content} d.
Arguments extract_dir {content} d.

End Zip.

(* ------------------------------------------------------------------ *)
(** ** Reading from the archive: [get_from_zip] *)

(** [get_from_zip(zip_file, file_name, is_gen, func, *args, **kwargs)]:
    [func] runs on the entry [zf.open] finds under the name, the last one
    written; with [is_gen] the generator it returns is made a list inside
    the [try] block, so an exception of either kind ends in the bare
    [except], and the function then returns [None]. *)
Definition get_from_zip {content R : Type} (file_name : string)
  (func : content -> result R) (d : Zip.disk content) : option R :=
  match Zip.zip_file d with
  | None => None
  | Some entries =>
      match Zip.entry_named content entries file_name with
      | None => None
      | Some c =>
          match func c with
          | Ok r => Some r
          | Raise _ => None
          end
      end
  end.

(* ================================================================== *)
(** ** The save operators *)

Module Operators.
Import Graph H5 Presets Zip.

(** [is_string_blank] *)
Definition is_string_blank (text : string) : bool :=
  match search re_word text with
  | None => true
  | Some _ => false
  end.

(** [string_has_space] *)
Definition string_has_space (text : string) : bool :=
  match search re_space text with
  | None => false
  | Some _ => true
  end.

(** [string_startswith_space] *)
Definition string_startswith_space (text : string) : bool :=
  match search re_space text with
  | None => false
  | Some start => Nat.eqb start 0
  end.

(** What [execute] returns, and what it reports before returning. *)
Inductive status : Type := FINISHED | CANCELLED.

Inductive report : Type :=
| Name_missing            (* Preset name missing. *)
| Name_contains_spaces    (* Preset name contains spaces. *)
| Name_can_not_be_used    (* Preset name can not be used *)
| Node_tree_not_found
| Raised (e : exn)        (* the text of the exception caught *)
| Not_saved               (* the wrapper returned None *)
| Already_exists (pname : option string)
| Saved
| Stack_saved (success fail : list (option string)).

(** The preset archive on disk: [Presets.zip] holding [Presets.hfdb]. *)
Definition disk : Type := Zip.disk H5.file.
Definition preset_file : string := "Presets.hfdb".

(** The three checks every save operator makes on the proposed name
    before anything else is done with it. *)
Definition check_name (preset_name : string) : option report :=
  if is_string_blank preset_name then Some Name_missing
  else if (string_has_space preset_name
           || string_startswith_space preset_name)%bool
  then Some Name_contains_spaces
  else if String.eqb (upper preset_name) "NONE" then Some Name_can_not_be_used
  else None.

(** The shape the [execute] methods of the save operators share. [collect]
    stands for what the [try] block reads off the host before it calls the
    wrapper, [catches] for the exceptions the [except] clause names,
    [conclude] for what is made of the result. An exception that is not
    caught leaves [execute]. *)
Definition save_execute {A R}
  (chunks : H5.file -> list H5.file) (write_fault : option nat)
  (preset_name : string)
  (collect : result A) (catches : exn -> bool)
  (processing : A -> string -> H5.M R)
  (conclude : R -> report * status)
  (d : disk) : disk * result (report * status) :=
  match check_name preset_name with
  | Some r => (d, Ok (r, CANCELLED))
  | None =>
      match collect with
      | Raise e =>
          if catches e then (d, Ok (Raised e, CANCELLED)) else (d, Raise e)
      | Ok a =>
          match modify_in_zip H5.file chunks preset_file
                              (processing a preset_name) write_fault d with
          | (d', Raise e) =>
              if catches e then (d', Ok (Raised e, CANCELLED))
              else (d', Raise e)
          | (d', Ok None) => (d', Ok (Not_saved, CANCELLED))
          | (d', Ok (Some result)) => (d', Ok (conclude result))
          end
      end
  end.

Definition is_name_exists (e : exn) : bool :=
  match e with
  | NameExistsError _ => true
  | _ => false
  end.

Definition name_exists_or_type (e : exn) : bool :=
  match e with
  | NameExistsError _ | TypeError => true
  | _ => false
  end.

(** [preset_saved, pname = result] and the two reports that follow. *)
Definition saved_or_exists (result : bool * option string) : report * status :=
  if fst result then (Saved, FINISHED)
  else (Already_exists (snd result), CANCELLED).

Section Execute.

Variable chunks : H5.file -> list H5.file.
Variable write_fault : option nat.

(** [HAIRFACTORY_OT_save_mat.execute]; [user_] is [material.hf_user] once
    [get_mat_user] has run, an exception of which is [collect]'s. *)
Definition HAIRFACTORY_OT_save_mat (m : material) (hf_mat_preset_name : string)
  (user_ : result string) : disk -> disk * result (report * status) :=
  save_execute chunks write_fault hf_mat_preset_name user_ name_exists_or_type
    (fun user_ preset_name => material_preset_processing m preset_name user_)
    saved_or_exists.

(** [HAIRFACTORY_OT_save_node_group.execute] *)
Definition HAIRFACTORY_OT_save_node_group (active : modifier)
  (hf_node_group_preset_name : string) (user_ : result string)
  : disk -> disk * result (report * status) :=
  save_execute chunks write_fault hf_node_group_preset_name user_
    name_exists_or_type
    (fun user_ preset_name =>
       geometry_node_preset_processing (node_group active) active
                                       preset_name user_)
    saved_or_exists.

(** [HAIRFACTORY_OT_save_node.execute]: [source] is what
    [get_node_source_data] found for the node, [None] when it found no
    tree. *)
Definition HAIRFACTORY_OT_save_node (node_ : nat) (source : option node_tree)
  (hf_node_preset_name : string) : disk -> disk * result (report * status) :=
  fun d =>
    match source with
    | None => (d, Ok (Node_tree_not_found, CANCELLED))
    | Some g =>
        save_execute chunks write_fault hf_node_preset_name (Ok tt)
          is_name_exists
          (fun _ preset_name => node_preset_processing node_ g preset_name)
          saved_or_exists d
    end.

(** [HAIRFACTORY_OT_save_mod_stack.execute] *)
Definition HAIRFACTORY_OT_save_mod_stack (modifiers : list stack_modifier)
  (hf_mod_stack_preset_name : string) (hf_mod_stack_include : bool)
  : disk -> disk * result (report * status) :=
  save_execute chunks write_fault hf_mod_stack_preset_name (Ok tt)
    is_name_exists
    (fun _ preset_name =>
       modifier_stack_preset_processing modifiers preset_name
                                        hf_mod_stack_include)
    (fun r => (Stack_saved (fst r) (snd r), FINISHED)).

(** [HAIRFACTORY_OT_save_phy.execute]; [settings] is what
    [get_cloth_settings] or [get_soft_body_settings] returns. *)
Definition HAIRFACTORY_OT_save_phy (ptype : string) (settings : result dict)
  (hf_phy_preset_name : string) : disk -> disk * result (report * status) :=
  save_execute chunks write_fault hf_phy_preset_name settings is_name_exists
    (fun data preset_name => physics_preset_processing ptype data preset_name)
    saved_or_exists.

(** [HAIRFACTORY_OT_save_col.execute] *)
Definition HAIRFACTORY_OT_save_col (settings : result dict)
  (hf_col_preset_name : string) : disk -> disk * result (report * status) :=
  save_execute chunks write_fault hf_col_preset_name settings is_name_exists
    (fun data preset_name => collision_preset_processing data preset_name)
    saved_or_exists.

(** [HAIRFACTORY_OT_save_hair.execute]; [points] is what [get_hair_pts]
    returns. *)
Definition HAIRFACTORY_OT_save_hair (points : result dict)
  (hf_hair_preset_name : string) : disk -> disk * result (report * status) :=
  save_execute chunks write_fault hf_hair_preset_name points
    name_exists_or_type
    (fun data preset_name => hair_preset_processing data preset_name)
    saved_or_exists.

End Execute.

End Operators.

(* ================================================================== *)
(** ** The rename operators *)

Module Rename.
Import Graph H5 Presets Zip Operators.

(** [get_name_by_id(file, pfile, id_)] *)
Definition get_name_by_id (pfile : table) (id_ : string) (f : file)
  : result (option string) :=
  snd (get_attr pfile id_ "name" f).

(** [get_mat_preset_names(file)] *)
Definition get_mat_preset_names (f : file) : result (list (option string)) :=
  Ok (map (fun kd => Dict.get (attrs (snd kd)) "name")
          (TRANSACTIONS (MATERIALS f))).

(** [get_node_preset_names(file)] *)
Definition get_node_preset_names (f : file) : result (list (option string)) :=
  Ok (map (fun kd => Dict.get (attrs (snd kd)) "name") (NODES f)).

(** What a rename operator reports before it returns. *)
Inductive rename_report : Type :=
| Must_select              (* Must select preset name. *)
| New_name (r : report)    (* New name missing. / contains spaces. /
                              can not be used *)
| Already_used             (* New name {name} already used. ... *)
| Changed (prev_name : option (option string))
                           (* {prev_name} changed to {name} for ... *)
| Rename_raised (e : exn). (* the text of the exception caught *)

(** The shape the [execute] methods of
    [HAIRFACTORY_OT_rename_mat_preset] and
    [HAIRFACTORY_OT_rename_node_preset] share: [pfile] is the table that
    is renamed in, [names] the function that lists the names in use.
    [name in get_from_zip(...)] is outside the [try] block, and raises
    [TypeError] when [get_from_zip] returned [None]. [prev_name] is what
    [modify_in_zip] returned, [None] included. *)
Definition rename_execute
  (chunks : H5.file -> list H5.file) (write_fault : option nat)
  (pfile : table) (names : H5.file -> result (list (option string)))
  (id_ name : string) (d : disk) : disk * result (rename_report * status) :=
  if String.eqb id_ "None" then (d, Ok (Must_select, CANCELLED))
  else
    match check_name name with
    | Some r => (d, Ok (New_name r, CANCELLED))
    | None =>
        match get_from_zip preset_file names d with
        | None => (d, Raise TypeError)
        | Some used =>
            if name_in name used then (d, Ok (Already_used, CANCELLED))
            else
              match modify_in_zip H5.file chunks preset_file
                                  (change_preset_name pfile id_ name)
                                  write_fault d with
              | (d', Ok prev_name) => (d', Ok (Changed prev_name, FINISHED))
              | (d', Raise e) =>
                  if is_name_exists e
                  then (d', Ok (Rename_raised e, CANCELLED))
                  else (d', Raise e)
              end
        end
    end.

(** [HAIRFACTORY_OT_rename_mat_preset.execute], with [id_] the text of
    [material.hf_mat_presets] and [name] [material.hf_mat_preset_rename]. *)
Definition HAIRFACTORY_OT_rename_mat_preset
  (chunks : H5.file -> list H5.file) (write_fault : option nat)
  (id_ name : string) : disk -> disk * result (rename_report * status) :=
  rename_execute chunks write_fault (T_TRANSACTIONS Material)
                 get_mat_preset_names id_ name.

(** [HAIRFACTORY_OT_rename_node_preset.execute] *)
Definition HAIRFACTORY_OT_rename_node_preset
  (chunks : H5.file -> list H5.file) (write_fault : option nat)
  (id_ name : string) : disk -> disk * result (rename_report * status) :=
  rename_execute chunks write_fault T_NODES get_node_preset_names id_ name.

End Rename.

(* ================================================================== *)
(** * Notions the statements use *)

Import Graph H5 Presets Operators.

(* ------------------------------------------------------------------ *)
(** ** Names *)

(** The name a member of a table shows. *)
Definition display_name (g : group) (id_ : string) : option string :=
  match Dict.get g id_ with
  | Some d => Dict.get (attrs d) "name"
  | None => None
  end.

(** A proposed name the operators must not accept: it has no word
    character, or it has a white-space character, or it is ['NONE'] in
    some mix of cases. *)
Definition unusable (preset_name : string) : Prop :=
  (forall c, In c (list_ascii_of_string preset_name) -> re_word c = false)
  \/ (exists c, In c (list_ascii_of_string preset_name) /\ re_space c = true)
  \/ upper preset_name = "NONE".

(** The reports of the three checks on a proposed name. *)
Definition name_error (r : report) : Prop :=
  r = Name_missing \/ r = Name_contains_spaces \/ r = Name_can_not_be_used.

(** The operator cancelled with an error report and left the disk alone. *)
Definition cancelled (d : disk) (out : disk * result (report * status))
  : Prop :=
  exists r, out = (d, Ok (r, CANCELLED))
            /\ (name_error r \/ r = Node_tree_not_found).

(** The series number an existing display name [n] carries in the series
    of [name]: the number after the first dot of [n], when [n] has the
    base of [name]. *)
Definition series_of (name n : string) : option Z :=
  if String.eqb n EmptyString then None
  else match Py.split "." n with
       | b :: second :: _ =>
           if String.eqb b (base_name name) then Py.int second else None
       | _ => None
       end.

(* ------------------------------------------------------------------ *)
(** ** Values that hash alike *)

(** Two values are written alike by [json.dumps(..., sort_keys=True)]:
    they are equal, or both are a list or a tuple whose elements are
    written alike, one by one, or both are dicts with the same keys, in
    any order, whose values are written alike. An array is not written at
    all, whatever holds it. *)
Fixpoint writes_alike (v w : value) {struct v} : Prop :=
  match v, w with
  | (VList xs | VTuple xs), (VList ys | VTuple ys) =>
      (fix all2 (l l' : list value) {struct l} : Prop :=
         match l, l' with
         | [], [] => True
         | x :: r, y :: r' => writes_alike x y /\ all2 r r'
         | _, _ => False
         end) xs ys
  | VDict kvs, VDict kws =>
      NoDup (Dict.keys kvs) /\ NoDup (Dict.keys kws)
      /\ List.length kvs = List.length kws
      /\ (fix each (l : list (string * value)) : Prop :=
            match l with
            | [] => True
            | kv :: r =>
                (exists w', In (fst kv, w') kws
                            /\ writes_alike (snd kv) w')
                /\ each r
            end) kvs
  | _, _ => v = w
  end.

(** Two values of a dict, or of a dict nested in it, hash alike: they are
    equal, or both are a list, a tuple or an array whose elements are
    written alike, one by one, or both are dicts with the same keys, in
    any order, whose values hash alike. *)
Fixpoint hashes_alike (v w : value) {struct v} : Prop :=
  match v, w with
  | VDict kvs, VDict kws =>
      NoDup (Dict.keys kvs) /\ NoDup (Dict.keys kws)
      /\ List.length kvs = List.length kws
      /\ (fix each (l : list (string * value)) : Prop :=
            match l with
            | [] => True
            | kv :: r =>
                (exists w', In (fst kv, w') kws
                            /\ hashes_alike (snd kv) w')
                /\ each r
            end) kvs
  | (VList xs | VTuple xs | VArray xs), (VList ys | VTuple ys | VArray ys) =>
      Forall2 writes_alike xs ys
  | _, _ => v = w
  end.

(* ------------------------------------------------------------------ *)
(** ** The topology of a graph *)

(** A node that is not a special node has no data of a special kind. *)
Definition no_data : string -> result dict := fun _ => Raise AttributeError.






(* ------------------------------------------------------------------ *)
(** ** The snapshot of the values of a graph *)


(* ------------------------------------------------------------------ *)
(** ** The file before and after a piece of code *)

(** What a piece of code leaves alone: every table outside [touched], and
    the datasets of node ids unless [kind] is set. *)
Definition frame (touched : table -> Prop) (kind : bool) (f f' : file)
  : Prop :=
  (forall t, ~ touched t -> open_table t f' = open_table t f)
  /\ (kind = false -> KIND f' = KIND f).

Definition touches {A} (touched : table -> Prop) (kind : bool) (m : M A)
  : Prop :=
  forall f, frame touched kind f (fst (m f)).

(** The members of a table; a table of physics presets that is not there
    has none. *)
Definition members (t : table) (f : file) : group :=
  match open_table t f with
  | Ok g => g
  | Raise _ => []
  end.

(** Every table but the transactions of the class. *)
Definition but_transactions (c : classification) (t : table) : Prop :=
  t <> T_TRANSACTIONS c.

(* ------------------------------------------------------------------ *)
(** ** What a save leaves in the file *)

(** The record of a graph as the step under [# INFO] creates it. *)
Definition info_record (s : subject) (user_ : string) : dataset :=
  {| attrs := [("name", base_name (name_of s));
               ("class", classification_name (class_of s));
               ("user", user_)];
     data := classification_value (node_type_dict (tree_of s) (class_of s)) |}.

(** The id of the record of one special node: the hash of its data. *)
Definition node_id (g : node_tree) (func : node -> result dict) (node : value)
  : result string :=
  rbind (node_at g node) (fun n => rbind (func n) hash_dict).

(** [node_ids] as the loop over the kinds builds it, without the file. *)
Fixpoint kinds_ids (g : node_tree) (ntd : list (string * list value))
  (node_ids : list (string * list string))
  : result (list (string * list string)) :=
  match ntd with
  | [] => Ok node_ids
  | (node_type, nodes) :: rest =>
      rbind (get_nodes_func_dict node_type) (fun func =>
      rbind (rmap (node_id g func) nodes) (fun nis =>
      kinds_ids g rest (Dict.set node_ids node_type nis)))
  end.

(** A node record that is in the file and in the array of its kind. *)
Definition node_known (f : file) (node_type nid : string) : Prop :=
  Dict.mem (NODES f) nid = true
  /\ exists l, Dict.get (KIND f) node_type = Some l /\ mem_string nid l = true.

Definition kind_known (f : file) (g : node_tree)
  (kn : string * list value) : Prop :=
  (exists l, Dict.get (KIND f) (fst kn) = Some l)
  /\ forall func nids,
      get_nodes_func_dict (fst kn) = Ok func ->
      rmap (node_id g func) (snd kn) = Ok nids ->
      Forall (node_known f (fst kn)) nids.

(** The node records and the arrays of ids only grow. *)
Definition grows (f f' : file) : Prop :=
  (forall k, Dict.mem (NODES f) k = true -> Dict.mem (NODES f') k = true)
  /\ (forall kt l, Dict.get (KIND f) kt = Some l ->
        exists l', Dict.get (KIND f') kt = Some l'
                   /\ forall x, mem_string x l = true -> mem_string x l' = true).

(** The preset id and the values id are listed under the graph id. *)
Definition linked (c : classification) (mat_id pid values_id : string)
  (f : file) : Prop :=
  exists pf pv,
    Dict.get (members (T_FULL c) f) mat_id = Some pf
    /\ mem_string pid (ids_of (data pf)) = true
    /\ Dict.get (members (T_VALUES c) f) mat_id = Some pv
    /\ mem_string values_id (ids_of (data pv)) = true.

(** Every record a save of [s] writes is in [f], under the preset id
    [pid], whose transaction shows the name [pname]. *)
Definition saved_in (s : subject) (f : file) (pid : string)
  (pname : option string) : Prop :=
  let c := class_of s in
  exists mat_id nv dinfo ntd node_ids ni_id dtrans,
    graph_id (tree_of s) = Ok mat_id
    /\ values_of s = Ok nv
    /\ Dict.get (members (T_INFO c) f) mat_id = Some dinfo
    /\ Dict.mem (members (T_DATA c) f) (snd nv) = true
    /\ kinds_of (data dinfo) = Ok ntd
    /\ kinds_ids (tree_of s) ntd [] = Ok node_ids
    /\ Forall (kind_known f (tree_of s)) ntd
    /\ hash_dict (node_ids_dict node_ids) = Ok ni_id
    /\ Dict.mem (NODE_STACK f) ni_id = true
    /\ hash_list [VStr mat_id; VStr (snd nv); VStr ni_id] = Ok pid
    /\ Dict.get (members (T_TRANSACTIONS c) f) pid = Some dtrans
    /\ Dict.get (attrs dtrans) "name" = pname
    /\ linked c mat_id pid (snd nv) f.

(** The steps of a save that succeeds, with the file between them. *)
Inductive steps (policy : on_collision) (s : subject)
  (preset_name user_ : string) (f f' : file) (b : bool)
  (pname : option string) (pid : string) : Prop :=
| Steps (name mat_id : string) (nv : value * string) (ntd_ : value)
    (ntd : list (string * list value))
    (node_ids : list (string * list string)) (ni_id : string)
    (f1 f2 f3 f4 f5 : file)
    (st_check :
       check_preset_name policy (class_of s) preset_name f = (f, Ok name))
    (st_graph : graph_id (tree_of s) = Ok mat_id)
    (st_values : values_of s = Ok nv)
    (st_info : save_info s mat_id user_ f = (f1, Ok ntd_))
    (st_data :
       save_data (class_of s) (snd nv) (fst nv) name f1 = (f2, Ok tt))
    (st_kinds_of : kinds_of ntd_ = Ok ntd)
    (st_kinds : save_kinds (tree_of s) ntd [] f2 = (f3, Ok node_ids))
    (st_stack : save_node_stack node_ids f3 = (f4, Ok ni_id))
    (st_trans :
       save_transaction (class_of s) mat_id (snd nv) ni_id name f4
       = (f5, Ok (pid, pname)))
    (st_links :
       link_preset (class_of s) mat_id pid (snd nv) f5 = (f', Ok b)).

(** The two savers of presets, as one function of what is saved. *)
Definition preset_processing (s : subject) (preset_name user_ : string)
  : M (bool * option string) :=
  match s with
  | Of_material m => material_preset_processing m preset_name user_
  | Of_node_group g active =>
      geometry_node_preset_processing g active preset_name user_
  end.

(** [name] is the display name of a transaction of the class of [s]. *)
Definition taken (s : subject) (name : string) (f : file) : bool :=
  name_in name (get_names (members (T_TRANSACTIONS (class_of s)) f)).

(* ------------------------------------------------------------------ *)
(** ** Series numbers and distinct names *)

(** The value of a decimal numeral read from the left, after [acc]. *)
Fixpoint horner (u : Decimal.uint) (acc : Z) : Z :=
  match u with
  | Decimal.Nil => acc
  | Decimal.D0 l => horner l (acc * 10 + 0)
  | Decimal.D1 l => horner l (acc * 10 + 1)
  | Decimal.D2 l => horner l (acc * 10 + 2)
  | Decimal.D3 l => horner l (acc * 10 + 3)
  | Decimal.D4 l => horner l (acc * 10 + 4)
  | Decimal.D5 l => horner l (acc * 10 + 5)
  | Decimal.D6 l => horner l (acc * 10 + 6)
  | Decimal.D7 l => horner l (acc * 10 + 7)
  | Decimal.D8 l => horner l (acc * 10 + 8)
  | Decimal.D9 l => horner l (acc * 10 + 9)
  end.

(** A string without the character [c]. *)
Fixpoint without (c : ascii) (s : string) : bool :=
  match s with
  | EmptyString => true
  | String x r => (negb (Ascii.eqb x c) && without c r)%bool
  end.

(** A string of decimal digits. *)
Fixpoint all_digits (s : string) : bool :=
  match s with
  | EmptyString => true
  | String x r => (is_digit x && all_digits r)%bool
  end.

(** The names the records of a table show, in the order of the records;
    a record without a name shows none. *)
Definition shown (names : list (option string)) : list string :=
  flat_map (fun o => match o with Some n => [n] | None => [] end) names.

(** No two records of the group show the same name. *)
Definition names_distinct (g : group) : Prop := NoDup (shown (get_names g)).

(* ------------------------------------------------------------------ *)
(** ** The archive after a save *)

(** The archive [d'] is [d] rewritten by a run of [processing] on the preset
    file of [d] that returned [res]: it holds the pieces of the file the run
    left, and the extracted file is gone. *)
Definition written {R} (chunks : file -> list file) (processing : H5.M R)
  (res : R) (d d' : disk) : Prop :=
  exists entries c c',
    Zip.zip_file d = Some entries
    /\ Zip.entry_named file entries preset_file = Some c
    /\ processing c = (c', Ok res)
    /\ Zip.zip_file d'
       = Some (map (fun ch => (preset_file, ch)) (chunks c'))
    /\ Zip.extract_dir d'
       = Zip.remove_file file (Zip.extract_dir d) preset_file.

(* ------------------------------------------------------------------ *)
(** ** Stacks of modifiers and paths of indices *)

(** The modifiers a stack preset is made of: the nodes modifiers, without
    those of a group named [Surface Deform] unless they are asked for. *)
Definition layers (modifiers : list stack_modifier)
  (include_surface_deform : bool) : list stack_modifier :=
  filter (fun md =>
            (String.eqb (mod_type md) "NODES"
             && (include_surface_deform
                 || negb (String.eqb
                            (base_name (tree_name (node_group (mod_nodes md))))
                            "Surface Deform")))%bool) modifiers.

(** [pid] is a preset of a node group. *)
Definition is_transaction (f : file) (pid : string) : Prop :=
  Dict.mem (members (T_TRANSACTIONS Geometry_Node) f) pid = true.

(** The node a path of indices leads to from a node: [.node_tree.nodes[i]]
    for every index, which only a node of type ['GROUP'] has. *)
Fixpoint follow (n : node) (q : list nat) : option node :=
  match q with
  | [] => Some n
  | i :: rest =>
      if is_group n then
        match nth_error (group_nodes n) i with
        | Some m => follow m rest
        | None => None
        end
      else None
  end.

(** The node a path of indices denotes in a tree: [nodes[i0]], then
    [.node_tree.nodes[i]] for the indices that follow. *)
Definition node_by_index (l : list node) (p : list nat) : option node :=
  match p with
  | [] => None
  | i :: rest =>
      match nth_error l i with
      | Some n => follow n rest
      | None => None
      end
  end.

(** The paths [get_node_structure_list] lists for a node are the paths from
    it to a node of the type. *)
Definition listed_from (ntype : string) (n : node) : Prop :=
  forall data p,
    In p (structure_node ntype data n)
    <-> exists q m, p = data ++ q /\ follow n q = Some m /\ type m = ntype.

(* ------------------------------------------------------------------ *)
(** ** A store addressed by content *)

(** The id the store gives a payload: [hash_dict] of a dict, [hash_list]
    of a sequence. *)
Definition content_id (v : value) : result string :=
  match v with
  | VDict kvs => hash_dict kvs
  | VList xs | VTuple xs => hash_list xs
  | _ => Raise TypeError
  end.

(** The tables whose members are stored under the id of their payload. *)
Definition content_table (t : table) : bool :=
  match t with
  | T_NODES | T_NODE_STACK | T_MODIFIER_STACK => true
  | T_DATA _ | T_TRANSACTIONS _ | T_PHYSICS _ => true
  | _ => false
  end.

(** Every member of such a table is stored under the id of its payload. *)
Definition addressed (f : file) : Prop :=
  forall t id_ d,
    content_table t = true ->
    Dict.get (members t f) id_ = Some d ->
    content_id (data d) = Ok id_.

(** A piece of code keeps a property of the file, whether it returns or
    raises. *)
Definition keeps {A} (I : file -> Prop) (m : M A) : Prop :=
  forall f, I f -> I (fst (m f)).

(** What is read back is written as the same text, with or without the
    conversion the hasher makes first. *)
Definition reads_back (v : value) : Prop :=
  forall w,
    Json.reload v = Ok w ->
    forall b,
      Json.dumps b w = Json.dumps b v
      /\ Json.dumps b (immutable_value w) = Json.dumps b v
      /\ Json.dumps b (immutable_value v) = Json.dumps b v.

(* ------------------------------------------------------------------ *)
(** ** A material and a node group to run the code on *)

Module Sample.

Definition ramp_data (factor : string) : string -> result dict :=
  fun kind =>
    if String.eqb kind "VALTORGB" then
      Ok [("color", VList [VList [VFloat "0.0"; VFloat "0.0"; VFloat "0.0";
                                  VFloat "1.0"]]);
          ("position", VList [VFloat "0.0"]);
          ("color_mode", VStr "RGB");
          ("interpolation", VStr "LINEAR");
          ("factor", VFloat factor)]
    else Raise AttributeError.

(** A principled shader fed by a color ramp, with the given roughness. *)
Definition skin (first_uid : nat) (roughness : string) : material :=
  let bsdf :=
    Node first_uid "Principled BSDF" "BSDF_PRINCIPLED"
         [("distribution", VStr "GGX"); ("name", VStr "Principled BSDF")]
         [{| sock_name := "Base Color"; sock_linked := true;
             sock_default := Some (VVector [VFloat "0.8"; VFloat "0.8";
                                            VFloat "0.8"; VFloat "1.0"]) |};
          {| sock_name := "Roughness"; sock_linked := false;
             sock_default := Some (VFloat roughness) |}]
         no_data [] [] in
  let ramp :=
    Node (first_uid + 1) "Color Ramp" "VALTORGB" [] [] (ramp_data "0.5") [] [] in
  let out :=
    Node (first_uid + 2) "Material Output" "OUTPUT_MATERIAL" [] [] no_data
         [] [] in
  {| mat_name := "Skin.001";
     mat_node_tree :=
       {| tree_name := "Shader Nodetree";
          nodes := [bsdf; ramp; out];
          links := [(first_uid + 1, first_uid); (first_uid, first_uid + 2)];
          interface := None |} |}.

(** The same shader without the ramp: no special node. *)
Definition plain (roughness : string) : material :=
  {| mat_name := "Plain";
     mat_node_tree :=
       {| tree_name := "Shader Nodetree";
          nodes :=
            [Node 1 "Principled BSDF" "BSDF_PRINCIPLED" []
                  [{| sock_name := "Roughness"; sock_linked := false;
                      sock_default := Some (VFloat roughness) |}]
                  no_data [] [];
             Node 2 "Material Output" "OUTPUT_MATERIAL" [] [] no_data [] []];
          links := [(1, 2)];
          interface := None |} |}.

(** The file after [skin 1 "0.5"] was saved as [Red_Skin] in a new file. *)
Definition saved : file * result (bool * option string) :=
  material_preset_processing (skin 1 "0.5") "Red_Skin" "USER"
                             create_preset_files.

Definition curve_data (value : string) : string -> result dict :=
  fun kind =>
    if String.eqb kind "CURVE_FLOAT" then
      Ok [("location", VList [VList [VFloat "0.0"; VFloat "0.0"];
                              VList [VFloat "1.0"; VFloat "1.0"]]);
          ("handle_type", VList [VStr "AUTO"; VStr "AUTO"]);
          ("use_clip", VBool true);
          ("factor", VFloat "1.0");
          ("value", VFloat value)]
    else Raise AttributeError.

(** A modifier whose node group shapes curls with a float curve. *)
Definition curls (density : string) : modifier :=
  {| node_group :=
       {| tree_name := "Curls";
          nodes :=
            [Node 10 "Group Input" "GROUP_INPUT" [] [] no_data [] [];
             Node 11 "Float Curve" "CURVE_FLOAT" [] [] (curve_data "0.5") [] [];
             Node 12 "Group Output" "GROUP_OUTPUT" [] [] no_data [] []];
          links := [(10, 11); (11, 12)];
          interface :=
            Some [{| item_name := "Geometry";
                     socket_type := Some "NodeSocketGeometry";
                     identifier := Some "Socket_0" |};
                  {| item_name := "Density";
                     socket_type := Some "NodeSocketFloat";
                     identifier := Some "Socket_1" |}] |};
     properties := [("Socket_1", VFloat density)] |}.

Definition cloth : dict := [("quality", VInt 5); ("mass", VFloat "0.3")].
Definition collision : dict :=
  [("absorption", VFloat "0.0"); ("damping", VFloat "0.1")].
Definition strands : dict :=
  [("points", VArray [VList [VFloat "0.0"; VFloat "0.0"; VFloat "0.0"];
                      VList [VFloat "0.0"; VFloat "0.0"; VFloat "1.0"]]);
   ("sizes", VArray [VFloat "2.0"])].

(** A file that holds one preset of every kind, each named [Taken]. *)
Definition stocked : file :=
  let f := create_preset_files in
  let f := fst (material_preset_processing (skin 1 "0.5") "Taken" "USER" f) in
  let f := fst (geometry_node_preset_processing
                  (node_group (curls "2.5")) (curls "2.5") "Taken" "USER" f) in
  let f := fst (physics_preset_processing "CLOTH" cloth "Taken" f) in
  let f := fst (collision_preset_processing collision "Taken" f) in
  fst (hair_preset_processing strands "Taken" f).

(** Two materials of the same topology, saved one after the other. *)
Definition red_skin : subject := Of_material (skin 1 "0.5").
Definition pale_skin : subject := Of_material (skin 10 "0.7").
Definition red_saved : file :=
  fst (graph_processing Refuse red_skin "Red_Skin" "USER" create_preset_files).
Definition both_saved : file :=
  fst (graph_processing Refuse pale_skin "Pale_Skin" "USER" red_saved).

(** The preset of the material without special nodes, the document it is
    exported to, and a new file the document was imported into. *)
Definition plain_saved : file :=
  fst (material_preset_processing (plain "0.5") "Plain_Skin" "USER"
                                  create_preset_files).
Definition plain_id : string :=
  "eb7435709e65b67968b1428cdad4f9f4884bef2ff481aa8b08d4f1f7a74c9d4c".
Definition plain_document : value := Eval vm_compute in
    match snd (export_mat_preset_data_by_preset_id plain_id plain_saved) with
    | Ok doc => doc
    | Raise _ => VNone
    end.
Definition plain_imported : file :=
  fst (import_mat_preset_data plain_document create_preset_files).

(** The same for the preset [Red_Skin], which has a color ramp. *)
Definition red_id : string :=
  "c96324399341599e8940280463ae1aef1a1f5d62383ed4563af97d9458f7f159".
Definition red_document : value := Eval vm_compute in
    match snd (export_mat_preset_data_by_preset_id red_id (fst saved)) with
    | Ok doc => doc
    | Raise _ => VNone
    end.

End Sample.

(** The archive next to an empty directory, holding the file in which
    [Red_Skin] is saved; a file of this size is read back in one chunk. *)
Definition sample_disk : Operators.disk :=
  {| Zip.zip_file := Some [("Presets.hfdb", fst Sample.saved)];
     Zip.extract_dir := [] |}.

Definition one_chunk (f : file) : list file := [f].

(** Two values records both suggested as [Foo]: the material is saved as
    [Foo], its preset is renamed to [Bar], and the material with another
    roughness is saved as [Foo] again. *)
Definition foo_renamed : file :=
  let f := fst (material_preset_processing (Sample.skin 1 "0.5") "Foo" "USER"
                                           create_preset_files) in
  fst (change_preset_name (T_TRANSACTIONS Material)
         "c96324399341599e8940280463ae1aef1a1f5d62383ed4563af97d9458f7f159"
         "Bar" f).

(** A file with two presets of materials, [Oak] and [Pine], and the node
    preset [Gold], and the archive that holds it. *)
Definition shelf : file :=
  with_table T_NODES
    [("n1", {| attrs := [("name", "Gold"); ("type", "VALTORGB")];
               data := VDict [("factor", VFloat "0.5")] |})]
    (with_table (T_TRANSACTIONS Material)
       [("a1", {| attrs := [("name", "Oak")];
                  data := ids_value ["m1"; "v1"; "s1"] |});
        ("b2", {| attrs := [("name", "Pine")];
                  data := ids_value ["m1"; "v2"; "s1"] |})]
       create_preset_files).

Definition shelf_disk : Operators.disk :=
  {| Zip.zip_file := Some [("Presets.hfdb", shelf)];
     Zip.extract_dir := [] |}.

(** The object whose only modifier is [curls]. *)
Definition curly : list stack_modifier :=
  [{| mod_type := "NODES"; mod_nodes := Sample.curls "2.5";
      hf_user := "USER" |}].





(* ================================================================== *)
(** * Properties *)

Import Graph H5 Presets.

(* ------------------------------------------------------------------ *)
(** ** Dicts and tables *)

Section DictFacts.

Context {A : Type}.
Implicit Types (d : list (string * A)) (k : string) (v : A).

Lemma dict_get_set_same d k v : Dict.get (Dict.set d k v) k = Some v.
Proof.
  induction d as [|[k' v'] t IH]; simpl.
  - now rewrite String.eqb_refl.
  - destruct (String.eqb k' k) eqn:E; simpl; rewrite E; auto.
Qed.

Lemma dict_get_set_other d k k' v :
  k <> k' -> Dict.get (Dict.set d k v) k' = Dict.get d k'.
Proof.
  intros Hne. induction d as [|[k0 v0] t IH]; simpl.
  - destruct (String.eqb k k') eqn:E; auto.
    apply String.eqb_eq in E. contradiction.
  - destruct (String.eqb k0 k) eqn:E; simpl.
    + apply String.eqb_eq in E. subst k0.
      destruct (String.eqb k k') eqn:E'; auto.
      apply String.eqb_eq in E'. contradiction.
    + now rewrite IH.
Qed.

Lemma dict_set_same d k v : Dict.get d k = Some v -> Dict.set d k v = d.
Proof.
  induction d as [|[k' v'] t IH]; simpl; [discriminate|].
  destruct (String.eqb k' k) eqn:E; intros H.
  - now inversion H.
  - now rewrite IH.
Qed.

Lemma dict_get_app d k k' v :
  Dict.get (d ++ [(k, v)]) k' =
  match Dict.get d k' with
  | Some x => Some x
  | None => if String.eqb k k' then Some v else None
  end.
Proof.
  induction d as [|[k0 v0] t IH]; simpl; auto.
  destruct (String.eqb k0 k'); auto.
Qed.

Lemma dict_mem_get d k : Dict.mem d k = true <-> exists v, Dict.get d k = Some v.
Proof.
  unfold Dict.mem. destruct (Dict.get d k); split; intros H; eauto.
  - discriminate.
  - now destruct H.
Qed.

Lemma dict_mem_false d k : Dict.mem d k = false <-> Dict.get d k = None.
Proof.
  unfold Dict.mem. destruct (Dict.get d k); split; intros H; auto; discriminate.
Qed.

Lemma dict_keys_set d k v :
  Dict.mem d k = true -> Dict.keys (Dict.set d k v) = Dict.keys d.
Proof.
  unfold Dict.mem, Dict.keys.
  induction d as [|[k' v'] t IH]; simpl; [discriminate|].
  destruct (String.eqb k' k) eqn:E; simpl; auto.
  intros H. now rewrite IH.
Qed.

End DictFacts.

Lemma table_eq_dec (t t' : table) : {t = t'} + {t <> t'}.
Proof.
  decide equality; try apply String.string_dec;
    decide equality.
Qed.

Lemma open_with_table_same t g f : open_table t (with_table t g f) = Ok g.
Proof.
  destruct t as [[]|[]|[]|[]|[]| | | |p| |]; simpl; auto.
  unfold Dict.item. now rewrite dict_get_set_same.
Qed.

Lemma open_with_table_other t t' g f :
  t <> t' -> open_table t (with_table t' g f) = open_table t f.
Proof.
  intros Hne.
  destruct t as [[]|[]|[]|[]|[]| | | |p| |],
           t' as [[]|[]|[]|[]|[]| | | |p'| |];
    simpl; auto; try congruence.
  unfold Dict.item. rewrite dict_get_set_other; auto. congruence.
Qed.

Lemma with_table_same t g f : open_table t f = Ok g -> with_table t g f = f.
Proof.
  destruct f as [[] [] ? ? ? ? ? ? ?].
  destruct t as [[]|[]|[]|[]|[]| | | |p| |]; simpl; intros H;
    try (inversion H; subst; reflexivity).
  unfold Dict.item in H. destruct (Dict.get PHYSICS0 p) eqn:E; inversion H.
  subst. now rewrite dict_set_same.
Qed.

Lemma kind_with_table t g f : KIND (with_table t g f) = KIND f.
Proof. destruct t as [[]|[]|[]|[]|[]| | | |p| |]; reflexivity. Qed.

Lemma open_with_kind t k f : open_table t (with_kind k f) = open_table t f.
Proof. destruct t as [[]|[]|[]|[]|[]| | | |p| |]; reflexivity. Qed.

(** Unfolds the monad and the table accessors of a goal. *)
Ltac run_m :=
  cbv beta iota delta
    [bind ret raise lift read write names_of table_of has_key dataset_of
     get_attr set_attr create_dataset append_id kind_ids kind_append].

(* ------------------------------------------------------------------ *)
(** ** C2: a top-level name that is taken *)

Lemma check_refuses c preset_name f :
  name_in preset_name (get_names (TRANSACTIONS (type_file_of c f))) = true ->
  check_preset_name Refuse c preset_name f = (f, Raise (name_exists preset_name)).
Proof.
  intros H. unfold check_preset_name. run_m.
  simpl. now rewrite H.
Qed.

Lemma graph_processing_refuses s preset_name user_ f :
  name_in preset_name
          (get_names (TRANSACTIONS (type_file_of (class_of s) f))) = true ->
  graph_processing Refuse s preset_name user_ f
  = (f, Raise (name_exists preset_name)).
Proof.
  intros H. unfold graph_processing, bind.
  now rewrite check_refuses.
Qed.

Lemma settings_processing_refuses t g data preset_name f :
  open_table t f = Ok g ->
  name_in preset_name (get_names g) = true ->
  settings_preset_processing t data preset_name f
  = (f, Raise (name_exists preset_name)).
Proof.
  intros Ht H.
  unfold settings_preset_processing. run_m.
  rewrite Ht. now rewrite H.
Qed.

(** C2. A material, geometry-node, physics, collision or hair save whose
    proposed name is already the display name of a record of the
    corresponding table raises [NameExistsError] and leaves the file as it
    was. *)
Theorem C2_taken_name_is_refused (f : file) (preset_name : string) :
  (forall m user_,
      name_in preset_name (get_names (TRANSACTIONS (MATERIALS f))) = true ->
      material_preset_processing m preset_name user_ f
      = (f, Raise (name_exists preset_name)))
  /\ (forall node_group active user_,
      name_in preset_name (get_names (TRANSACTIONS (GEOMETRY_NODES f))) = true ->
      geometry_node_preset_processing node_group active preset_name user_ f
      = (f, Raise (name_exists preset_name)))
  /\ (forall ptype g data,
      Dict.get (PHYSICS f) ptype = Some g ->
      name_in preset_name (get_names g) = true ->
      physics_preset_processing ptype data preset_name f
      = (f, Raise (name_exists preset_name)))
  /\ (forall g data,
      Dict.get (PHYSICS f) "COLLISION" = Some g ->
      name_in preset_name (get_names g) = true ->
      collision_preset_processing data preset_name f
      = (f, Raise (name_exists preset_name)))
  /\ (forall data,
      name_in preset_name (get_names (HAIR_POINTS f)) = true ->
      hair_preset_processing data preset_name f
      = (f, Raise (name_exists preset_name))).
Proof.
  repeat split.
  - intros m user_ H. unfold material_preset_processing, bind.
    now rewrite graph_processing_refuses.
  - intros g active user_ H. unfold geometry_node_preset_processing, bind.
    now rewrite graph_processing_refuses.
  - intros ptype g data Hg H.
    apply settings_processing_refuses with (g := g); auto.
    simpl. unfold Dict.item. now rewrite Hg.
  - intros g data Hg H.
    apply settings_processing_refuses with (g := g); auto.
    simpl. unfold Dict.item. now rewrite Hg.
  - intros data H.
    unfold hair_preset_processing. run_m.
    simpl. now rewrite H.
Qed.

(* ------------------------------------------------------------------ *)
(** ** C8: renaming a record *)

(** C8. Renaming a record of a table to a name that is already a display
    name of the table raises [NameExistsError] and leaves the file as it
    was; otherwise the previous name is returned, the record shows the new
    name, and every other record of the table is as before. *)
Theorem C8_rename (pfile : table) (f : file) (g : group) (id_ name : string) :
  open_table pfile f = Ok g ->
  (name_in name (get_names g) = true ->
   exists message,
     change_preset_name pfile id_ name f = (f, Raise (NameExistsError message)))
  /\ (name_in name (get_names g) = false ->
      forall d, Dict.get g id_ = Some d ->
      exists f' g',
        change_preset_name pfile id_ name f
        = (f', Ok (Dict.get (attrs d) "name"))
        /\ open_table pfile f' = Ok g'
        /\ display_name g' id_ = Some name
        /\ (forall other, other <> id_ -> Dict.get g' other = Dict.get g other)
        /\ (forall t, t <> pfile -> open_table t f' = open_table t f)
        /\ KIND f' = KIND f).
Proof.
  intros Ht. split.
  - intros H. eexists.
    unfold change_preset_name. run_m.
    rewrite Ht, H. reflexivity.
  - intros H d Hd.
    exists (with_table pfile
              (Dict.set g id_ {| attrs := Dict.set (attrs d) "name" name;
                                 data := data d |}) f).
    exists (Dict.set g id_ {| attrs := Dict.set (attrs d) "name" name;
                              data := data d |}).
    repeat split.
    + unfold change_preset_name. run_m.
      rewrite Ht, H. cbv beta iota. rewrite Ht. unfold Dict.item.
      rewrite Hd. simpl. rewrite Ht, Hd. reflexivity.
    + apply open_with_table_same.
    + unfold display_name. rewrite dict_get_set_same. simpl.
      apply dict_get_set_same.
    + intros other Hne. apply dict_get_set_other. congruence.
    + intros t Hne. now apply open_with_table_other.
    + apply kind_with_table.
Qed.

(* ------------------------------------------------------------------ *)
(** ** C10: the checks on a proposed preset name *)

Import Operators.

Lemma search_none cls text :
  search cls text = None <->
  forall c, In c (list_ascii_of_string text) -> cls c = false.
Proof.
  induction text as [|a r IH]; simpl.
  - split; [intros _ c []|reflexivity].
  - destruct (cls a) eqn:E.
    + split; [discriminate|]. intros H. rewrite H in E; [discriminate|auto].
    + destruct (search cls r) eqn:S; simpl.
      * split; [discriminate|]. intros H.
        assert (Some n = None) as X by (apply IH; auto). discriminate.
      * split; [|reflexivity]. intros _ c [<-|Hc]; auto.
        destruct IH as [IH _]. auto.
Qed.

Lemma search_some cls text :
  (exists c, In c (list_ascii_of_string text) /\ cls c = true) ->
  exists n, search cls text = Some n.
Proof.
  intros [c [Hin Hc]].
  destruct (search cls text) eqn:S; eauto.
  rewrite search_none in S. rewrite S in Hc; [discriminate|auto].
Qed.

Lemma check_name_unusable preset_name :
  unusable preset_name ->
  exists r, check_name preset_name = Some r /\ name_error r.
Proof.
  unfold check_name, name_error, is_string_blank, string_has_space.
  intros [H|[H|H]].
  - apply search_none in H. rewrite H. eauto.
  - apply search_some in H. destruct H as [n H]. rewrite H.
    destruct (search re_word preset_name); simpl; eauto.
  - rewrite H. simpl.
    destruct (search re_word preset_name); eauto.
    destruct (search re_space preset_name); simpl; eauto.
    destruct (string_startswith_space preset_name); eauto.
Qed.

Lemma save_execute_unusable {A R} chunks write_fault preset_name
  (collect : result A) catches (processing : A -> string -> H5.M R)
  conclude d :
  unusable preset_name ->
  cancelled d (save_execute chunks write_fault preset_name collect catches
                            processing conclude d).
Proof.
  intros H. destruct (check_name_unusable _ H) as [r [Hr He]].
  exists r. unfold save_execute. rewrite Hr. auto.
Qed.

(** C10. Every save operator, given a proposed name that has no word
    character, has a white-space character, or is ['NONE'] in some mix of
    cases, returns [CANCELLED] with an error report, and the disk (the
    archive and the directory it is extracted to) is as before. *)
Theorem C10_unusable_name_is_rejected chunks write_fault (d : disk)
  (preset_name : string) :
  unusable preset_name ->
  (forall m user_,
      cancelled d (HAIRFACTORY_OT_save_mat chunks write_fault m preset_name
                                           user_ d))
  /\ (forall active user_,
      cancelled d (HAIRFACTORY_OT_save_node_group chunks write_fault active
                                                  preset_name user_ d))
  /\ (forall node_ source,
      cancelled d (HAIRFACTORY_OT_save_node chunks write_fault node_ source
                                            preset_name d))
  /\ (forall modifiers include,
      cancelled d (HAIRFACTORY_OT_save_mod_stack chunks write_fault modifiers
                                                 preset_name include d))
  /\ (forall ptype settings,
      cancelled d (HAIRFACTORY_OT_save_phy chunks write_fault ptype settings
                                           preset_name d))
  /\ (forall settings,
      cancelled d (HAIRFACTORY_OT_save_col chunks write_fault settings
                                           preset_name d))
  /\ (forall points,
      cancelled d (HAIRFACTORY_OT_save_hair chunks write_fault points
                                            preset_name d)).
Proof.
  intros H. repeat split; intros;
    try (now apply save_execute_unusable).
  unfold HAIRFACTORY_OT_save_node. destruct source.
  - now apply save_execute_unusable.
  - exists Node_tree_not_found. auto.
Qed.

(* ------------------------------------------------------------------ *)
(** ** C7: the archive wrapper *)

Section WrapperFacts.

Context {content R : Type}.
Variable read_file_by_chunks : content -> list content.
Implicit Types (d : Zip.disk content) (func : content -> content * result R).

Lemma mem_remove_file (files : list (string * content)) file_name :
  Dict.mem (Zip.remove_file content files file_name) file_name = false.
Proof.
  unfold Dict.mem, Zip.remove_file.
  induction files as [|[n c] t IH]; simpl; auto.
  destruct (String.eqb n file_name) eqn:E; simpl; auto.
  now rewrite E.
Qed.

Lemma unlink_removes file_name d :
  Dict.mem (Zip.extract_dir (fst (Zip.unlink content file_name d))) file_name
  = false.
Proof.
  unfold Zip.unlink.
  destruct (Dict.mem (Zip.extract_dir d) file_name) eqn:E; simpl; auto.
  apply mem_remove_file.
Qed.

Lemma unlink_keeps_archive file_name d :
  Zip.zip_file (fst (Zip.unlink content file_name d)) = Zip.zip_file d.
Proof.
  unfold Zip.unlink.
  now destruct (Dict.mem (Zip.extract_dir d) file_name).
Qed.

Lemma extract_keeps_archive file_name d :
  Zip.zip_file (fst (Zip.extract content file_name d)) = Zip.zip_file d.
Proof.
  unfold Zip.extract. destruct (Zip.zip_file d) eqn:E; simpl; auto.
  destruct (Zip.entry_named content l file_name); simpl; auto.
Qed.

Lemma run_keeps_archive func file_name d :
  Zip.zip_file (fst (Zip.run content func file_name d)) = Zip.zip_file d.
Proof.
  unfold Zip.run. destruct (Dict.get (Zip.extract_dir d) file_name); auto.
  now destruct (func c).
Qed.

(** The wrapper never raises, and never leaves the extracted file. *)
Lemma modify_in_zip_returns file_name func write_fault d :
  exists d' o,
    Zip.modify_in_zip content read_file_by_chunks file_name func write_fault d
    = (d', Ok o)
    /\ Dict.mem (Zip.extract_dir d') file_name = false.
Proof.
  unfold Zip.modify_in_zip.
  destruct (Zip.attempt content read_file_by_chunks file_name func
                        write_fault d) as [d' [data|e]] eqn:E.
  - exists d', (Some data). split; auto.
    unfold Zip.attempt in E.
    destruct (Zip.extract content file_name d) as [d1 [[]|?]]; [|discriminate].
    destruct (Zip.run content func file_name d1) as [d2 [?|?]]; [|discriminate].
    destruct (Zip.recompress content read_file_by_chunks file_name
                             write_fault d2) as [d3 [[]|?]]; [|discriminate].
    destruct (Zip.unlink content file_name d3) as [d4 [[]|?]] eqn:U;
      [|discriminate].
    inversion E; subst.
    pose proof (unlink_removes file_name d3) as X. now rewrite U in X.
  - eexists _, None. split; [reflexivity|]. apply unlink_removes.
Qed.

(** C7, as the code has it. Whatever stage fails (the extraction, the
    mutation function or the recompression), the extracted file is gone
    afterwards and the wrapper returns [None] instead of raising; and when
    the extraction or the mutation function is what failed, the archive is
    as it was. *)
Theorem C7_failure_is_cleaned_up_and_returns_none file_name func write_fault
  d d' (e : exn) :
  Zip.attempt content read_file_by_chunks file_name func write_fault d
  = (d', Raise e) ->
  let out := Zip.modify_in_zip content read_file_by_chunks file_name func
                               write_fault d in
  snd out = Ok None
  /\ Dict.mem (Zip.extract_dir (fst out)) file_name = false
  /\ ((forall d1, Zip.extract content file_name d <> (d1, Ok tt))
      \/ (exists d1 d2 e',
             Zip.extract content file_name d = (d1, Ok tt)
             /\ Zip.run content func file_name d1 = (d2, Raise e'))
      -> Zip.zip_file (fst out) = Zip.zip_file d).
Proof.
  intros E out. subst out. unfold Zip.modify_in_zip. rewrite E. simpl.
  split; [reflexivity|]. split; [apply unlink_removes|].
  rewrite unlink_keeps_archive.
  unfold Zip.attempt in E.
  intros [Hx|[d1 [d2 [e' [Hx Hr]]]]].
  - destruct (Zip.extract content file_name d) as [d1 [[]|?]] eqn:X.
    + now destruct (Hx d1).
    + inversion E; subst.
      pose proof (extract_keeps_archive file_name d) as K. now rewrite X in K.
  - rewrite Hx, Hr in E. inversion E; subst.
    pose proof (extract_keeps_archive file_name d) as K. rewrite Hx in K.
    pose proof (run_keeps_archive func file_name d1) as K2.
    rewrite Hr in K2. simpl in *. congruence.
Qed.

End WrapperFacts.

(* ------------------------------------------------------------------ *)
(** ** C9: series names of inner records *)

Lemma series_step_spec name num n num' :
  series_step name num (Some n) = Ok num' ->
  (num <= num')%Z
  /\ (forall i, series_of name n = Some i -> (i <= num')%Z)
  /\ (num' = num \/ series_of name n = Some num').
Proof.
  assert (forall x : Z,
             (x <= x)%Z /\ (forall i, None = Some i -> (i <= x)%Z)
             /\ (x = x \/ @None Z = Some x)) as Same.
  { intros x. split; [lia|]. split; [intros i; discriminate|auto]. }
  unfold series_step, series_of.
  destruct (String.eqb n EmptyString).
  { intros H. inversion H. apply Same. }
  destruct (Py.split "." n) as [|b [|second rest]]; cbn [hd].
  - destruct (String.eqb EmptyString (base_name name)); intros H;
      inversion H; apply Same.
  - destruct (String.eqb b (base_name name)); intros H;
      inversion H; apply Same.
  - destruct (String.eqb b (base_name name)).
    + destruct (Py.int second) as [i|]; cbn [of_option rbind];
        [|discriminate].
      destruct (Z.ltb num i) eqn:L; intros H; inversion H; subst.
      * apply Z.ltb_lt in L. split; [lia|]. split; auto.
        intros j Hj. inversion Hj. lia.
      * apply Z.ltb_ge in L. split; [lia|]. split; auto.
        intros j Hj. inversion Hj. lia.
    + intros H. inversion H. apply Same.
Qed.

Lemma max_series_from_spec name data :
  forall num ms,
    max_series_from name data num = Ok ms ->
    (num <= ms)%Z
    /\ (forall n i, In (Some n) data -> series_of name n = Some i ->
                    (i <= ms)%Z)
    /\ (ms = num \/ exists n, In (Some n) data /\ series_of name n = Some ms).
Proof.
  induction data as [|o rest IH]; simpl; intros num ms H.
  - inversion H. subst. split; [lia|]. split; [intros n i []|auto].
  - destruct (series_step name num o) as [num'|] eqn:S; simpl in H;
      [|discriminate].
    destruct (IH _ _ H) as [Hle [Hall Hmax]].
    destruct o as [n|].
    + destruct (series_step_spec _ _ _ _ S) as [Hle' [Hi Hnum]].
      split; [lia|]. split.
      * intros m i [Hm|Hm] Hs.
        -- inversion Hm; subst. specialize (Hi _ Hs). lia.
        -- eauto.
      * destruct Hmax as [->|[m [Hm Hs]]].
        -- destruct Hnum as [->|Hs]; auto. right. exists n. auto.
        -- right. exists m. auto.
    + simpl in S. inversion S; subst.
      split; [lia|]. split.
      * intros m i [Hm|Hm] Hs; [discriminate|eauto].
      * destruct Hmax as [->|[m [Hm Hs]]]; auto.
        right. exists m. auto.
Qed.

Lemma length_append (a b : string) :
  String.length (a +++ b) = String.length a + String.length b.
Proof. induction a; simpl; auto. Qed.

Lemma length_repeat_char c n : String.length (repeat_char c n) = n.
Proof. induction n; simpl; auto. Qed.

Lemma zfill_length width s : width <= String.length (zfill width s).
Proof.
  unfold zfill. destruct s as [|c r]; simpl.
  - rewrite length_repeat_char. lia.
  - destruct (Ascii.eqb c "-" || Ascii.eqb c "+")%bool; simpl;
      rewrite length_append, length_repeat_char; simpl; lia.
Qed.

(** C9, as the code has it. When the name suggested for a new inner
    record is already a display name of its table, and the names of that
    series carry decimal numbers, the record is named by the base of the
    suggested name (its text before the first dot), a dot, and the next
    number of the series, one more than the highest one in use, padded
    with zeros to three digits or more. *)
Theorem C9_next_series_name (t : table) (f : file) (g : group)
  (name : string) (ms : Z) :
  open_table t f = Ok g ->
  name_in name (get_names g) = true ->
  get_max_series_num name (get_names g) = Ok ms ->
  series_name t name f
  = (f, Ok (base_name name +++ "." +++ zfill 3 (str_of_Z (ms + 1)%Z)))
  /\ (forall n i, In (Some n) (get_names g) -> series_of name n = Some i ->
                  (i < ms + 1)%Z)
  /\ (ms = 0%Z \/ exists n, In (Some n) (get_names g)
                          /\ series_of name n = Some ms)
  /\ (3 <= String.length (zfill 3 (str_of_Z (ms + 1)%Z)))%nat.
Proof.
  intros Ht Hin Hms. split; [|split; [|split]].
  - unfold series_name. run_m. rewrite Ht. cbv beta iota. rewrite Hin.
    unfold get_match_series_highest. rewrite Hms. reflexivity.
  - intros n i Hn Hs.
    destruct (max_series_from_spec _ _ _ _ Hms) as [_ [H _]].
    specialize (H _ _ Hn Hs). lia.
  - destruct (max_series_from_spec _ _ _ _ Hms) as [_ [_ H]]. exact H.
  - apply zfill_length.
Qed.

(** Where the claim fails as stated: after [Foo.999] the suffix has four
    digits, and a name of the series whose second part is not a number
    makes the naming step raise [ValueError], so that no name is stored. *)
Lemma C9_suffix_beyond_three_digits :
  get_match_series_highest "Foo" [Some "Foo"; Some "Foo.999"] = Ok "Foo.1000"
  /\ get_match_series_highest "Foo" [Some "Foo"; Some "Foo.bar"]
     = Raise ValueError.
Proof. split; reflexivity. Qed.

(* ------------------------------------------------------------------ *)
(** ** C3: what the hash of a dict does not depend on *)

Section Hasher.

Lemma string_leb_trans (a b c : string) :
  String.leb a b = true -> String.leb b c = true -> String.leb a c = true.
Proof.
  unfold String.leb. revert b c.
  induction a as [|x a IH]; intros [|y b] [|z c]; simpl; auto;
    try discriminate.
  unfold Ascii.compare.
  destruct (N.compare_spec (N_of_ascii x) (N_of_ascii y)) as [E1|L1|G1];
    try discriminate;
    destruct (N.compare_spec (N_of_ascii y) (N_of_ascii z)) as [E2|L2|G2];
    try discriminate;
    destruct (N.compare_spec (N_of_ascii x) (N_of_ascii z)) as [E3|L3|G3];
    auto; try lia.
  apply IH.
Qed.

Context {A : Type}.
Implicit Types (x y : string * A) (l : list (string * A)).

Lemma insert_item_swap_le x y l :
  String.leb (fst x) (fst y) = true -> fst x <> fst y ->
  Json.insert_item x (Json.insert_item y l)
  = Json.insert_item y (Json.insert_item x l).
Proof.
  intros Hxy Hne.
  assert (String.leb (fst y) (fst x) = false) as Hyx.
  { destruct (String.leb (fst y) (fst x)) eqn:E; auto.
    destruct Hne. now apply String.leb_antisym. }
  induction l as [|h t IH]; simpl.
  - now rewrite Hxy, Hyx.
  - destruct (String.leb (fst y) (fst h)) eqn:Eyh,
             (String.leb (fst x) (fst h)) eqn:Exh; simpl;
      rewrite ?Hxy, ?Hyx, ?Eyh, ?Exh; auto.
    + rewrite (string_leb_trans _ _ _ Hxy Eyh) in Exh. discriminate.
    + now rewrite IH.
Qed.

Lemma insert_item_swap x y l :
  fst x <> fst y ->
  Json.insert_item x (Json.insert_item y l)
  = Json.insert_item y (Json.insert_item x l).
Proof.
  intros Hne. destruct (String.leb_total (fst x) (fst y)).
  - now apply insert_item_swap_le.
  - symmetry. apply insert_item_swap_le; auto.
Qed.

(** Sorting by key forgets the order of insertion. *)
Lemma sort_items_permutation l l' :
  Permutation l l' -> NoDup (map fst l) -> Json.sort_items l = Json.sort_items l'.
Proof.
  induction 1 as [|x l l' P IH|x y l|l l' l'' P1 IH1 P2 IH2]; simpl; intros N.
  - reflexivity.
  - inversion N; subst. now rewrite IH.
  - inversion N as [|? ? Hy N']; subst.
    apply insert_item_swap. intros E. apply Hy. left. auto.
  - rewrite IH1; auto. apply IH2.
    apply Permutation_NoDup with (l := map fst l); auto.
    now apply Permutation_map.
Qed.

End Hasher.

(** Induction on a value, with the property known for the elements of a
    sequence and for the values of a dict. *)
Section ValueInduction.

Variable P : value -> Prop.
Hypothesis p_none : P VNone.
Hypothesis p_bool : forall b, P (VBool b).
Hypothesis p_int : forall z, P (VInt z).
Hypothesis p_float : forall r, P (VFloat r).
Hypothesis p_str : forall s, P (VStr s).
Hypothesis p_list : forall xs, Forall P xs -> P (VList xs).
Hypothesis p_tuple : forall xs, Forall P xs -> P (VTuple xs).
Hypothesis p_array : forall xs, Forall P xs -> P (VArray xs).
Hypothesis p_vector : forall xs, Forall P xs -> P (VVector xs).
Hypothesis p_dict :
  forall kvs, Forall (fun kv => P (snd kv)) kvs -> P (VDict kvs).

Fixpoint value_induction (v : value) : P v :=
  let all :=
    fix all (l : list value) : Forall P l :=
      match l with
      | [] => Forall_nil P
      | x :: rest => Forall_cons x (value_induction x) (all rest)
      end in
  match v with
  | VNone => p_none
  | VBool b => p_bool b
  | VInt z => p_int z
  | VFloat r => p_float r
  | VStr s => p_str s
  | VList xs => p_list xs (all xs)
  | VTuple xs => p_tuple xs (all xs)
  | VArray xs => p_array xs (all xs)
  | VVector xs => p_vector xs (all xs)
  | VDict kvs =>
      p_dict kvs
        ((fix each (l : list (string * value))
            : Forall (fun kv => P (snd kv)) l :=
            match l with
            | [] => Forall_nil _
            | kv :: rest =>
                Forall_cons kv (value_induction (snd kv)) (each rest)
            end) kvs)
  end.

End ValueInduction.

Lemma writes_alike_sequence xs ys :
  writes_alike (VList xs) (VList ys) -> Forall2 writes_alike xs ys.
Proof.
  revert ys. induction xs as [|x r IH]; intros [|y r'] H; cbn in H;
    try contradiction; constructor.
  - exact (proj1 H).
  - apply IH. exact (proj2 H).
Qed.

(** The items of two dicts with the same keys, sorted by key. *)
Lemma sort_items_alike (f g : value -> option string)
  (kvs kws : list (string * value)) :
  NoDup (Dict.keys kvs) ->
  List.length kvs = List.length kws ->
  Forall (fun kv => exists w', In (fst kv, w') kws /\ f (snd kv) = g w')
         kvs ->
  Json.sort_items (map (fun kv => (fst kv, f (snd kv))) kvs)
  = Json.sort_items (map (fun kw => (fst kw, g (snd kw))) kws).
Proof.
  intros N L F. apply sort_items_permutation.
  - apply NoDup_Permutation_bis.
    + apply (NoDup_map_inv fst). rewrite map_map. exact N.
    + rewrite !length_map. lia.
    + intros x Hx. apply in_map_iff in Hx. destruct Hx as [kv [<- Hkv]].
      rewrite Forall_forall in F. destruct (F kv Hkv) as [w' [Hin E]].
      apply in_map_iff. exists (fst kv, w'). cbn [fst snd].
      split; [now rewrite E|exact Hin].
  - rewrite map_map. exact N.
Qed.

Lemma writes_alike_dumps v :
  forall w, writes_alike v w -> Json.dumps true v = Json.dumps true w.
Proof.
  induction v as [| b | z | r | s | xs H | xs H | xs H | xs H | kvs H]
    using value_induction; intros w A;
    try (destruct w; cbn in A; try discriminate A; now inversion A).
  - assert (exists ys, (w = VList ys \/ w = VTuple ys)
                       /\ writes_alike (VList xs) (VList ys))
      as [ys [Hw A']].
    { destruct w; cbn in A; try discriminate A; eauto. }
    apply writes_alike_sequence in A'.
    assert (map (Json.dumps true) xs = map (Json.dumps true) ys) as E.
    { clear - H A'. induction A' as [|x y xs ys Hxy _ IH]; auto.
      inversion H; subst. cbn [map]. f_equal; auto. }
    destruct Hw as [->| ->]; cbn [Json.dumps]; now rewrite E.
  - assert (exists ys, (w = VList ys \/ w = VTuple ys)
                       /\ writes_alike (VList xs) (VList ys))
      as [ys [Hw A']].
    { destruct w; cbn in A; try discriminate A; eauto. }
    apply writes_alike_sequence in A'.
    assert (map (Json.dumps true) xs = map (Json.dumps true) ys) as E.
    { clear - H A'. induction A' as [|x y xs ys Hxy _ IH]; auto.
      inversion H; subst. cbn [map]. f_equal; auto. }
    destruct Hw as [->| ->]; cbn [Json.dumps]; now rewrite E.
  - destruct w as [| | | | | | | | |kws]; cbn in A; try discriminate A.
    destruct A as [N [_ [L E]]].
    cbn [Json.dumps]. cbv zeta.
    rewrite (sort_items_alike (Json.dumps true) (Json.dumps true) kvs kws);
      auto.
    clear - H E. induction H as [|kv r Hkv _ IH]; constructor.
    + destruct E as [[w' [Hin A]] _]. exists w'. auto.
    + apply IH. apply E.
Qed.

Lemma hashes_alike_dumps v :
  forall w,
    hashes_alike v w ->
    Json.dumps true (immutable_value v) = Json.dumps true (immutable_value w).
Proof.
  assert (forall xs ys,
             Forall2 writes_alike xs ys ->
             Json.dumps true (VTuple xs) = Json.dumps true (VTuple ys)) as S.
  { intros xs ys A. cbn [Json.dumps].
    assert (map (Json.dumps true) xs = map (Json.dumps true) ys) as ->; auto.
    induction A as [|x y xs ys Hxy _ IH]; auto.
    cbn [map]. f_equal; auto. now apply writes_alike_dumps. }
  induction v as [| b | z | r | s | xs H | xs H | xs H | xs H | kvs H]
    using value_induction; intros w A;
    try (destruct w; cbn in A; try discriminate A; now inversion A);
    try (destruct w; cbn in A; try discriminate A;
         cbn [immutable_value]; now apply S).
  destruct w as [| | | | | | | | |kws]; cbn in A; try discriminate A.
  destruct A as [N [_ [L E]]].
  cbn [immutable_value Json.dumps]. cbv zeta. rewrite !map_map.
  cbn [fst snd].
  rewrite (sort_items_alike
             (fun v => Json.dumps true (immutable_value v))
             (fun v => Json.dumps true (immutable_value v)) kvs kws); auto.
  clear - H E. induction H as [|kv r Hkv _ IH]; constructor.
  - destruct E as [[w' [Hin A]] _]. exists w'. auto.
  - apply IH. apply E.
Qed.

(** C3, as the code has it. The hash of a string-keyed dict does not
    depend on the order its keys were inserted in, at any depth of nested
    dicts, nor on whether a sequence that is a value of the dict, or of a
    dict nested in it, was built as a list, a tuple or an array; inside a
    sequence, lists and tuples are written alike. *)
Theorem C3_hash_dict_insensitive (d1 d2 : dict) :
  hashes_alike (VDict d1) (VDict d2) ->
  hash_dict d1 = hash_dict d2.
Proof.
  intros A. unfold hash_dict. cbv zeta.
  change (VDict (immutable_dict d1)) with (immutable_value (VDict d1)).
  change (VDict (immutable_dict d2)) with (immutable_value (VDict d2)).
  now rewrite (hashes_alike_dumps _ _ A).
Qed.

(** Where the claim fails as stated: a sequence built as an array is
    hashed like the list of the same elements only where the sequence is
    itself a value of the dict; an array inside a list is not converted,
    and [hash_dict] raises [TypeError]. *)
Lemma C3_array_inside_a_list :
  hash_dict [("b", VList [VList [VInt 1; VInt 2]])]
  = Ok "cf9e245fe35213e400d45d96134b682fc39d0c8f6ff7c5a40c3c76089136aa77"
  /\ hash_dict [("b", VList [VTuple [VInt 1; VInt 2]])]
     = Ok "cf9e245fe35213e400d45d96134b682fc39d0c8f6ff7c5a40c3c76089136aa77"
  /\ hash_dict [("b", VList [VArray [VInt 1; VInt 2]])] = Raise TypeError
  /\ hash_dict [("b", VArray [VList [VInt 1; VInt 2]])]
     = Ok "cf9e245fe35213e400d45d96134b682fc39d0c8f6ff7c5a40c3c76089136aa77".
Proof. vm_compute. repeat split; reflexivity. Qed.

(* ------------------------------------------------------------------ *)
(** ** C4: the graph identity sees the topology only *)

(** Induction on a node, with the property known for the nodes of its
    group. *)
Section NodeInduction.

Variable P : node -> Prop.
Hypothesis step :
  forall u nm t a i d gnodes glinks,
    Forall P gnodes -> P (Node u nm t a i d gnodes glinks).

Fixpoint node_induction (n : node) : P n :=
  match n with
  | Node u nm t a i d gnodes glinks =>
      step u nm t a i d gnodes glinks
           ((fix all (l : list node) : Forall P l :=
               match l with
               | [] => Forall_nil P
               | m :: rest => Forall_cons m (node_induction m) (all rest)
               end) gnodes)
  end.

End NodeInduction.




Section Renaming.

Variable r : nat -> nat.
Hypothesis r_injective : forall a b, r a = r b -> a = b.









End Renaming.



(* ------------------------------------------------------------------ *)
(** ** Running code on the file *)

Section Running.

Context {A B : Type}.
Implicit Types (m : M A) (k : A -> M B) (f : file).

Lemma bind_ok m k f f1 a : m f = (f1, Ok a) -> bind m k f = k a f1.
Proof. intros H. unfold bind. now rewrite H. Qed.

Lemma bind_raise m k f f1 e :
  m f = (f1, Raise e) -> bind m k f = (f1, Raise e).
Proof. intros H. unfold bind. now rewrite H. Qed.

Lemma bind_ok_inv m k f f' b :
  bind m k f = (f', Ok b) ->
  exists f1 a, m f = (f1, Ok a) /\ k a f1 = (f', Ok b).
Proof.
  unfold bind. destruct (m f) as [f1 [a|e]]; intros H.
  - eauto.
  - discriminate.
Qed.

End Running.

Lemma frame_refl touched kind f : frame touched kind f f.
Proof. split; auto. Qed.

Lemma frame_trans touched kind f1 f2 f3 :
  frame touched kind f1 f2 -> frame touched kind f2 f3 ->
  frame touched kind f1 f3.
Proof.
  intros [H1 K1] [H2 K2]. split.
  - intros t Ht. rewrite H2, H1; auto.
  - intros Hk. rewrite K2, K1; auto.
Qed.

Section Touches.

Variable touched : table -> Prop.
Variable kind : bool.

Lemma touches_ret {A} (a : A) : touches touched kind (ret a).
Proof. intros f. apply frame_refl. Qed.

Lemma touches_raise {A} e : touches touched kind (@raise A e).
Proof. intros f. apply frame_refl. Qed.

Lemma touches_lift {A} (r : result A) : touches touched kind (lift r).
Proof. intros f. apply frame_refl. Qed.

Lemma touches_bind {A B} (m : M A) (k : A -> M B) :
  touches touched kind m -> (forall a, touches touched kind (k a)) ->
  touches touched kind (bind m k).
Proof.
  intros Hm Hk f. unfold bind. specialize (Hm f).
  destruct (m f) as [f1 [a|e]]; simpl in *; auto.
  eapply frame_trans; eauto. apply Hk.
Qed.

Lemma touches_table_of t : touches touched kind (table_of t).
Proof. intros f. apply frame_refl. Qed.

Lemma touches_has_key t id_ : touches touched kind (has_key t id_).
Proof.
  apply touches_bind; [apply touches_table_of|intros; apply touches_ret].
Qed.

Lemma touches_dataset_of t id_ : touches touched kind (dataset_of t id_).
Proof.
  apply touches_bind; [apply touches_table_of|intros; apply touches_lift].
Qed.

Lemma touches_get_attr t id_ key : touches touched kind (get_attr t id_ key).
Proof.
  apply touches_bind; [apply touches_dataset_of|intros; apply touches_ret].
Qed.

Lemma touches_names_of t : touches touched kind (names_of t).
Proof.
  apply touches_bind; [apply touches_table_of|intros; apply touches_ret].
Qed.

Lemma touches_kind_ids node_type : touches touched kind (kind_ids node_type).
Proof. intros f. apply frame_refl. Qed.

Lemma touches_write_table t g :
  touched t -> touches touched kind (write (with_table t g)).
Proof.
  intros Ht f. split; simpl.
  - intros t' Ht'. apply open_with_table_other. congruence.
  - intros _. apply kind_with_table.
Qed.

Lemma touches_create_dataset t id_ v :
  touched t -> touches touched kind (create_dataset t id_ v).
Proof.
  intros Ht. apply touches_bind; [apply touches_table_of|intros g].
  destruct (Dict.mem g id_); [apply touches_raise|].
  now apply touches_write_table.
Qed.

Lemma touches_set_attr t id_ key text :
  touched t -> touches touched kind (set_attr t id_ key text).
Proof.
  intros Ht. apply touches_bind; [apply touches_table_of|intros g].
  apply touches_bind; [apply touches_lift|intros d].
  now apply touches_write_table.
Qed.

Lemma touches_append_id t key id_ :
  touched t -> touches touched kind (append_id t key id_).
Proof.
  intros Ht. apply touches_bind; [apply touches_table_of|intros g].
  apply touches_bind; [apply touches_lift|intros d].
  now apply touches_write_table.
Qed.

Lemma touches_kind_append node_type id_ :
  kind = true -> touches touched kind (kind_append node_type id_).
Proof.
  intros Hk. apply touches_bind; [apply touches_kind_ids|intros ids].
  intros f. split; simpl.
  - intros t _. apply open_with_kind.
  - rewrite Hk. discriminate.
Qed.

Lemma touches_series_name t name : touches touched kind (series_name t name).
Proof.
  apply touches_bind; [apply touches_names_of|intros names].
  destruct (name_in name names); [apply touches_lift|apply touches_ret].
Qed.

End Touches.

(** Applies the lemmas above to code built from the primitives. *)
Ltac touches_step :=
  first
    [ apply touches_ret | apply touches_raise | apply touches_lift
    | apply touches_has_key | apply touches_dataset_of | apply touches_get_attr
    | apply touches_names_of | apply touches_kind_ids | apply touches_table_of
    | apply touches_series_name
    | apply touches_create_dataset | apply touches_set_attr
    | apply touches_append_id | apply touches_kind_append
    | apply touches_bind; [|intros ?] ].

Ltac touches_auto :=
  repeat (touches_step
          || match goal with
             | |- touches _ _ (if ?b then _ else _) => destruct b
             | |- touches _ _ (match ?x with _ => _ end) => destruct x
             end);
  auto.

Lemma touches_frame {A} touched kind (m : M A) f f' r :
  touches touched kind m -> m f = (f', r) -> frame touched kind f f'.
Proof. intros H E. specialize (H f). now rewrite E in H. Qed.

Lemma touches_save_info s mat_id user_ :
  touches (eq (T_INFO (class_of s))) false (save_info s mat_id user_).
Proof. unfold save_info. touches_auto. Qed.

Lemma touches_save_data c values_id node_values preset_name :
  touches (eq (T_DATA c)) false
          (save_data c values_id node_values preset_name).
Proof. unfold save_data. touches_auto. Qed.

Lemma touches_save_node_stack node_ids :
  touches (eq T_NODE_STACK) false (save_node_stack node_ids).
Proof. unfold save_node_stack. touches_auto. Qed.

Lemma touches_save_transaction c mat_id values_id ni_id preset_name :
  touches (eq (T_TRANSACTIONS c)) false
          (save_transaction c mat_id values_id ni_id preset_name).
Proof. unfold save_transaction. touches_auto. Qed.

Lemma touches_link_preset c mat_id pid values_id :
  touches (fun t => t = T_FULL c \/ t = T_VALUES c) false
          (link_preset c mat_id pid values_id).
Proof. unfold link_preset. touches_auto. Qed.

Lemma touches_save_nodes g node_type func nodes :
  forall ct ids,
    touches (eq T_NODES) true (save_nodes g node_type func nodes ct ids).
Proof.
  induction nodes as [|node rest IH]; intros ct ids; simpl.
  - apply touches_ret.
  - touches_auto.
Qed.

Lemma touches_save_kinds g ntd :
  forall node_ids, touches (eq T_NODES) true (save_kinds g ntd node_ids).
Proof.
  induction ntd as [|[node_type nodes] rest IH]; intros node_ids; simpl.
  - apply touches_ret.
  - touches_auto. apply touches_save_nodes.
Qed.

(* ------------------------------------------------------------------ *)
(** ** What the primitives do *)

Section Primitives.

Implicit Types (t : table) (f : file) (g : group) (d : dataset).

Lemma has_key_eq t id_ f g :
  open_table t f = Ok g -> has_key t id_ f = (f, Ok (Dict.mem g id_)).
Proof. intros H. unfold has_key. run_m. now rewrite H. Qed.

Lemma dataset_of_eq t id_ f g d :
  open_table t f = Ok g -> Dict.get g id_ = Some d ->
  dataset_of t id_ f = (f, Ok d).
Proof.
  intros H Hd. unfold dataset_of. run_m. rewrite H. unfold Dict.item.
  now rewrite Hd.
Qed.

Lemma get_attr_eq t id_ key f g d :
  open_table t f = Ok g -> Dict.get g id_ = Some d ->
  get_attr t id_ key f = (f, Ok (Dict.get (attrs d) key)).
Proof.
  intros H Hd. unfold get_attr.
  now rewrite (bind_ok _ _ _ _ _ (dataset_of_eq _ _ _ _ _ H Hd)).
Qed.

Lemma names_of_eq t f g :
  open_table t f = Ok g -> names_of t f = (f, Ok (get_names g)).
Proof. intros H. unfold names_of. run_m. now rewrite H. Qed.

Lemma create_dataset_eq t id_ v f g :
  open_table t f = Ok g -> Dict.mem g id_ = false ->
  create_dataset t id_ v f
  = (with_table t (g ++ [(id_, {| attrs := []; data := v |})]) f, Ok tt).
Proof.
  intros H Hm. unfold create_dataset. run_m. rewrite H. cbv beta iota.
  now rewrite Hm.
Qed.

Lemma set_attr_eq t id_ key text f g d :
  open_table t f = Ok g -> Dict.get g id_ = Some d ->
  set_attr t id_ key text f
  = (with_table t (Dict.set g id_ {| attrs := Dict.set (attrs d) key text;
                                    data := data d |}) f, Ok tt).
Proof.
  intros H Hd. unfold set_attr. run_m. rewrite H. unfold Dict.item.
  now rewrite Hd.
Qed.

Lemma append_id_eq t key id_ f g d :
  open_table t f = Ok g -> Dict.get g key = Some d ->
  append_id t key id_ f
  = (with_table t (Dict.set g key {| attrs := attrs d;
                                    data := ids_value (ids_of (data d) ++ [id_]) |})
                f, Ok tt).
Proof.
  intros H Hd. unfold append_id. run_m. rewrite H. unfold Dict.item.
  now rewrite Hd.
Qed.

Lemma dict_set_app_fresh {A} (l : list (string * A)) k v v' :
  Dict.mem l k = false -> Dict.set (l ++ [(k, v)]) k v' = l ++ [(k, v')].
Proof.
  unfold Dict.mem. induction l as [|[k0 v0] rest IH]; simpl.
  - now rewrite String.eqb_refl.
  - destruct (String.eqb k0 k); [discriminate|]. intros H. now rewrite IH.
Qed.

Lemma dict_get_app_fresh {A} (l : list (string * A)) k v :
  Dict.mem l k = false -> Dict.get (l ++ [(k, v)]) k = Some v.
Proof.
  intros H. rewrite dict_get_app. apply dict_mem_false in H. rewrite H.
  now rewrite String.eqb_refl.
Qed.

Lemma dict_mem_app {A} (l : list (string * A)) kv k :
  Dict.mem l k = true -> Dict.mem (l ++ [kv]) k = true.
Proof.
  unfold Dict.mem. destruct kv as [k' v]. rewrite dict_get_app.
  now destruct (Dict.get l k).
Qed.

Lemma dict_mem_set {A} (l : list (string * A)) k v k' :
  Dict.mem l k' = true -> Dict.mem (Dict.set l k v) k' = true.
Proof.
  unfold Dict.mem. destruct (String.eqb k k') eqn:E.
  - apply String.eqb_eq in E. subst. now rewrite dict_get_set_same.
  - apply String.eqb_neq in E. now rewrite dict_get_set_other.
Qed.

(** A dataset that is created and then given attributes. *)
Lemma create_then_set t id_ v key text f g a :
  open_table t f = Ok (g ++ [(id_, {| attrs := a; data := v |})]) ->
  Dict.mem g id_ = false ->
  set_attr t id_ key text f
  = (with_table t (g ++ [(id_, {| attrs := Dict.set a key text; data := v |})])
                f, Ok tt).
Proof.
  intros H Hm.
  rewrite (set_attr_eq t id_ key text f _ {| attrs := a; data := v |} H).
  - now rewrite dict_set_app_fresh.
  - now apply dict_get_app_fresh.
Qed.

Lemma with_table_twice t g g' f :
  with_table t g (with_table t g' f) = with_table t g f.
Proof.
  destruct f as [[] [] ? ? ? ? ? ? ?].
  destruct t as [[]|[]|[]|[]|[]| | | |p| |]; simpl; auto.
  f_equal. clear. induction PHYSICS0 as [|[k v] rest IH]; simpl.
  - now rewrite String.eqb_refl.
  - destruct (String.eqb k p) eqn:E; simpl; rewrite E; auto.
    now rewrite IH.
Qed.

End Primitives.

Lemma bind_ret {A B} (a : A) (k : A -> M B) f : bind (ret a) k f = k a f.
Proof. reflexivity. Qed.

Lemma bind_lift_ok {A B} (a : A) (k : A -> M B) f :
  bind (lift (Ok a)) k f = k a f.
Proof. reflexivity. Qed.

Lemma bind_lift_raise {A B} e (k : A -> M B) f :
  bind (lift (Raise e)) k f = (f, Raise e).
Proof. reflexivity. Qed.

(** One step of a run whose next instruction reads a table that is always
    there. *)
Ltac step_read :=
  match goal with
  | |- context [bind (has_key ?t ?i) _ ?f] =>
      rewrite (bind_ok _ _ f _ _ (has_key_eq t i f _ eq_refl))
  | |- context [bind (names_of ?t) _ ?f] =>
      rewrite (bind_ok _ _ f _ _ (names_of_eq t f _ eq_refl))
  | |- context [bind (ret _) _ _] => rewrite bind_ret
  | |- context [bind (lift (Ok _)) _ _] => rewrite bind_lift_ok
  end.

(* ------------------------------------------------------------------ *)
(** ** The steps of a save *)

Section Steps.

Implicit Types (f : file) (c : classification).

Lemma save_info_known s mat_id user_ f d :
  Dict.get (INFO (type_file_of (class_of s) f)) mat_id = Some d ->
  save_info s mat_id user_ f = (f, Ok (data d)).
Proof.
  intros H. unfold save_info. cbv zeta.
  step_read.
  assert (Dict.mem (INFO (type_file_of (class_of s) f)) mat_id = true) as ->.
  { apply dict_mem_get. eauto. }
  cbn [negb].
  rewrite (bind_ok _ _ _ _ _
             (dataset_of_eq (T_INFO (class_of s)) mat_id f _ _ eq_refl H)).
  reflexivity.
Qed.

Lemma save_info_new s mat_id user_ f :
  Dict.mem (INFO (type_file_of (class_of s) f)) mat_id = false ->
  save_info s mat_id user_ f
  = (with_table (T_INFO (class_of s))
       (INFO (type_file_of (class_of s) f) ++ [(mat_id, info_record s user_)])
       f,
     Ok (classification_value (node_type_dict (tree_of s) (class_of s)))).
Proof.
  intros H. unfold save_info. cbv zeta.
  step_read.
  rewrite H. cbn [negb].
  rewrite (bind_ok _ _ _ _ _
             (create_dataset_eq (T_INFO (class_of s)) mat_id _ f _ eq_refl H)).
  rewrite (bind_ok _ _ _ _ _
             (create_then_set _ _ _ _ _ _ _ _ (open_with_table_same _ _ _) H)).
  rewrite with_table_twice.
  rewrite (bind_ok _ _ _ _ _
             (create_then_set _ _ _ _ _ _ _ _ (open_with_table_same _ _ _) H)).
  rewrite with_table_twice.
  rewrite (bind_ok _ _ _ _ _
             (create_then_set _ _ _ _ _ _ _ _ (open_with_table_same _ _ _) H)).
  rewrite with_table_twice.
  reflexivity.
Qed.

End Steps.

(* ------------------------------------------------------------------ *)
(** ** The loop over the special nodes *)

Lemma grows_refl f : grows f f.
Proof. split; eauto. Qed.

Lemma grows_trans f1 f2 f3 : grows f1 f2 -> grows f2 f3 -> grows f1 f3.
Proof.
  intros [N1 K1] [N2 K2]. split; auto.
  intros kt l H. destruct (K1 _ _ H) as [l' [H' I']].
  destruct (K2 _ _ H') as [l'' [H'' I'']]. eauto.
Qed.

Lemma node_known_grows f f' node_type nid :
  grows f f' -> node_known f node_type nid -> node_known f' node_type nid.
Proof.
  intros [N K] [Hn [l [Hl Hin]]]. split; auto.
  destruct (K _ _ Hl) as [l' [Hl' I]]. eauto.
Qed.

Lemma kind_known_grows f f' g kn :
  grows f f' -> kind_known f g kn -> kind_known f' g kn.
Proof.
  intros G [[l Hl] H]. split.
  - destruct G as [_ K]. destruct (K _ _ Hl) as [l' [Hl' _]]. eauto.
  - intros func nids Hf Hr. specialize (H _ _ Hf Hr).
    eapply Forall_impl; [|exact H]. intros a. now apply node_known_grows.
Qed.

Lemma mem_string_app_last x l : mem_string x (l ++ [x]) = true.
Proof.
  unfold mem_string. rewrite existsb_app. simpl.
  rewrite String.eqb_refl. now rewrite orb_true_r.
Qed.

Lemma mem_string_app x l l' :
  mem_string x l = true -> mem_string x (l ++ l') = true.
Proof. unfold mem_string. rewrite existsb_app. now intros ->. Qed.

Lemma series_name_pure t name f : fst (series_name t name f) = f.
Proof.
  unfold series_name. run_m.
  destruct (open_table t f); simpl; auto.
  destruct (name_in name (get_names a)); simpl; auto.
Qed.

Lemma kind_ids_inv node_type f f' l :
  kind_ids node_type f = (f', Ok l) ->
  f' = f /\ Dict.get (KIND f) node_type = Some l.
Proof.
  unfold kind_ids, Dict.item. intros H. inversion H; subst.
  destruct (Dict.get (KIND f') node_type); simpl in *; [|discriminate].
  split; congruence.
Qed.

Lemma kind_ids_eq node_type f l :
  Dict.get (KIND f) node_type = Some l -> kind_ids node_type f = (f, Ok l).
Proof. unfold kind_ids, Dict.item. now intros ->. Qed.

Lemma kind_append_eq node_type id_ f l :
  Dict.get (KIND f) node_type = Some l ->
  kind_append node_type id_ f
  = (with_kind (Dict.set (KIND f) node_type (l ++ [id_])) f, Ok tt).
Proof.
  intros H. unfold kind_append.
  now rewrite (bind_ok _ _ _ _ _ (kind_ids_eq _ _ _ H)).
Qed.

Lemma rmap_node_id_cons g func node rest n data nid :
  node_at g node = Ok n -> func n = Ok data -> hash_dict data = Ok nid ->
  rmap (node_id g func) (node :: rest)
  = rbind (rmap (node_id g func) rest) (fun bs => Ok (nid :: bs)).
Proof.
  intros Hn Hd Hh. cbn [rmap]. unfold node_id at 1.
  rewrite Hn. cbn [rbind]. rewrite Hd. cbn [rbind]. now rewrite Hh.
Qed.

Lemma rmap_node_id_inv g func node rest nids :
  rmap (node_id g func) (node :: rest) = Ok nids ->
  exists n data nid nids',
    node_at g node = Ok n /\ func n = Ok data /\ hash_dict data = Ok nid
    /\ rmap (node_id g func) rest = Ok nids' /\ nids = nid :: nids'.
Proof.
  cbn [rmap]. unfold node_id at 1.
  destruct (node_at g node) as [n|e] eqn:En; [|discriminate]. cbn [rbind].
  destruct (func n) as [data|e] eqn:Ed; [|discriminate]. cbn [rbind].
  destruct (hash_dict data) as [nid|e] eqn:Eh; [|discriminate]. cbn [rbind].
  destruct (rmap (node_id g func) rest) as [nids'|e]; [|discriminate].
  cbn [rbind]. intros H. inversion H; subst.
  exists n, data, nid, nids'. repeat split; auto.
Qed.

(** One pass of the loop on a node whose record is new or known. *)
Lemma save_nodes_ok g node_type func nodes :
  forall ct ids f f' out,
    save_nodes g node_type func nodes ct ids f = (f', Ok out) ->
    exists nids,
      rmap (node_id g func) nodes = Ok nids
      /\ out = ids ++ nids
      /\ grows f f'
      /\ Forall (node_known f' node_type) nids.
Proof.
  induction nodes as [|node rest IH]; intros ct ids f f' out H.
  - simpl in H. inversion H; subst. exists []. rewrite app_nil_r.
    repeat split; auto. apply grows_refl.
  - cbn [save_nodes] in H.
    destruct (node_at g node) as [n|e] eqn:En; [|discriminate].
    rewrite bind_lift_ok in H.
    destruct (func n) as [data|e] eqn:Ed; [|discriminate].
    rewrite bind_lift_ok in H.
    destruct (hash_dict data) as [nid|e] eqn:Eh; [|discriminate].
    rewrite bind_lift_ok in H.
    rewrite (rmap_node_id_cons _ _ _ _ _ _ _ En Ed Eh).
    rewrite (bind_ok _ _ f _ _ (has_key_eq T_NODES nid f _ eq_refl)) in H.
    apply bind_ok_inv in H. destruct H as [fa [ct' [Ha H]]].
    assert (Dict.mem (NODES fa) nid = true
            /\ KIND fa = KIND f
            /\ forall k, Dict.mem (NODES f) k = true
                         -> Dict.mem (NODES fa) k = true) as [Hnid [Hk Hgrow]].
    { destruct (Dict.mem (NODES f) nid) eqn:E; cbn [negb] in Ha.
      - inversion Ha; subst. repeat split; auto.
      - destruct (Json.reload (VDict data)) as [payload|e];
          [|rewrite bind_lift_raise in Ha; discriminate].
        rewrite bind_lift_ok in Ha.
        rewrite (bind_ok _ _ _ _ _
                   (create_dataset_eq T_NODES nid payload f _ eq_refl E)) in Ha.
        destruct (node_type_abbr node_type) as [abbr|e];
          [|rewrite bind_lift_raise in Ha; discriminate].
        rewrite bind_lift_ok in Ha.
        apply bind_ok_inv in Ha. destruct Ha as [f1 [sname [Hs Ha]]].
        pose proof (series_name_pure T_NODES
                      (abbr +++ "_" +++ str_of_Z (Z.of_nat ct))
                      (with_table T_NODES
                         (NODES f ++ [(nid, {| attrs := []; data := payload |})])
                         f)) as Hp.
        rewrite Hs in Hp. cbn [fst] in Hp. subst f1.
        rewrite (bind_ok _ _ _ _ _
                   (create_then_set T_NODES nid payload "name" sname _ _ _
                      (open_with_table_same _ _ _) E)) in Ha.
        rewrite with_table_twice in Ha.
        rewrite (bind_ok _ _ _ _ _
                   (create_then_set T_NODES nid payload "type" node_type _ _ _
                      (open_with_table_same _ _ _) E)) in Ha.
        rewrite with_table_twice in Ha.
        inversion Ha; subst. simpl. split; [|split; auto].
        + unfold Dict.mem. now rewrite dict_get_app_fresh.
        + intros k Hk. now apply dict_mem_app. }
    apply bind_ok_inv in H. destruct H as [fb [listed [Hl H]]].
    apply kind_ids_inv in Hl. destruct Hl as [-> El]. rename listed into l.
    apply bind_ok_inv in H. destruct H as [fc [[] [Hc H]]].
    assert (grows fa fc /\ node_known fc node_type nid) as [Gac Kc].
    { destruct (mem_string nid l) eqn:M; cbn [negb] in Hc.
      - inversion Hc; subst. split; [apply grows_refl|].
        split; eauto.
      - rewrite (kind_append_eq _ _ _ _ El) in Hc.
        inversion Hc; subst. split.
        + split; auto. simpl. intros kt l0 H0.
          destruct (String.eqb node_type kt) eqn:E.
          * apply String.eqb_eq in E. subst kt. rewrite dict_get_set_same.
            rewrite El in H0. inversion H0; subst.
            eexists; split; eauto. intros x. apply mem_string_app.
          * apply String.eqb_neq in E. rewrite dict_get_set_other; eauto.
        + split; auto. simpl. rewrite dict_get_set_same.
          eexists; split; eauto. apply mem_string_app_last. }
    destruct (IH _ _ _ _ _ H) as [nids [Hr [Hout [Gc Kn]]]].
    rewrite Hr. cbn [rbind]. exists (nid :: nids).
    split; auto. split.
    { rewrite Hout, <- app_assoc. reflexivity. }
    split.
    { apply grows_trans with fa.
      - split; auto. intros kt l0 H0. rewrite Hk. eauto.
      - now apply grows_trans with fc. }
    constructor; auto. now apply node_known_grows with fc.
Qed.

Lemma save_nodes_known g node_type func nodes :
  forall nids f,
    rmap (node_id g func) nodes = Ok nids ->
    Forall (node_known f node_type) nids ->
    forall ct ids,
      save_nodes g node_type func nodes ct ids f = (f, Ok (ids ++ nids)).
Proof.
  induction nodes as [|node rest IH]; intros nids f Hr Hk ct ids.
  - simpl in Hr. inversion Hr; subst. simpl. now rewrite app_nil_r.
  - apply rmap_node_id_inv in Hr.
    destruct Hr as [n [data [nid [nids' [En [Ed [Eh [Er ->]]]]]]]].
    cbn [save_nodes].
    rewrite En, bind_lift_ok, Ed, bind_lift_ok, Eh, bind_lift_ok.
    inversion Hk as [|? ? [Hn [l [Hl Hin]]] Hk']; subst.
    rewrite (bind_ok _ _ f _ _ (has_key_eq T_NODES nid f _ eq_refl)).
    rewrite Hn. cbn [negb]. rewrite bind_ret.
    rewrite (bind_ok _ _ _ _ _ (kind_ids_eq _ _ _ Hl)).
    rewrite Hin. cbn [negb]. rewrite bind_ret.
    rewrite (IH _ _ Er Hk'). now rewrite <- app_assoc.
Qed.

Lemma save_kinds_ok g ntd :
  forall node_ids f f' out,
    save_kinds g ntd node_ids f = (f', Ok out) ->
    kinds_ids g ntd node_ids = Ok out
    /\ grows f f'
    /\ Forall (kind_known f' g) ntd.
Proof.
  induction ntd as [|[node_type nodes] rest IH]; intros node_ids f f' out H.
  - simpl in H. inversion H; subst. repeat split; auto. apply grows_refl.
  - simpl in H. simpl kinds_ids.
    destruct (get_nodes_func_dict node_type) as [func|e] eqn:Ef;
      [|discriminate].
    rewrite bind_lift_ok in H. cbn [rbind].
    apply bind_ok_inv in H. destruct H as [fa [listed [Hl H]]].
    apply kind_ids_inv in Hl. destruct Hl as [-> El]. rename listed into l.
    apply bind_ok_inv in H. destruct H as [fb [nis [Hn H]]].
    apply save_nodes_ok in Hn. destruct Hn as [nids [Hr [Hout [Gb Kb]]]].
    simpl in Hout. subst nis.
    destruct (IH _ _ _ _ H) as [Hids [Gc Kc]].
    rewrite Hr. cbn [rbind]. split; auto. split.
    { now apply grows_trans with fb. }
    constructor; auto.
    apply kind_known_grows with fb; auto. split; simpl.
    + destruct Gb as [_ K]. destruct (K _ _ El) as [l' [Hl' _]]. eauto.
    + intros func' nids' Hf' Hr'. rewrite Ef in Hf'. inversion Hf'; subst.
      rewrite Hr in Hr'. inversion Hr'; subst. auto.
Qed.

Lemma save_kinds_known g ntd :
  forall node_ids f out,
    kinds_ids g ntd node_ids = Ok out ->
    Forall (kind_known f g) ntd ->
    save_kinds g ntd node_ids f = (f, Ok out).
Proof.
  induction ntd as [|[node_type nodes] rest IH]; intros node_ids f out Hk Hf.
  - simpl in *. inversion Hk; subst. reflexivity.
  - simpl in *.
    destruct (get_nodes_func_dict node_type) as [func|e] eqn:Ef;
      [|discriminate].
    rewrite bind_lift_ok. cbn [rbind] in Hk.
    destruct (rmap (node_id g func) nodes) as [nis|e] eqn:Er; [|discriminate].
    cbn [rbind] in Hk.
    inversion Hf as [|? ? [[l Hl] Hn] Hf']; subst. simpl in *.
    rewrite (bind_ok _ _ _ _ _ (kind_ids_eq _ _ _ Hl)).
    rewrite (bind_ok _ _ _ _ _
               (save_nodes_known g node_type func nodes nis f Er
                                 (Hn _ _ Ef Er) (List.length l) [])).
    simpl. now apply IH.
Qed.

(* ------------------------------------------------------------------ *)
(** ** The members of a table *)

Lemma members_with_table_same t g f : members t (with_table t g f) = g.
Proof. unfold members. now rewrite open_with_table_same. Qed.

Lemma members_with_table_other t t' g f :
  t <> t' -> members t (with_table t' g f) = members t f.
Proof. intros H. unfold members. now rewrite open_with_table_other. Qed.

Lemma members_frame touched kind f f' t :
  frame touched kind f f' -> ~ touched t -> members t f' = members t f.
Proof. intros [H _] Ht. unfold members. now rewrite H. Qed.

Lemma kind_frame touched f f' : frame touched false f f' -> KIND f' = KIND f.
Proof. intros [_ H]. now apply H. Qed.

Lemma bind_assoc {A B C} (m : M A) (k : A -> M B) (h : B -> M C) f :
  bind (bind m k) h f = bind m (fun a => bind (k a) h) f.
Proof. unfold bind. destruct (m f) as [f1 [a|e]]; reflexivity. Qed.

Lemma run_inv {A} (f f' : file) (a a' : A) :
  (f, Ok a) = (f', Ok a') -> f = f' /\ a = a'.
Proof. intros H. now inversion H. Qed.

Ltac run_inv H :=
  apply run_inv in H;
  let Hf := fresh in
  let Hv := fresh in
  destruct H as [Hf Hv]; try (injection Hv as ? ?); subst.

Ltac untouched :=
  first [ intros [X|X]; discriminate X | intros X; discriminate X ].

Section Inversions.

Implicit Types (t : table) (f : file) (g : group) (d : dataset).

Lemma create_dataset_inv t id_ v f f' u g :
  open_table t f = Ok g ->
  create_dataset t id_ v f = (f', Ok u) ->
  Dict.mem g id_ = false
  /\ f' = with_table t (g ++ [(id_, {| attrs := []; data := v |})]) f.
Proof.
  intros H. unfold create_dataset. run_m. rewrite H. cbv beta iota.
  destruct (Dict.mem g id_); intros E; inversion E; auto.
Qed.

Lemma dataset_of_inv t id_ f f' d g :
  open_table t f = Ok g ->
  dataset_of t id_ f = (f', Ok d) -> f' = f /\ Dict.get g id_ = Some d.
Proof.
  intros H. unfold dataset_of. run_m. rewrite H. cbv beta iota.
  unfold Dict.item. destruct (Dict.get g id_); simpl; intros E; inversion E.
  auto.
Qed.

Lemma get_attr_inv t id_ key f f' o g :
  open_table t f = Ok g ->
  get_attr t id_ key f = (f', Ok o) ->
  f' = f /\ exists d, Dict.get g id_ = Some d /\ Dict.get (attrs d) key = o.
Proof.
  intros H E. unfold get_attr in E. apply bind_ok_inv in E.
  destruct E as [f1 [d [Hd E]]]. apply (dataset_of_inv _ _ _ _ _ _ H) in Hd.
  destruct Hd as [-> Hd]. inversion E; subst. eauto.
Qed.

Lemma append_id_inv t key id_ f f' u g :
  open_table t f = Ok g ->
  append_id t key id_ f = (f', Ok u) ->
  exists d, Dict.get g key = Some d
            /\ f' = with_table t
                      (Dict.set g key
                         {| attrs := attrs d;
                            data := ids_value (ids_of (data d) ++ [id_]) |}) f.
Proof.
  intros H. unfold append_id. run_m. rewrite H. cbv beta iota.
  unfold Dict.item. destruct (Dict.get g key) as [d|]; simpl; intros E;
    inversion E. eauto.
Qed.

End Inversions.

Lemma ids_of_ids_value l : ids_of (ids_value l) = l.
Proof.
  unfold ids_of, ids_value. induction l as [|x l IH]; simpl; auto.
  now rewrite IH.
Qed.

Lemma name_in_get_names g id_ d n :
  Dict.get g id_ = Some d -> Dict.get (attrs d) "name" = Some n ->
  name_in n (get_names g) = true.
Proof.
  unfold name_in, get_names. induction g as [|[k v] rest IH]; simpl.
  - discriminate.
  - destruct (String.eqb k id_).
    + intros E Hn. inversion E; subst. rewrite Hn.
      now rewrite String.eqb_refl.
    + intros E Hn. rewrite (IH E Hn). apply orb_true_r.
Qed.

(* ------------------------------------------------------------------ *)
(** ** The other steps of a save *)

Section MoreSteps.

Implicit Types (f : file) (c : classification).

Lemma save_info_ok s mat_id user_ f f' ntd_ :
  save_info s mat_id user_ f = (f', Ok ntd_) ->
  exists d, Dict.get (members (T_INFO (class_of s)) f') mat_id = Some d
            /\ data d = ntd_.
Proof.
  intros H.
  destruct (Dict.get (members (T_INFO (class_of s)) f) mat_id) as [d|] eqn:E.
  - rewrite (save_info_known _ _ _ _ _ E) in H. run_inv H. eauto.
  - apply dict_mem_false in E. rewrite (save_info_new _ _ _ _ E) in H.
    run_inv H. exists (info_record s user_).
    rewrite members_with_table_same. split; auto.
    now apply dict_get_app_fresh.
Qed.

Lemma save_data_known c values_id node_values preset_name f :
  Dict.mem (members (T_DATA c) f) values_id = true ->
  save_data c values_id node_values preset_name f = (f, Ok tt).
Proof.
  intros H. unfold save_data.
  rewrite (bind_ok _ _ f _ _ (has_key_eq (T_DATA c) values_id f _ eq_refl)).
  change (DATA (type_file_of c f)) with (members (T_DATA c) f).
  now rewrite H.
Qed.

Lemma save_data_ok c values_id node_values preset_name f f' u :
  save_data c values_id node_values preset_name f = (f', Ok u) ->
  Dict.mem (members (T_DATA c) f') values_id = true
  /\ forall k, Dict.mem (members (T_DATA c) f) k = true ->
               Dict.mem (members (T_DATA c) f') k = true.
Proof.
  intros H.
  destruct (Dict.mem (members (T_DATA c) f) values_id) eqn:E.
  - rewrite (save_data_known _ _ _ _ _ E) in H. now run_inv H.
  - unfold save_data in H.
    rewrite (bind_ok _ _ f _ _ (has_key_eq (T_DATA c) values_id f _ eq_refl))
      in H.
    change (DATA (type_file_of c f)) with (members (T_DATA c) f) in H.
    rewrite E in H. cbn [negb] in H.
    destruct (Json.reload node_values) as [payload|e];
      [|rewrite bind_lift_raise in H; discriminate].
    rewrite bind_lift_ok in H.
    rewrite (bind_ok _ _ _ _ _
               (create_dataset_eq (T_DATA c) values_id payload f _ eq_refl E))
      in H.
    apply bind_ok_inv in H. destruct H as [f1 [values_name [Hs H]]].
    match type of Hs with
    | series_name ?t ?n ?f0 = _ =>
        pose proof (series_name_pure t n f0) as Hp
    end.
    rewrite Hs in Hp. cbn [fst] in Hp. subst f1.
    rewrite (create_then_set (T_DATA c) values_id payload "name" values_name
               _ _ _ (open_with_table_same _ _ _) E) in H.
    rewrite with_table_twice in H. run_inv H.
    rewrite members_with_table_same. split.
    + unfold Dict.mem. now rewrite dict_get_app_fresh.
    + intros k. apply dict_mem_app.
Qed.

Lemma save_node_stack_known node_ids f ni_id :
  hash_dict (node_ids_dict node_ids) = Ok ni_id ->
  Dict.mem (NODE_STACK f) ni_id = true ->
  save_node_stack node_ids f = (f, Ok ni_id).
Proof.
  intros Hh H. unfold save_node_stack. rewrite Hh, bind_lift_ok.
  rewrite (bind_ok _ _ f _ _ (has_key_eq T_NODE_STACK ni_id f _ eq_refl)).
  now rewrite H.
Qed.

Lemma save_node_stack_ok node_ids f f' ni_id :
  save_node_stack node_ids f = (f', Ok ni_id) ->
  hash_dict (node_ids_dict node_ids) = Ok ni_id
  /\ Dict.mem (NODE_STACK f') ni_id = true.
Proof.
  unfold save_node_stack. intros H.
  destruct (hash_dict (node_ids_dict node_ids)) as [i|e];
    [|rewrite bind_lift_raise in H; discriminate].
  rewrite bind_lift_ok in H.
  rewrite (bind_ok _ _ f _ _ (has_key_eq T_NODE_STACK i f _ eq_refl)) in H.
  destruct (Dict.mem (NODE_STACK f) i) eqn:E; cbn [negb] in H.
  - run_inv H. auto.
  - rewrite (bind_ok _ _ _ _ _
               (create_dataset_eq T_NODE_STACK i _ f _ eq_refl E)) in H.
    run_inv H. split; auto.
    change (NODE_STACK ?x) with (members T_NODE_STACK x).
    rewrite members_with_table_same. unfold Dict.mem.
    now rewrite dict_get_app_fresh.
Qed.

Lemma save_transaction_known c mat_id values_id ni_id preset_name f pid d :
  hash_list [VStr mat_id; VStr values_id; VStr ni_id] = Ok pid ->
  Dict.get (members (T_TRANSACTIONS c) f) pid = Some d ->
  save_transaction c mat_id values_id ni_id preset_name f
  = (f, Ok (pid, Dict.get (attrs d) "name")).
Proof.
  intros Hh H. unfold save_transaction. rewrite Hh, bind_lift_ok.
  rewrite (bind_ok _ _ f _ _ (has_key_eq (T_TRANSACTIONS c) pid f _ eq_refl)).
  change (TRANSACTIONS (type_file_of c f))
    with (members (T_TRANSACTIONS c) f).
  assert (Dict.mem (members (T_TRANSACTIONS c) f) pid = true) as ->.
  { apply dict_mem_get. eauto. }
  cbn [negb]. rewrite bind_ret.
  now rewrite (bind_ok _ _ f _ _
                 (get_attr_eq (T_TRANSACTIONS c) pid "name" f _ _ eq_refl H)).
Qed.

Lemma save_transaction_ok c mat_id values_id ni_id preset_name f f' pid pname :
  save_transaction c mat_id values_id ni_id preset_name f
  = (f', Ok (pid, pname)) ->
  hash_list [VStr mat_id; VStr values_id; VStr ni_id] = Ok pid
  /\ (exists d, Dict.get (members (T_TRANSACTIONS c) f') pid = Some d
                /\ Dict.get (attrs d) "name" = pname)
  /\ (Dict.mem (members (T_TRANSACTIONS c) f) pid = false ->
      pname = Some preset_name)
  /\ (Dict.mem (members (T_TRANSACTIONS c) f) pid = true -> f' = f).
Proof.
  intros H.
  destruct (hash_list [VStr mat_id; VStr values_id; VStr ni_id]) as [i|e]
    eqn:Hh; unfold save_transaction in H; rewrite Hh in H;
    [|rewrite bind_lift_raise in H; discriminate].
  rewrite bind_lift_ok in H.
  destruct (Dict.get (members (T_TRANSACTIONS c) f) i) as [d|] eqn:E.
  - fold (save_transaction c mat_id values_id ni_id preset_name) in H.
    pose proof (save_transaction_known c _ _ _ preset_name _ _ _ Hh E) as K.
    unfold save_transaction in K. rewrite Hh, bind_lift_ok in K.
    rewrite K in H. run_inv H.
    split; auto. split; eauto. split; auto.
    unfold Dict.mem. rewrite E. discriminate.
  - apply dict_mem_false in E.
    rewrite (bind_ok _ _ f _ _ (has_key_eq (T_TRANSACTIONS c) i f _ eq_refl))
      in H.
    change (TRANSACTIONS (type_file_of c f))
      with (members (T_TRANSACTIONS c) f) in H.
    rewrite E in H. cbn [negb] in H.
    rewrite bind_assoc in H.
    rewrite (bind_ok _ _ _ _ _
               (create_dataset_eq (T_TRANSACTIONS c) i _ f _ eq_refl E)) in H.
    rewrite (bind_ok _ _ _ _ _
               (create_then_set (T_TRANSACTIONS c) i _ "name" preset_name
                  _ _ _ (open_with_table_same _ _ _) E)) in H.
    rewrite with_table_twice in H.
    rewrite (bind_ok _ _ _ _ _
               (get_attr_eq (T_TRANSACTIONS c) i "name" _ _ _
                  (open_with_table_same _ _ _)
                  (dict_get_app_fresh _ _ _ E))) in H.
    run_inv H. split; auto. split.
    + eexists. rewrite members_with_table_same. split.
      * now apply dict_get_app_fresh.
      * reflexivity.
    + split; auto. intros X. rewrite X in E. discriminate.
Qed.

End MoreSteps.

(* ------------------------------------------------------------------ *)
(** ** The links of a preset *)

Lemma full_is_not_values c : T_FULL c <> T_VALUES c.
Proof. discriminate. Qed.

Lemma values_is_not_full c : T_VALUES c <> T_FULL c.
Proof. discriminate. Qed.

Lemma link_preset_known c mat_id pid values_id f :
  linked c mat_id pid values_id f ->
  link_preset c mat_id pid values_id f = (f, Ok false).
Proof.
  intros [pf [pv [Hf [Hp [Hv Hi]]]]]. unfold link_preset.
  rewrite (bind_ok _ _ f _ _ (has_key_eq (T_FULL c) mat_id f _ eq_refl)).
  change (FULL (type_file_of c f)) with (members (T_FULL c) f).
  assert (Dict.mem (members (T_FULL c) f) mat_id = true) as ->.
  { apply dict_mem_get. eauto. }
  cbn [negb].
  rewrite (bind_ok _ _ f _ _
             (dataset_of_eq (T_FULL c) mat_id f _ _ eq_refl Hf)).
  rewrite Hp. cbn [negb]. rewrite bind_ret.
  rewrite (bind_ok _ _ f _ _
             (dataset_of_eq (T_VALUES c) mat_id f _ _ eq_refl Hv)).
  rewrite Hi. reflexivity.
Qed.

Lemma link_preset_ok c mat_id pid values_id f f' b :
  link_preset c mat_id pid values_id f = (f', Ok b) ->
  linked c mat_id pid values_id f'.
Proof.
  unfold link_preset. intros H.
  rewrite (bind_ok _ _ f _ _ (has_key_eq (T_FULL c) mat_id f _ eq_refl)) in H.
  change (FULL (type_file_of c f)) with (members (T_FULL c) f) in H.
  destruct (Dict.mem (members (T_FULL c) f) mat_id) eqn:E; cbn [negb] in H.
  - apply dict_mem_get in E. destruct E as [pf E].
    rewrite (bind_ok _ _ f _ _
               (dataset_of_eq (T_FULL c) mat_id f _ _ eq_refl E)) in H.
    apply bind_ok_inv in H. destruct H as [f1 [saved [H1 H]]].
    assert (exists pf', Dict.get (members (T_FULL c) f1) mat_id = Some pf'
                        /\ mem_string pid (ids_of (data pf')) = true)
      as [pf' [Hf Hp]].
    { destruct (mem_string pid (ids_of (data pf))) eqn:M; cbn [negb] in H1.
      - run_inv H1. eauto.
      - rewrite (bind_ok _ _ f _ _
                   (append_id_eq (T_FULL c) mat_id pid f _ _ eq_refl E)) in H1.
        run_inv H1.
        eexists. rewrite members_with_table_same, dict_get_set_same.
        split; [reflexivity|]. cbn [data]. rewrite ids_of_ids_value.
        apply mem_string_app_last. }
    apply bind_ok_inv in H. destruct H as [f2 [pv [H2 H]]].
    apply (dataset_of_inv (T_VALUES c) _ f1 _ _ _ eq_refl) in H2.
    destruct H2 as [-> H2].
    change (VALUES (type_file_of c f1)) with (members (T_VALUES c) f1) in H2.
    destruct (mem_string values_id (ids_of (data pv))) eqn:M; cbn [negb] in H.
    + run_inv H. exists pf', pv. repeat split; auto.
    + rewrite (bind_ok _ _ f1 _ _
                 (append_id_eq (T_VALUES c) mat_id values_id f1 _ _
                    eq_refl H2)) in H.
      run_inv H. exists pf'. eexists.
      rewrite members_with_table_other by discriminate.
      rewrite members_with_table_same, dict_get_set_same.
      repeat split; auto. cbn [data]. rewrite ids_of_ids_value.
      apply mem_string_app_last.
  - rewrite (bind_ok _ _ f _ _
               (create_dataset_eq (T_FULL c) mat_id _ f _ eq_refl E)) in H.
    apply bind_ok_inv in H. destruct H as [f1 [u [H1 H]]].
    apply (create_dataset_inv _ _ _ _ _ _ _
             (open_with_table_other _ _ _ _ (values_is_not_full c))) in H1.
    destruct H1 as [Hv ->]. run_inv H.
    do 2 eexists.
    rewrite members_with_table_other by discriminate.
    rewrite !members_with_table_same.
    rewrite (dict_get_app_fresh _ _ _ E), (dict_get_app_fresh _ _ _ Hv).
    split; [reflexivity|]. split.
    { cbn [data]. rewrite ids_of_ids_value. apply (mem_string_app_last _ []). }
    split; [reflexivity|].
    cbn [data]. rewrite ids_of_ids_value. apply (mem_string_app_last _ []).
Qed.

(* ------------------------------------------------------------------ *)
(** ** A state of a graph that is saved in the file *)

Lemma check_preset_name_free policy c preset_name f :
  name_in preset_name (get_names (members (T_TRANSACTIONS c) f)) = false ->
  check_preset_name policy c preset_name f = (f, Ok preset_name).
Proof.
  intros H. unfold check_preset_name.
  rewrite (bind_ok _ _ f _ _ (names_of_eq (T_TRANSACTIONS c) f _ eq_refl)).
  change (TRANSACTIONS (type_file_of c f))
    with (members (T_TRANSACTIONS c) f).
  now rewrite H.
Qed.

Lemma check_preset_name_pure policy c preset_name f f' r :
  check_preset_name policy c preset_name f = (f', r) -> f' = f.
Proof.
  unfold check_preset_name.
  rewrite (bind_ok _ _ f _ _ (names_of_eq (T_TRANSACTIONS c) f _ eq_refl)).
  destruct (name_in preset_name (get_names (TRANSACTIONS (type_file_of c f)))).
  - destruct policy; intros H; apply (f_equal fst) in H; now cbn in H.
  - intros H. apply (f_equal fst) in H. now cbn in H.
Qed.

(** A state that is saved is found again, under any name that is free:
    nothing is written and the preset that is there is reported. *)
Lemma graph_processing_known policy s preset_name user_ f pid pname :
  saved_in s f pid pname ->
  name_in preset_name (get_names (members (T_TRANSACTIONS (class_of s)) f))
  = false ->
  graph_processing policy s preset_name user_ f = (f, Ok (false, pname, pid)).
Proof.
  intros [mat_id [nv [dinfo [ntd [node_ids [ni_id [dtrans
            [Hg [Hv [Hi [Hd [Hk [Hids [Hkn [Hh [Hs [Hp [Ht [Hn Hl]]]]]]]]]]]]]]]]]]]
         Hfree.
  unfold graph_processing. cbv zeta.
  rewrite (bind_ok _ _ _ _ _ (check_preset_name_free policy _ _ _ Hfree)).
  rewrite Hg, bind_lift_ok, Hv, bind_lift_ok.
  rewrite (bind_ok _ _ _ _ _ (save_info_known s mat_id user_ f _ Hi)).
  rewrite (bind_ok _ _ _ _ _ (save_data_known _ _ (fst nv) preset_name _ Hd)).
  rewrite Hk, bind_lift_ok.
  rewrite (bind_ok _ _ _ _ _ (save_kinds_known _ _ _ _ _ Hids Hkn)).
  rewrite (bind_ok _ _ _ _ _ (save_node_stack_known _ _ _ Hh Hs)).
  rewrite (bind_ok _ _ _ _ _
             (save_transaction_known _ _ _ _ preset_name _ _ _ Hp Ht)).
  cbn [fst snd].
  rewrite (bind_ok _ _ _ _ _ (link_preset_known _ _ _ _ _ Hl)).
  now rewrite Hn.
Qed.

Lemma grows_same f f' : NODES f' = NODES f -> KIND f' = KIND f -> grows f f'.
Proof.
  intros Hn Hk. split.
  - intros k. now rewrite Hn.
  - intros kt l. rewrite Hk. eauto.
Qed.

Lemma graph_processing_steps policy s preset_name user_ f f' b pname pid :
  graph_processing policy s preset_name user_ f = (f', Ok (b, pname, pid)) ->
  steps policy s preset_name user_ f f' b pname pid.
Proof.
  unfold graph_processing. cbv zeta. intros H.
  apply bind_ok_inv in H. destruct H as [f0 [name [H0 H]]].
  pose proof (check_preset_name_pure _ _ _ _ _ _ H0) as E0. subst f0.
  destruct (graph_id (tree_of s)) as [mat_id|e] eqn:Hg;
    [|rewrite bind_lift_raise in H; discriminate].
  rewrite bind_lift_ok in H.
  destruct (values_of s) as [nv|e] eqn:Hv;
    [|rewrite bind_lift_raise in H; discriminate].
  rewrite bind_lift_ok in H.
  apply bind_ok_inv in H. destruct H as [f1 [ntd_ [H1 H]]].
  apply bind_ok_inv in H. destruct H as [f2 [[] [H2 H]]].
  destruct (kinds_of ntd_) as [ntd|e] eqn:Hk;
    [|rewrite bind_lift_raise in H; discriminate].
  rewrite bind_lift_ok in H.
  apply bind_ok_inv in H. destruct H as [f3 [node_ids [H3 H]]].
  apply bind_ok_inv in H. destruct H as [f4 [ni_id [H4 H]]].
  apply bind_ok_inv in H. destruct H as [f5 [[pid' pname'] [H5 H]]].
  cbn [fst snd] in H.
  apply bind_ok_inv in H. destruct H as [f6 [saved [H6 H]]].
  run_inv H.
  exact (Steps policy s preset_name user_ f f' b pname pid
           name mat_id nv ntd_ ntd node_ids ni_id f1 f2 f3 f4 f5
           H0 Hg Hv H1 H2 Hk H3 H4 H5 H6).
Qed.

(** A save that succeeds leaves the state saved in the file; a transaction
    it creates shows the name the check of the proposed name returned. *)
Lemma graph_processing_inv policy s preset_name user_ f f' b pname pid :
  graph_processing policy s preset_name user_ f = (f', Ok (b, pname, pid)) ->
  saved_in s f' pid pname
  /\ exists name,
      check_preset_name policy (class_of s) preset_name f = (f, Ok name)
      /\ (Dict.mem (members (T_TRANSACTIONS (class_of s)) f) pid = false ->
          pname = Some name).
Proof.
  intros H. apply graph_processing_steps in H.
  destruct H as [name mat_id nv ntd_ ntd node_ids ni_id f1 f2 f3 f4 f5
                   H0 Hg Hv H1 H2 Hk H3 H4 H5 H6].
  pose proof (touches_frame _ _ _ _ _ _ (touches_save_info _ _ _) H1) as F1.
  pose proof (touches_frame _ _ _ _ _ _ (touches_save_data _ _ _ _) H2) as F2.
  pose proof (touches_frame _ _ _ _ _ _ (touches_save_kinds _ _ _) H3) as F3.
  pose proof (touches_frame _ _ _ _ _ _ (touches_save_node_stack _) H4) as F4.
  pose proof (touches_frame _ _ _ _ _ _
                (touches_save_transaction _ _ _ _ _) H5) as F5.
  pose proof (touches_frame _ _ _ _ _ _ (touches_link_preset _ _ _ _) H6)
    as F6.
  apply save_info_ok in H1. destruct H1 as [dinfo [Hi Hd]]. subst ntd_.
  apply save_data_ok in H2. destruct H2 as [H2 _].
  apply save_kinds_ok in H3. destruct H3 as [Hids [_ Hkn]].
  apply save_node_stack_ok in H4. destruct H4 as [Hh Hs].
  apply save_transaction_ok in H5.
  destruct H5 as [Hp [[dtrans [Ht Hn]] [Hnew _]]].
  apply link_preset_ok in H6.
  split.
  2:{ exists name. split; auto. intros Hm. apply Hnew.
      rewrite (members_frame _ _ _ _ _ F4), (members_frame _ _ _ _ _ F3),
        (members_frame _ _ _ _ _ F2), (members_frame _ _ _ _ _ F1);
        auto; untouched. }
  exists mat_id, nv, dinfo, ntd, node_ids, ni_id, dtrans.
  repeat split; auto.
  - rewrite (members_frame _ _ _ _ _ F6), (members_frame _ _ _ _ _ F5),
      (members_frame _ _ _ _ _ F4), (members_frame _ _ _ _ _ F3),
      (members_frame _ _ _ _ _ F2); auto; untouched.
  - rewrite (members_frame _ _ _ _ _ F6), (members_frame _ _ _ _ _ F5),
      (members_frame _ _ _ _ _ F4), (members_frame _ _ _ _ _ F3);
      auto; untouched.
  - eapply Forall_impl; [|exact Hkn]. intros kn.
    apply kind_known_grows. apply grows_same.
    + change (NODES ?x) with (members T_NODES x).
      rewrite (members_frame _ _ _ _ _ F6), (members_frame _ _ _ _ _ F5),
        (members_frame _ _ _ _ _ F4); auto; untouched.
    + now rewrite (kind_frame _ _ _ F6), (kind_frame _ _ _ F5),
        (kind_frame _ _ _ F4).
  - change (NODE_STACK ?x) with (members T_NODE_STACK x).
    rewrite (members_frame _ _ _ _ _ F6), (members_frame _ _ _ _ _ F5);
      auto; untouched.
  - rewrite (members_frame _ _ _ _ _ F6); auto; untouched.
Qed.

Lemma graph_processing_ok policy s preset_name user_ f f' b pname pid :
  graph_processing policy s preset_name user_ f = (f', Ok (b, pname, pid)) ->
  saved_in s f' pid pname.
Proof. intros H. now apply graph_processing_inv in H. Qed.

Lemma check_preset_name_refuse c preset_name f name :
  check_preset_name Refuse c preset_name f = (f, Ok name) ->
  name = preset_name.
Proof.
  unfold check_preset_name.
  rewrite (bind_ok _ _ f _ _ (names_of_eq (T_TRANSACTIONS c) f _ eq_refl)).
  destruct (name_in preset_name (get_names (TRANSACTIONS (type_file_of c f)))).
  - discriminate.
  - intros H. run_inv H. reflexivity.
Qed.

Lemma preset_processing_eq s preset_name user_ f :
  preset_processing s preset_name user_ f
  = bind (graph_processing Refuse s preset_name user_)
         (fun r => ret (fst r)) f.
Proof. destruct s; reflexivity. Qed.

Lemma preset_processing_material m preset_name user_ :
  preset_processing (Of_material m) preset_name user_
  = material_preset_processing m preset_name user_.
Proof. reflexivity. Qed.

Lemma preset_processing_inv s preset_name user_ f f' b pname :
  preset_processing s preset_name user_ f = (f', Ok (b, pname)) ->
  exists pid,
    graph_processing Refuse s preset_name user_ f = (f', Ok (b, pname, pid)).
Proof.
  rewrite preset_processing_eq. intros H. apply bind_ok_inv in H.
  destruct H as [f1 [[[b' pn'] pid] [H1 H]]]. run_inv H. eauto.
Qed.


(* ------------------------------------------------------------------ *)
(** ** C1: saving the same state again *)

(** C1, as the code has it. After a material or a node group was saved as
    a preset, saving the unchanged state again under a name that no
    transaction of the table shows writes nothing and returns
    [created = False] with the id and the name of the preset that is
    there; under a name that a transaction shows, it is refused with
    [NameExistsError] and writes nothing. The proposed name of the first
    save is such a name whenever that save created the transaction. *)
Theorem C1_saved_state_is_found_again (s : subject)
  (preset_name user_ : string) (f f1 : file) (created : bool)
  (pname : option string) :
  preset_processing s preset_name user_ f = (f1, Ok (created, pname)) ->
  exists pid,
    graph_processing Refuse s preset_name user_ f
    = (f1, Ok (created, pname, pid))
    /\ display_name (members (T_TRANSACTIONS (class_of s)) f1) pid = pname
    /\ (forall name user',
          taken s name f1 = false ->
          graph_processing Refuse s name user' f1
          = (f1, Ok (false, pname, pid))
          /\ preset_processing s name user' f1 = (f1, Ok (false, pname)))
    /\ (forall name user',
          taken s name f1 = true ->
          preset_processing s name user' f1
          = (f1, Raise (name_exists name)))
    /\ (Dict.mem (members (T_TRANSACTIONS (class_of s)) f) pid = false ->
        pname = Some preset_name /\ taken s preset_name f1 = true).
Proof.
  intros H. apply preset_processing_inv in H. destruct H as [pid H].
  exists pid. split; auto.
  apply graph_processing_inv in H. destruct H as [Hs [name [Hc Hnew]]].
  apply check_preset_name_refuse in Hc. subst name.
  assert (exists dtrans,
             Dict.get (members (T_TRANSACTIONS (class_of s)) f1) pid
             = Some dtrans
             /\ Dict.get (attrs dtrans) "name" = pname) as [dtrans [Ht Hn]].
  { destruct Hs as [? [? [? [? [? [? [dtrans Hs]]]]]]].
    exists dtrans. tauto. }
  split; [|split; [|split]].
  - unfold display_name. now rewrite Ht.
  - intros name user' Hfree.
    pose proof (graph_processing_known Refuse s name user' f1 pid pname
                  Hs Hfree) as K.
    split; auto. rewrite preset_processing_eq.
    now rewrite (bind_ok _ _ _ _ _ K).
  - intros name user' Htaken. rewrite preset_processing_eq.
    unfold bind. now rewrite (graph_processing_refuses s name user' f1 Htaken).
  - intros Hm. specialize (Hnew Hm). split; auto.
    unfold taken. apply (name_in_get_names _ pid dtrans); auto.
    now rewrite Hn.
Qed.

(* ------------------------------------------------------------------ *)
(** ** C4: one graph identity, two values records *)




(* ------------------------------------------------------------------ *)
(** ** C6: importing a document whose preset is in the file *)

Section ImportFrames.

Variable c : classification.

Ltac touches_import :=
  touches_auto; try (unfold but_transactions; discriminate).

Lemma touches_has_value_key touched kind t v :
  touches touched kind (has_value_key t v).
Proof. destruct v; simpl; touches_auto. Qed.

Lemma touches_series_value_name touched kind t v :
  touches touched kind (series_value_name t v).
Proof. unfold series_value_name. touches_auto. Qed.

Lemma touches_import_nodes node_type nodes :
  touches (but_transactions c) true (import_nodes node_type nodes).
Proof.
  induction nodes as [|node rest IH]; cbn [import_nodes].
  - apply touches_ret.
  - touches_import;
      try apply touches_has_value_key;
      try apply touches_series_value_name;
      touches_import.
Qed.

Lemma touches_import_kinds ks :
  touches (but_transactions c) true (import_kinds ks).
Proof.
  induction ks as [|[node_type nodes] rest IH]; cbn [import_kinds].
  - apply touches_ret.
  - touches_import. apply touches_import_nodes.
Qed.

Lemma touches_import_records d pid mat_id values_id ni_id pname_ :
  touches (but_transactions c) true
          (import_records c d pid mat_id values_id ni_id pname_).
Proof.
  unfold import_records, link_preset.
  touches_import; try apply touches_import_kinds; touches_import.
Qed.

End ImportFrames.

Lemma series_value_name_pure t v f : fst (series_value_name t v f) = f.
Proof.
  unfold series_value_name.
  destruct t as [[]|[]|[]|[]|[]| | | |p| |]; run_m; simpl;
    try (destruct (Dict.item (PHYSICS f) p); simpl; auto);
    match goal with
    | |- context [value_name_in v ?n] => destruct (value_name_in v n)
    end; auto;
    destruct v; simpl; auto;
    match goal with
    | |- context [get_match_series_highest ?s ?n] =>
        destruct (get_match_series_highest s n)
    end; auto.
Qed.

(** The document names a preset id that is in the table: nothing is
    written, and the name the transaction shows is returned. *)
Lemma import_known c preset_data f d pid ds :
  read_fields preset_data = Ok d ->
  f_id d = VStr pid ->
  Dict.get (members (T_TRANSACTIONS c) f) pid = Some ds ->
  import_preset_data c preset_data f
  = (f, Ok (false, Dict.get (attrs ds) "name")).
Proof.
  intros Hd Hp Hg. unfold import_preset_data.
  rewrite Hd, bind_lift_ok, Hp. cbn [has_value_key as_str].
  rewrite (bind_ok _ _ f _ _ (has_key_eq (T_TRANSACTIONS c) pid f _ eq_refl)).
  change (TRANSACTIONS (type_file_of c f))
    with (members (T_TRANSACTIONS c) f).
  assert (Dict.mem (members (T_TRANSACTIONS c) f) pid = true) as ->.
  { apply dict_mem_get. eauto. }
  rewrite bind_lift_ok.
  now rewrite (bind_ok _ _ f _ _
                 (get_attr_eq (T_TRANSACTIONS c) pid "name" f _ _ eq_refl Hg)).
Qed.

(** An import of a new preset either fails before it writes, or leaves the
    transaction of the preset in the file, under the name it returns. *)
Lemma create_dataset_known t id_ v f g :
  open_table t f = Ok g -> Dict.mem g id_ = true ->
  create_dataset t id_ v f = (f, Raise ValueError).
Proof.
  intros H Hm. unfold create_dataset. run_m. rewrite H. cbv beta iota.
  now rewrite Hm.
Qed.

Ltac fails_unchanged :=
  left; split; [reflexivity|eexists; reflexivity].

Lemma import_new_transaction c d f :
  (fst (import_new c d f) = f /\ exists e, snd (import_new c d f) = Raise e)
  \/ exists pid ds,
      f_id d = VStr pid
      /\ Dict.get (members (T_TRANSACTIONS c) (fst (import_new c d f))) pid
         = Some ds
      /\ forall r, snd (import_new c d f) = Ok r ->
                   r = (true, Dict.get (attrs ds) "name").
Proof.
  unfold import_new.
  pose proof (series_value_name_pure (T_TRANSACTIONS c) (f_name d) f) as Hs.
  destruct (series_value_name (T_TRANSACTIONS c) (f_name d) f)
    as [f0 [preset_name|e]] eqn:Es; cbn [fst] in Hs; subst f0.
  2:{ rewrite (bind_raise _ _ _ _ _ Es). fails_unchanged. }
  rewrite (bind_ok _ _ _ _ _ Es).
  destruct (as_str (f_id d)) as [pid|e] eqn:Ep;
    [|rewrite bind_lift_raise; fails_unchanged].
  rewrite bind_lift_ok.
  destruct (as_str (f_graph_id d)) as [mat_id|e];
    [|rewrite bind_lift_raise; fails_unchanged].
  rewrite bind_lift_ok.
  destruct (as_str (f_values_id d)) as [values_id|e];
    [|rewrite bind_lift_raise; fails_unchanged].
  rewrite bind_lift_ok.
  destruct (as_str (f_stack_id d)) as [ni_id|e];
    [|rewrite bind_lift_raise; fails_unchanged].
  rewrite bind_lift_ok.
  assert (f_id d = VStr pid) as Hpid.
  { destruct (f_id d); try discriminate. simpl in Ep. congruence. }
  destruct (Dict.mem (members (T_TRANSACTIONS c) f) pid) eqn:E.
  - left.
    rewrite (bind_raise _ _ _ _ _
               (create_dataset_known (T_TRANSACTIONS c) pid _ f _ eq_refl E)). split; [reflexivity|eexists; reflexivity].
  - right. exists pid.
    rewrite (bind_ok _ _ _ _ _
               (create_dataset_eq (T_TRANSACTIONS c) pid _ f _ eq_refl E)).
    destruct (as_str preset_name) as [pname_|e].
    + rewrite bind_lift_ok.
      rewrite (bind_ok _ _ _ _ _
                 (create_then_set (T_TRANSACTIONS c) pid _ "name" pname_
                    _ _ _ (open_with_table_same _ _ _) E)).
      rewrite with_table_twice.
      rewrite (bind_ok _ _ _ _ _
                 (get_attr_eq (T_TRANSACTIONS c) pid "name" _ _ _
                    (open_with_table_same _ _ _)
                    (dict_get_app_fresh _ _ _ E))).
      eexists. split; [exact Hpid|]. split.
      * match goal with
        | |- context [bind ?m ?k ?f0] =>
            pose proof (touches_bind (but_transactions c) true m k
                          (touches_import_records c _ _ _ _ _ _)
                          (fun _ => touches_ret _ _ _) f0) as F
        end.
        rewrite (members_frame _ _ _ _ (T_TRANSACTIONS c) F).
        -- rewrite members_with_table_same.
           apply (dict_get_app_fresh _ _ _ E).
        -- intros X. now apply X.
      * intros r Hr.
        match type of Hr with
        | snd (bind ?m ?k ?f0) = _ =>
            unfold bind in Hr; destruct (m f0) as [f1 [[]|e]]
        end; simpl in Hr; [|discriminate].
        injection Hr as <-. reflexivity.
    + rewrite bind_lift_raise. eexists. split; [exact Hpid|]. split.
      * cbn [fst]. rewrite members_with_table_same.
        apply (dict_get_app_fresh _ _ _ E).
      * intros r Hr. discriminate.
Qed.

(** C6. An import of a material or geometry-node document whose preset id
    is in the transaction table returns [created = False] with the name the
    transaction shows and writes nothing. So a document imported twice
    leaves the file as the first import left it, and after an import that
    succeeded the second one returns the name the first one returned. *)
Theorem C6_import_of_a_known_preset_writes_nothing (c : classification)
  (preset_data : value) (f : file) :
  (forall d pid ds,
      read_fields preset_data = Ok d ->
      f_id d = VStr pid ->
      Dict.get (members (T_TRANSACTIONS c) f) pid = Some ds ->
      import_preset_data c preset_data f
      = (f, Ok (false, Dict.get (attrs ds) "name")))
  /\ fst (import_preset_data c preset_data
            (fst (import_preset_data c preset_data f)))
     = fst (import_preset_data c preset_data f)
  /\ (forall f1 created pname,
         import_preset_data c preset_data f = (f1, Ok (created, pname)) ->
         import_preset_data c preset_data f1 = (f1, Ok (false, pname))).
Proof.
  split; [intros d pid ds; apply import_known|].
  assert (forall f1 r,
             import_preset_data c preset_data f = (f1, r) ->
             f1 = f
             \/ exists d pid ds,
                 read_fields preset_data = Ok d
                 /\ f_id d = VStr pid
                 /\ Dict.get (members (T_TRANSACTIONS c) f1) pid = Some ds
                 /\ forall b pname, r = Ok (b, pname) ->
                                    pname = Dict.get (attrs ds) "name") as K.
  { intros f1 r. unfold import_preset_data.
    destruct (read_fields preset_data) as [d|e] eqn:Hd.
    2:{ rewrite bind_lift_raise. intros H. left. now inversion H. }
    rewrite bind_lift_ok.
    destruct (f_id d) as [| | | |pid| | | | |] eqn:Hp; cbn [has_value_key];
      try (rewrite bind_ret; cbn iota; intros H;
           destruct (import_new_transaction c d f)
             as [[Hf _]|[pid [ds [Hx _]]]];
           [left; rewrite H in Hf; exact Hf|congruence]).
    rewrite (bind_ok _ _ f _ _
               (has_key_eq (T_TRANSACTIONS c) pid f _ eq_refl)).
    change (TRANSACTIONS (type_file_of c f))
      with (members (T_TRANSACTIONS c) f).
    destruct (Dict.mem (members (T_TRANSACTIONS c) f) pid) eqn:E.
    - apply dict_mem_get in E. destruct E as [ds E].
      cbn [as_str]. rewrite bind_lift_ok.
      rewrite (bind_ok _ _ f _ _
                 (get_attr_eq (T_TRANSACTIONS c) pid "name" f _ _ eq_refl E)).
      intros H. left. now inversion H.
    - intros H.
      destruct (import_new_transaction c d f)
        as [[Hf _]|[pid' [ds [Hx [Hg Hr]]]]].
      + left. rewrite H in Hf. exact Hf.
      + right. rewrite H in Hg, Hr. cbn [fst snd] in Hg, Hr.
        exists d, pid', ds. repeat split; auto.
        intros b pname ->. specialize (Hr _ eq_refl). congruence. }
  split.
  - destruct (import_preset_data c preset_data f) as [f1 r] eqn:E.
    cbn [fst].
    destruct (K f1 r eq_refl) as [->|[d [pid [ds [Hd [Hp [Hg _]]]]]]].
    + now rewrite E.
    + now rewrite (import_known c preset_data f1 d pid ds Hd Hp Hg).
  - intros f1 created pname E.
    destruct (K f1 _ E) as [->|[d [pid [ds [Hd [Hp [Hg Hn]]]]]]].
    + (* nothing was written: the preset was known *)
      revert E. unfold import_preset_data.
      destruct (read_fields preset_data) as [d|e] eqn:Hd;
        [|rewrite bind_lift_raise; discriminate].
      rewrite bind_lift_ok.
      destruct (f_id d) as [| | | |pid| | | | |] eqn:Hp; cbn [has_value_key];
        try (rewrite bind_ret; cbn iota; intros H;
             destruct (import_new_transaction c d f)
               as [[_ [e He]]|[pid [ds [Hx _]]]];
             [rewrite H in He; discriminate|congruence]).
      rewrite (bind_ok _ _ f _ _
                 (has_key_eq (T_TRANSACTIONS c) pid f _ eq_refl)).
      change (TRANSACTIONS (type_file_of c f))
        with (members (T_TRANSACTIONS c) f).
      destruct (Dict.mem (members (T_TRANSACTIONS c) f) pid) eqn:M.
      * apply dict_mem_get in M. destruct M as [ds M].
        cbn [as_str]. rewrite bind_lift_ok.
        rewrite (bind_ok _ _ f _ _
                   (get_attr_eq (T_TRANSACTIONS c) pid "name" f _ _
                                eq_refl M)).
        intros H. now inversion H.
      * intros H.
        destruct (import_new_transaction c d f)
          as [[_ [e He]]|[pid' [ds [Hx [Hg Hr]]]]].
        -- rewrite H in He. discriminate.
        -- rewrite H in Hg, Hr. cbn [fst snd] in Hg, Hr.
           assert (pid' = pid) as -> by congruence.
           apply dict_mem_false in M. congruence.
    + rewrite (import_known c preset_data f1 d pid ds Hd Hp Hg).
      now rewrite (Hn _ _ eq_refl).
Qed.

(* ------------------------------------------------------------------ *)
(** ** The archive after [modify_in_zip] *)

Section ArchiveFacts.

Context {content R : Type}.
Variable read_file_by_chunks : content -> list content.
Implicit Types (d : Zip.disk content) (func : content -> content * result R).

Lemma remove_file_set (files : list (string * content)) file_name c :
  Zip.remove_file content (Dict.set files file_name c) file_name
  = Zip.remove_file content files file_name.
Proof.
  unfold Zip.remove_file.
  induction files as [|[n c0] t IH]; simpl.
  - now rewrite String.eqb_refl.
  - destruct (String.eqb n file_name) eqn:E; simpl; rewrite E; simpl; auto.
    now rewrite IH.
Qed.

Lemma last_of_cons (l : list content) a dflt : last (a :: l) dflt = last l a.
Proof.
  revert a dflt. induction l as [|x l IH]; intros a dflt; auto.
  change (last (a :: x :: l) dflt) with (last (x :: l) dflt).
  now rewrite !IH.
Qed.

Lemma entry_named_chunks file_name (chunks : list content) :
  Zip.entry_named content (map (fun ch => (file_name, ch)) chunks) file_name
  = match chunks with
    | [] => None
    | ch :: rest => Some (last rest ch)
    end.
Proof.
  induction chunks as [|ch rest IH]; auto.
  cbn [map Zip.entry_named]. rewrite IH, String.eqb_refl.
  destruct rest as [|x rest]; auto. now rewrite last_of_cons.
Qed.

(** The steps of the wrapper up to the recompression, on an archive that
    holds the file and a function that returns. *)
Lemma run_after_extract file_name func d entries c c' r :
  Zip.zip_file d = Some entries ->
  Zip.entry_named content entries file_name = Some c ->
  func c = (c', Ok r) ->
  exists d2,
    Zip.extract content file_name d = (fst (Zip.extract content file_name d),
                                       Ok tt)
    /\ Zip.run content func file_name
               (fst (Zip.extract content file_name d)) = (d2, Ok r)
    /\ Zip.zip_file d2 = Some entries
    /\ Dict.get (Zip.extract_dir d2) file_name = Some c'
    /\ Zip.remove_file content (Zip.extract_dir d2) file_name
       = Zip.remove_file content (Zip.extract_dir d) file_name.
Proof.
  intros Hz He Hf. unfold Zip.extract. rewrite Hz, He. cbn [fst].
  unfold Zip.run. cbn [Zip.extract_dir Zip.zip_file].
  rewrite dict_get_set_same, Hf.
  eexists. split; [reflexivity|]. split; [reflexivity|].
  cbn [Zip.extract_dir Zip.zip_file].
  split; [reflexivity|]. split; [apply dict_get_set_same|].
  now rewrite !remove_file_set.
Qed.

(** A call that succeeds writes a new archive that holds the pieces of the
    file [func] left, each under the name of the file, and nothing else;
    the extracted file is removed. *)
Lemma modify_in_zip_ok file_name func d entries c c' r :
  Zip.zip_file d = Some entries ->
  Zip.entry_named content entries file_name = Some c ->
  func c = (c', Ok r) ->
  Zip.modify_in_zip content read_file_by_chunks file_name func None d
  = ({| Zip.zip_file :=
          Some (map (fun ch => (file_name, ch)) (read_file_by_chunks c'));
        Zip.extract_dir :=
          Zip.remove_file content (Zip.extract_dir d) file_name |},
     Ok (Some r)).
Proof.
  intros Hz He Hf.
  destruct (run_after_extract file_name func d entries c c' r Hz He Hf)
    as [d2 [Hx [Hr [Hz2 [Hg Hrm]]]]].
  unfold Zip.modify_in_zip, Zip.attempt. rewrite Hx, Hr.
  unfold Zip.recompress. rewrite Hg. rewrite firstn_all.
  unfold Zip.unlink. cbn [Zip.extract_dir Zip.zip_file].
  assert (Dict.mem (Zip.extract_dir d2) file_name = true) as ->.
  { apply dict_mem_get. eauto. }
  now rewrite Hrm.
Qed.

(** X1. A call that succeeds on an archive that holds the file writes a
    new archive with one entry for every piece the file is read back in,
    all under the name of the file, and removes the extracted file. What
    [get_from_zip] then reads under the name is the last piece: the file
    itself only when it is read back in one piece, and nothing when it is
    read back in none. *)
Theorem modify_in_zip_rewrites_the_archive {Q : Type} file_name func d
  entries c c' r (reader : content -> result Q) :
  Zip.zip_file d = Some entries ->
  Zip.entry_named content entries file_name = Some c ->
  func c = (c', Ok r) ->
  let out := Zip.modify_in_zip content read_file_by_chunks file_name func
                               None d in
  out = ({| Zip.zip_file :=
              Some (map (fun ch => (file_name, ch)) (read_file_by_chunks c'));
            Zip.extract_dir :=
              Zip.remove_file content (Zip.extract_dir d) file_name |},
         Ok (Some r))
  /\ get_from_zip file_name reader (fst out)
     = match read_file_by_chunks c' with
       | [] => None
       | ch :: rest =>
           match reader (last rest ch) with
           | Ok q => Some q
           | Raise _ => None
           end
       end.
Proof.
  intros Hz He Hf out. subst out.
  rewrite (modify_in_zip_ok _ _ _ _ _ _ _ Hz He Hf).
  split; [reflexivity|].
  unfold get_from_zip. cbn [fst Zip.zip_file].
  rewrite entry_named_chunks.
  now destruct (read_file_by_chunks c').
Qed.

(** X2. An I/O error at the write of piece number [k] leaves an archive
    that holds the first [k] pieces only: the entries it had are gone, the
    extracted file is removed, and the caller gets [None]. *)
Theorem modify_in_zip_write_fault_truncates file_name func d entries c c' r k :
  Zip.zip_file d = Some entries ->
  Zip.entry_named content entries file_name = Some c ->
  func c = (c', Ok r) ->
  k < List.length (read_file_by_chunks c') ->
  Zip.modify_in_zip content read_file_by_chunks file_name func (Some k) d
  = ({| Zip.zip_file :=
          Some (map (fun ch => (file_name, ch))
                    (firstn k (read_file_by_chunks c')));
        Zip.extract_dir :=
          Zip.remove_file content (Zip.extract_dir d) file_name |},
     Ok None).
Proof.
  intros Hz He Hf Hk.
  destruct (run_after_extract file_name func d entries c c' r Hz He Hf)
    as [d2 [Hx [Hr [Hz2 [Hg Hrm]]]]].
  unfold Zip.modify_in_zip, Zip.attempt. rewrite Hx, Hr.
  unfold Zip.recompress. rewrite Hg.
  apply Nat.ltb_lt in Hk. rewrite Hk.
  unfold Zip.unlink. cbn [fst Zip.extract_dir Zip.zip_file].
  assert (Dict.mem (Zip.extract_dir d2) file_name = true) as ->.
  { apply dict_mem_get. eauto. }
  cbn [fst]. now rewrite Hrm.
Qed.

End ArchiveFacts.

(* ------------------------------------------------------------------ *)
(** ** The save operators *)

Lemma search_found cls text n :
  search cls text = Some n ->
  exists c, In c (list_ascii_of_string text) /\ cls c = true.
Proof.
  revert n. induction text as [|a r IH]; simpl; intros n S; [discriminate|].
  destruct (cls a) eqn:E.
  - exists a. auto.
  - destruct (search cls r) as [k|]; [|discriminate].
    destruct (IH k eq_refl) as [c [Hc Hs]]. exists c. auto.
Qed.

Lemma check_name_none preset_name :
  check_name preset_name = None -> ~ unusable preset_name.
Proof.
  intros H U. destruct (check_name_unusable _ U) as [r [Hr _]]. congruence.
Qed.

Lemma check_name_usable preset_name :
  ~ unusable preset_name -> check_name preset_name = None.
Proof.
  intros U. unfold check_name, is_string_blank, string_has_space,
    string_startswith_space.
  destruct (search re_word preset_name) eqn:W.
  2:{ exfalso. apply U. left. now apply search_none. }
  destruct (search re_space preset_name) eqn:S.
  { exfalso. apply U. right. left. now apply search_found in S. }
  cbn [orb].
  destruct (String.eqb (upper preset_name) "NONE") eqn:E; auto.
  exfalso. apply U. right. right. now apply String.eqb_eq.
Qed.

(** X4. The three checks accept a proposed name exactly when it has a word
    character, has no white-space character, and is not ['NONE'] in any
    mix of cases. *)
Theorem check_name_accepts (preset_name : string) :
  check_name preset_name = None <-> ~ unusable preset_name.
Proof.
  split; [apply check_name_none|apply check_name_usable].
Qed.

Section OperatorFacts.

Variable chunks : H5.file -> list H5.file.
Variable write_fault : option nat.

Lemma modify_in_zip_some {R} (func : H5.M R) (d d' : disk) (res : R) :
  Zip.modify_in_zip file chunks preset_file func write_fault d
  = (d', Ok (Some res)) ->
  written chunks func res d d'.
Proof.
  unfold Zip.modify_in_zip, Zip.attempt, Zip.extract. intros H.
  destruct (Zip.zip_file d) as [entries|] eqn:Hz.
  2:{ discriminate. }
  destruct (Zip.entry_named file entries preset_file) as [c|] eqn:He.
  2:{ discriminate. }
  unfold Zip.run in H. cbn [Zip.extract_dir Zip.zip_file] in H.
  rewrite dict_get_set_same in H.
  destruct (func c) as [c' [r|e]] eqn:Hf.
  2:{ destruct (Zip.unlink _ _ _); discriminate. }
  unfold Zip.recompress in H. cbn [Zip.extract_dir Zip.zip_file] in H.
  rewrite dict_get_set_same in H.
  assert (Zip.unlink file preset_file
            {| Zip.zip_file :=
                 Some (map (fun ch => (preset_file, ch))
                           (firstn (List.length (chunks c')) (chunks c')));
               Zip.extract_dir :=
                 Dict.set (Dict.set (Zip.extract_dir d) preset_file c)
                          preset_file c' |}
          = ({| Zip.zip_file :=
                  Some (map (fun ch => (preset_file, ch)) (chunks c'));
                Zip.extract_dir :=
                  Zip.remove_file file (Zip.extract_dir d) preset_file |},
             Ok tt)) as Hu.
  { unfold Zip.unlink. cbn [Zip.extract_dir Zip.zip_file].
    assert (Dict.mem (Dict.set (Dict.set (Zip.extract_dir d) preset_file c)
                               preset_file c') preset_file = true) as ->
        by (apply dict_mem_get; eexists; apply dict_get_set_same).
    now rewrite firstn_all, !remove_file_set. }
  assert (d' = {| Zip.zip_file :=
                    Some (map (fun ch => (preset_file, ch)) (chunks c'));
                  Zip.extract_dir :=
                    Zip.remove_file file (Zip.extract_dir d) preset_file |}
          /\ r = res) as [-> ->].
  { destruct write_fault as [k|].
    - destruct (Nat.ltb k (List.length (chunks c'))).
      + destruct (Zip.unlink _ _ _); discriminate.
      + rewrite Hu in H. now inversion H.
    - rewrite Hu in H. now inversion H. }
  exists entries, c, c'. auto.
Qed.

Lemma save_execute_finished {A R} preset_name (collect : result A) catches
  (processing : A -> string -> H5.M R) conclude (d d' : disk) r :
  save_execute chunks write_fault preset_name collect catches processing
               conclude d = (d', Ok (r, FINISHED)) ->
  ~ unusable preset_name
  /\ exists a res,
      collect = Ok a
      /\ conclude res = (r, FINISHED)
      /\ written chunks (processing a preset_name) res d d'.
Proof.
  unfold save_execute. intros H.
  destruct (check_name preset_name) eqn:N; [discriminate|].
  split; [now apply check_name_none|].
  destruct collect as [a|e].
  2:{ destruct (catches e); discriminate. }
  destruct (Zip.modify_in_zip _ _ _ _ _ _) as [d1 [[res|]|e]] eqn:Hm.
  - exists a, res. split; auto. split; [congruence|].
    assert (d1 = d') as <- by congruence.
    now apply modify_in_zip_some.
  - discriminate.
  - destruct (catches e); discriminate.
Qed.

Lemma saved_or_exists_finished result r :
  saved_or_exists result = (r, FINISHED) ->
  r = Saved /\ exists pname, result = (true, pname).
Proof.
  destruct result as [[] pname]; unfold saved_or_exists; cbn [fst snd];
    intros H; inversion H. eauto.
Qed.

(** X3. A save operator returns [FINISHED] only after the preset was
    stored: the name passed the checks, the processing function ran on the
    preset file of the archive and returned (for a single preset, with
    [preset_saved] set), and the archive was written again from the file
    the function left. *)
Theorem finished_only_when_stored (d d' : disk) (r : report)
  (preset_name : string) :
  (forall m user_,
      HAIRFACTORY_OT_save_mat chunks write_fault m preset_name user_ d
      = (d', Ok (r, FINISHED)) ->
      r = Saved /\ ~ unusable preset_name
      /\ exists u pname,
          user_ = Ok u
          /\ written chunks (material_preset_processing m preset_name u)
                     (true, pname) d d')
  /\ (forall active user_,
      HAIRFACTORY_OT_save_node_group chunks write_fault active preset_name
                                     user_ d
      = (d', Ok (r, FINISHED)) ->
      r = Saved /\ ~ unusable preset_name
      /\ exists u pname,
          user_ = Ok u
          /\ written chunks
               (geometry_node_preset_processing (node_group active) active
                                                preset_name u)
               (true, pname) d d')
  /\ (forall node_ source,
      HAIRFACTORY_OT_save_node chunks write_fault node_ source preset_name d
      = (d', Ok (r, FINISHED)) ->
      r = Saved /\ ~ unusable preset_name
      /\ exists g pname,
          source = Some g
          /\ written chunks (node_preset_processing node_ g preset_name)
                     (true, pname) d d')
  /\ (forall modifiers include,
      HAIRFACTORY_OT_save_mod_stack chunks write_fault modifiers preset_name
                                    include d
      = (d', Ok (r, FINISHED)) ->
      ~ unusable preset_name
      /\ exists success fail,
          r = Stack_saved success fail
          /\ written chunks
               (modifier_stack_preset_processing modifiers preset_name
                                                 include)
               (success, fail) d d')
  /\ (forall ptype settings,
      HAIRFACTORY_OT_save_phy chunks write_fault ptype settings preset_name d
      = (d', Ok (r, FINISHED)) ->
      r = Saved /\ ~ unusable preset_name
      /\ exists data pname,
          settings = Ok data
          /\ written chunks
               (physics_preset_processing ptype data preset_name)
               (true, pname) d d')
  /\ (forall settings,
      HAIRFACTORY_OT_save_col chunks write_fault settings preset_name d
      = (d', Ok (r, FINISHED)) ->
      r = Saved /\ ~ unusable preset_name
      /\ exists data pname,
          settings = Ok data
          /\ written chunks (collision_preset_processing data preset_name)
                     (true, pname) d d')
  /\ (forall points,
      HAIRFACTORY_OT_save_hair chunks write_fault points preset_name d
      = (d', Ok (r, FINISHED)) ->
      r = Saved /\ ~ unusable preset_name
      /\ exists data pname,
          points = Ok data
          /\ written chunks (hair_preset_processing data preset_name)
                     (true, pname) d d').
Proof.
  assert (forall {A} (collect : result A) catches processing,
             save_execute chunks write_fault preset_name collect catches
                          processing saved_or_exists d
             = (d', Ok (r, FINISHED)) ->
             r = Saved /\ ~ unusable preset_name
             /\ exists a pname,
                 collect = Ok a
                 /\ written chunks (processing a preset_name) (true, pname)
                            d d') as Single.
  { intros A collect catches processing H.
    apply save_execute_finished in H.
    destruct H as [U [a [res [Hc [Hr Hw]]]]].
    apply saved_or_exists_finished in Hr. destruct Hr as [-> [pname ->]].
    eauto 6. }
  split; [intros m user_ H; now apply Single in H|].
  split; [intros active user_ H; now apply Single in H|].
  split.
  { intros node_ [g|] H; [|discriminate].
    unfold HAIRFACTORY_OT_save_node in H. apply Single in H.
    destruct H as [-> [U [[] [pname [_ Hw]]]]]. eauto 6. }
  split.
  { intros modifiers include H.
    apply save_execute_finished in H.
    destruct H as [U [[] [[success fail] [_ [Hr Hw]]]]].
    cbn [fst snd] in Hr. inversion Hr; subst. eauto 6. }
  split; [intros ptype settings H; now apply Single in H|].
  split; [intros settings H; now apply Single in H|].
  intros points H. now apply Single in H.
Qed.

End OperatorFacts.

(* ------------------------------------------------------------------ *)
(** ** The names a series gives *)

Section Numerals.

Lemma digit_facts c :
  is_digit c = true ->
  int_space c = false /\ Ascii.eqb c "-" = false /\ Ascii.eqb c "+" = false
  /\ Ascii.eqb c "_" = false /\ Ascii.eqb c "." = false.
Proof.
  destruct c as [[] [] [] [] [] [] [] []]; intros H;
    try discriminate H; repeat split; reflexivity.
Qed.

Lemma uint_all_digits u : all_digits (NilEmpty.string_of_uint u) = true.
Proof. induction u; simpl; auto. Qed.

Lemma int_digits_uint u :
  forall acc prev,
    prev = true \/ u <> Decimal.Nil ->
    int_digits (NilEmpty.string_of_uint u) acc prev = Some (horner u acc).
Proof.
  induction u; intros acc prev H;
    try (cbn [NilEmpty.string_of_uint int_digits horner];
         match goal with
         | |- context [is_digit ?c] =>
             change (is_digit c) with true; cbv beta iota
         end;
         rewrite IHu by auto; reflexivity).
  destruct H as [->|H]; [reflexivity|congruence].
Qed.

Lemma horner_of_uint_acc l :
  forall a, horner l (Z.pos a) = Z.pos (Pos.of_uint_acc l a).
Proof.
  induction l; intros a; cbn [horner Pos.of_uint_acc]; auto;
    rewrite <- IHl; f_equal; lia.
Qed.

Lemma horner_of_uint u : horner u 0 = Z.of_N (Pos.of_uint u).
Proof.
  induction u; cbn [horner Pos.of_uint Z.of_N]; auto;
    try exact IHu;
    try (rewrite <- horner_of_uint_acc; reflexivity).
Qed.

(** [str(k)] for a positive [k] is the numeral of [k]. *)
Lemma str_of_Z_pos p :
  str_of_Z (Z.pos p) = NilEmpty.string_of_uint (Pos.to_uint p)
  /\ Pos.to_uint p <> Decimal.Nil
  /\ horner (Pos.to_uint p) 0 = Z.pos p.
Proof.
  pose proof (DecimalPos.Unsigned.to_uint_nonnil p) as N.
  split; [|split; auto].
  - unfold str_of_Z. cbn [Z.to_int NilZero.string_of_int].
    unfold NilZero.string_of_uint. now destruct (Pos.to_uint p).
  - rewrite horner_of_uint. now rewrite DecimalPos.Unsigned.of_to.
Qed.

Lemma all_digits_app a b :
  all_digits a = true -> all_digits b = true -> all_digits (a +++ b) = true.
Proof.
  induction a as [|x a IH]; simpl; auto.
  intros H Hb. apply andb_true_iff in H. destruct H as [Hx Ha].
  now rewrite Hx, IH.
Qed.

Lemma all_digits_zeros n : all_digits (repeat_char "0" n) = true.
Proof. induction n; simpl; auto. Qed.

Lemma int_digits_zeros n s :
  forall prev,
    int_digits (repeat_char "0" n +++ s) 0 prev
    = int_digits s 0 (match n with O => prev | S _ => true end).
Proof.
  induction n as [|n IH]; intros prev; auto.
  cbn [repeat_char String.append int_digits].
  change (is_digit "0") with true. cbv beta iota.
  change (0 * 10 + Z.of_N (code "0" - 48))%Z with 0%Z.
  rewrite IH. now destruct n.
Qed.

(** [int(str(k).zfill(width))] is [k] for a positive [k]. *)
Lemma int_zfill width p :
  Py.int (zfill width (str_of_Z (Z.pos p))) = Some (Z.pos p)
  /\ all_digits (zfill width (str_of_Z (Z.pos p))) = true.
Proof.
  destruct (str_of_Z_pos p) as [Hs [Hn Hv]]. rewrite Hs.
  pose proof (uint_all_digits (Pos.to_uint p)) as Hd.
  destruct (NilEmpty.string_of_uint (Pos.to_uint p)) as [|c r] eqn:E.
  { destruct (Pos.to_uint p); try discriminate; congruence. }
  cbn [all_digits] in Hd. apply andb_true_iff in Hd. destruct Hd as [Hc Hr].
  destruct (digit_facts c Hc) as [Hsp [Hm [Hpl _]]].
  unfold zfill. rewrite Hm, Hpl. cbn [orb].
  assert (all_digits (repeat_char "0" (width - String.length (String c r))
                      +++ String c r) = true) as Hall.
  { apply all_digits_app; [apply all_digits_zeros|].
    cbn [all_digits]. now rewrite Hc, Hr. }
  split; auto.
  assert (forall s, all_digits s = true -> s <> EmptyString ->
                    Py.int s = int_digits s 0 false) as Hint.
  { intros [|x s] Hx Hne; [congruence|].
    cbn [all_digits] in Hx. apply andb_true_iff in Hx. destruct Hx as [Hx _].
    destruct (digit_facts x Hx) as [H1 [H2 [H3 _]]].
    unfold Py.int. cbn [lstrip]. now rewrite H1, H2, H3. }
  rewrite Hint; auto.
  - rewrite int_digits_zeros. rewrite <- E.
    rewrite int_digits_uint by auto. now rewrite Hv.
  - destruct (width - String.length (String c r)); discriminate.
Qed.

End Numerals.

Section Splitting.

Lemma split_without s : without "." s = true -> Py.split "." s = [s].
Proof.
  induction s as [|x s IH]; simpl; auto.
  intros H. apply andb_true_iff in H. destruct H as [Hx Hs].
  apply negb_true_iff in Hx. rewrite Hx. now rewrite IH.
Qed.

Lemma split_at_dot b r :
  without "." b = true ->
  Py.split "." (b +++ String "." r) = b :: Py.split "." r.
Proof.
  induction b as [|x b IH]; intros H.
  - reflexivity.
  - simpl in H. apply andb_true_iff in H. destruct H as [Hx Hb].
    apply negb_true_iff in Hx.
    cbn [String.append Py.split]. rewrite Hx. now rewrite IH.
Qed.

Lemma split_head_without s : without "." (hd EmptyString (Py.split "." s)) = true.
Proof.
  induction s as [|x s IH]; simpl; auto.
  destruct (Ascii.eqb x ".") eqn:E; simpl; auto.
  destruct (Py.split "." s) as [|h t]; simpl in *.
  - now rewrite E.
  - now rewrite E, IH.
Qed.

Lemma base_name_without name : without "." (base_name name) = true.
Proof. apply split_head_without. Qed.

Lemma all_digits_without s : all_digits s = true -> without "." s = true.
Proof.
  induction s as [|x s IH]; simpl; auto.
  intros H. apply andb_true_iff in H. destruct H as [Hx Hs].
  destruct (digit_facts x Hx) as [_ [_ [_ [_ Hd]]]]. now rewrite Hd, IH.
Qed.

Lemma append_not_empty a c r : String.eqb (a +++ String c r) EmptyString = false.
Proof. destruct a; reflexivity. Qed.

End Splitting.

(** The name of the series that carries the number [k]. *)
Lemma series_of_numbered name p :
  series_of name (base_name name +++ "." +++ zfill 3 (str_of_Z (Z.pos p)))
  = Some (Z.pos p).
Proof.
  destruct (int_zfill 3 p) as [Hi Hd].
  unfold series_of.
  change ("." +++ ?s) with (String "." s). rewrite append_not_empty.
  rewrite split_at_dot by apply base_name_without.
  rewrite split_without by now apply all_digits_without.
  now rewrite String.eqb_refl.
Qed.

Lemma name_in_In n data : name_in n data = true <-> In (Some n) data.
Proof.
  unfold name_in. rewrite existsb_exists. split.
  - intros [[x|] [Hin Hx]]; [|discriminate].
    apply String.eqb_eq in Hx. now subst.
  - intros H. exists (Some n). split; auto. apply String.eqb_refl.
Qed.

Lemma max_series_nonneg name data ms :
  get_max_series_num name data = Ok ms -> (0 <= ms)%Z.
Proof.
  intros H. now destruct (max_series_from_spec _ _ _ _ H) as [H0 _].
Qed.

Lemma series_highest_fresh name data new :
  get_match_series_highest name data = Ok new ->
  name_in new data = false.
Proof.
  unfold get_match_series_highest.
  destruct (get_max_series_num name data) as [ms|e] eqn:Hms; [|discriminate].
  cbn [rbind]. intros H. injection H as <-.
  pose proof (max_series_nonneg _ _ _ Hms) as H0.
  destruct (max_series_from_spec _ _ _ _ Hms) as [_ [Hle _]].
  destruct (ms + 1)%Z as [|p|p] eqn:E; try lia.
  destruct (name_in _ data) eqn:Hin; auto.
  apply name_in_In in Hin.
  specialize (Hle _ _ Hin (series_of_numbered name p)). lia.
Qed.

(** X7. The name [get_match_series_highest] returns is no name of the
    list it was given. *)
Theorem get_match_series_highest_is_fresh (name : string)
  (data : list (option string)) (new : string) :
  get_match_series_highest name data = Ok new ->
  name_in new data = false.
Proof.
  unfold get_match_series_highest.
  destruct (get_max_series_num name data) as [ms|e] eqn:Hms; [|discriminate].
  cbn [rbind]. intros H. injection H as <-.
  pose proof (max_series_nonneg _ _ _ Hms) as H0.
  destruct (max_series_from_spec _ _ _ _ Hms) as [_ [Hle _]].
  destruct (ms + 1)%Z as [|p|p] eqn:E; try lia.
  destruct (name_in _ data) eqn:Hin; auto.
  apply name_in_In in Hin.
  specialize (Hle _ _ Hin (series_of_numbered name p)). lia.
Qed.

Lemma max_series_from_app name data rest :
  forall num,
    max_series_from name (data ++ rest) num
    = rbind (max_series_from name data num) (max_series_from name rest).
Proof.
  induction data as [|o data IH]; intros num; cbn [app max_series_from].
  - reflexivity.
  - destruct (series_step name num o); cbn [rbind]; auto.
Qed.

(** X8. Once the name it returned is in the list, the next name of the
    series carries the next number. *)
Theorem get_match_series_highest_counts_on (name : string)
  (data : list (option string)) (ms : Z) :
  get_max_series_num name data = Ok ms ->
  get_match_series_highest name data
  = Ok (base_name name +++ "." +++ zfill 3 (str_of_Z (ms + 1)))
  /\ get_match_series_highest name
       (data ++ [Some (base_name name +++ "." +++ zfill 3 (str_of_Z (ms + 1)))])
     = Ok (base_name name +++ "." +++ zfill 3 (str_of_Z (ms + 2))).
Proof.
  intros Hms. pose proof (max_series_nonneg _ _ _ Hms) as H0.
  unfold get_match_series_highest. rewrite Hms. cbn [rbind].
  split; auto.
  unfold get_max_series_num in *. rewrite max_series_from_app, Hms.
  cbn [rbind max_series_from].
  replace (ms + 2)%Z with (ms + 1 + 1)%Z by lia.
  destruct (ms + 1)%Z as [|p|p] eqn:E; try lia.
  assert (series_step name ms
            (Some (base_name name +++ "." +++ zfill 3 (str_of_Z (Z.pos p))))
          = Ok (Z.pos p)) as ->.
  { destruct (int_zfill 3 p) as [Hi Hd]. unfold series_step.
    change ("." +++ ?s) with (String "." s). rewrite append_not_empty.
    rewrite split_at_dot by apply base_name_without.
    rewrite split_without by now apply all_digits_without.
    cbn [hd]. rewrite String.eqb_refl, Hi. cbn [of_option rbind].
    assert (Z.ltb ms (Z.pos p) = true) as -> by (apply Z.ltb_lt; lia).
    reflexivity. }
  reflexivity.
Qed.

(** The name the naming step gives a new inner record is no name a record
    of the table shows; the new record itself has none yet. *)
Lemma series_name_is_fresh t name f f' g new :
  open_table t f = Ok g ->
  series_name t name f = (f', Ok new) ->
  f' = f /\ name_in new (get_names g) = false.
Proof.
  intros Ht. unfold series_name.
  rewrite (bind_ok _ _ f _ _ (names_of_eq t f g Ht)).
  destruct (name_in name (get_names g)) eqn:Hin.
  - unfold lift.
    destruct (get_match_series_highest name (get_names g)) as [n|e] eqn:Hs;
      intros H; inversion H; subst.
    split; auto. now apply (series_highest_fresh name).
  - intros H. inversion H; subst. auto.
Qed.

(* ------------------------------------------------------------------ *)
(** ** The names of a table stay distinct *)

Section NamesFacts.

Lemma shown_app l1 l2 : shown (l1 ++ l2) = shown l1 ++ shown l2.
Proof. unfold shown. apply flat_map_app. Qed.

Lemma name_in_shown n names : name_in n names = true <-> In n (shown names).
Proof.
  rewrite name_in_In. unfold shown. rewrite in_flat_map. split.
  - intros H. exists (Some n). simpl. auto.
  - intros [[x|] [Hin Hx]]; simpl in Hx; [|contradiction].
    destruct Hx as [->|[]]. exact Hin.
Qed.

Lemma name_not_in_shown n names :
  name_in n names = false <-> ~ In n (shown names).
Proof.
  rewrite <- name_in_shown. destruct (name_in n names); split; intros H;
    auto; try discriminate. now destruct H.
Qed.

Lemma get_names_app g g' : get_names (g ++ g') = get_names g ++ get_names g'.
Proof. unfold get_names. apply map_app. Qed.

(** A record that is new and has no name yet changes no shown name. *)
Lemma shown_unnamed g id_ v :
  shown (get_names (g ++ [(id_, {| attrs := []; data := v |})]))
  = shown (get_names g).
Proof. rewrite get_names_app, shown_app. simpl. apply app_nil_r. Qed.

Lemma names_distinct_named g id_ v n :
  names_distinct g -> name_in n (get_names g) = false ->
  names_distinct (g ++ [(id_, {| attrs := [("name", n)]; data := v |})]).
Proof.
  unfold names_distinct. intros Hd Hn. apply name_not_in_shown in Hn.
  rewrite get_names_app, shown_app. simpl.
  apply (Permutation_NoDup (l := n :: shown (get_names g))).
  - apply Permutation_cons_append.
  - now constructor.
Qed.

(** The names of a group one record of which is replaced. *)
Lemma get_names_set g id_ d d' :
  Dict.get g id_ = Some d ->
  exists l1 l2,
    get_names g = l1 ++ Dict.get (attrs d) "name" :: l2
    /\ get_names (Dict.set g id_ d')
       = l1 ++ Dict.get (attrs d') "name" :: l2.
Proof.
  induction g as [|[k v] rest IH]; simpl; [discriminate|].
  destruct (String.eqb k id_).
  - intros H. injection H as <-. exists [], (get_names rest). auto.
  - intros H. destruct (IH H) as [l1 [l2 [E1 E2]]].
    exists (Dict.get (attrs v) "name" :: l1), l2. simpl.
    fold (get_names rest). fold (get_names (Dict.set rest id_ d')).
    now rewrite E1, E2.
Qed.

Lemma names_distinct_set g id_ d d' n :
  Dict.get g id_ = Some d ->
  Dict.get (attrs d') "name" = Some n ->
  names_distinct g -> name_in n (get_names g) = false ->
  names_distinct (Dict.set g id_ d').
Proof.
  unfold names_distinct. intros Hg Hn Hd Hfree.
  apply name_not_in_shown in Hfree.
  destruct (get_names_set g id_ d d' Hg) as [l1 [l2 [E1 E2]]].
  rewrite E1 in Hd, Hfree. rewrite E2, Hn.
  rewrite shown_app in *. simpl in *.
  apply (Permutation_NoDup (l := n :: shown l1 ++ shown l2)).
  - apply Permutation_middle.
  - constructor.
    + intros H. apply Hfree. apply in_app_iff in H. apply in_app_iff.
      destruct H; auto. right. apply in_app_iff. auto.
    + destruct (Dict.get (attrs d) "name"); simpl in Hd; auto.
      now apply NoDup_remove_1 in Hd.
Qed.

End NamesFacts.

(** What a rename that succeeds does to the file. *)
Lemma change_preset_name_ok pfile id_ name f f' prev g :
  open_table pfile f = Ok g ->
  change_preset_name pfile id_ name f = (f', Ok prev) ->
  name_in name (get_names g) = false
  /\ exists d,
      Dict.get g id_ = Some d
      /\ prev = Dict.get (attrs d) "name"
      /\ f' = with_table pfile
                (Dict.set g id_ {| attrs := Dict.set (attrs d) "name" name;
                                   data := data d |}) f.
Proof.
  intros Ht. unfold change_preset_name.
  rewrite (bind_ok _ _ f _ _ (names_of_eq pfile f g Ht)).
  destruct (name_in name (get_names g)) eqn:Hn; [discriminate|].
  intros H. split; auto.
  apply bind_ok_inv in H. destruct H as [f1 [prev' [H1 H]]].
  apply (get_attr_inv _ _ _ _ _ _ _ Ht) in H1.
  destruct H1 as [-> [d [Hd Hp]]].
  rewrite (bind_ok _ _ f _ _ (set_attr_eq pfile id_ "name" name f g d Ht Hd))
    in H.
  run_inv H. eauto.
Qed.

(** X9. A rename keeps the names of the table distinct. *)
Theorem change_preset_name_keeps_names_distinct (pfile : table)
  (id_ name : string) (f f' : file) (prev : option string) (g : group) :
  open_table pfile f = Ok g ->
  names_distinct g ->
  change_preset_name pfile id_ name f = (f', Ok prev) ->
  names_distinct (members pfile f').
Proof.
  intros Ht Hd H.
  destruct (change_preset_name_ok _ _ _ _ _ _ _ Ht H)
    as [Hfree [d [Hg [_ ->]]]].
  rewrite members_with_table_same.
  apply (names_distinct_set g id_ d _ name); auto.
  apply dict_get_set_same.
Qed.

(** X10. In a table whose names are distinct, a rename is undone by the
    rename back to the previous name. *)
Theorem change_preset_name_back (pfile : table) (id_ old new : string)
  (f f' : file) (g : group) :
  open_table pfile f = Ok g ->
  names_distinct g ->
  change_preset_name pfile id_ new f = (f', Ok (Some old)) ->
  change_preset_name pfile id_ old f' = (f, Ok (Some new)).
Proof.
  intros Ht Hd H.
  destruct (change_preset_name_ok _ _ _ _ _ _ _ Ht H)
    as [Hfree [d [Hg [Hold ->]]]].
  set (d' := {| attrs := Dict.set (attrs d) "name" new; data := data d |}).
  assert (name_in old (get_names (Dict.set g id_ d')) = false) as Hback.
  { apply name_not_in_shown.
    destruct (get_names_set g id_ d d' Hg) as [l1 [l2 [E1 E2]]].
    assert (Dict.get (attrs d') "name" = Some new) as Hnew
        by apply dict_get_set_same.
    rewrite Hnew in E2.
    unfold names_distinct in Hd. rewrite E1 in Hd, Hfree.
    rewrite E2. rewrite <- Hold in Hd, Hfree.
    apply name_not_in_shown in Hfree.
    rewrite shown_app in *. simpl in *.
    apply NoDup_remove_2 in Hd.
    intros Hin. apply in_app_iff in Hin. destruct Hin as [Hin|[<-|Hin]].
    - apply Hd. apply in_app_iff. auto.
    - apply Hfree. apply in_app_iff. right. left. reflexivity.
    - apply Hd. apply in_app_iff. auto. }
  unfold change_preset_name.
  rewrite (bind_ok _ _ _ _ _
             (names_of_eq pfile _ _ (open_with_table_same pfile _ f))).
  rewrite Hback.
  rewrite (bind_ok _ _ _ _ _
             (get_attr_eq pfile id_ "name" _ _ d'
                (open_with_table_same pfile _ f) (dict_get_set_same _ _ _))).
  rewrite (bind_ok _ _ _ _ _
             (set_attr_eq pfile id_ "name" old _ _ d'
                (open_with_table_same pfile _ f) (dict_get_set_same _ _ _))).
  rewrite with_table_twice.
  unfold d'. cbn [attrs data]. rewrite dict_get_set_same.
  assert (Dict.set (Dict.set g id_
                      {| attrs := Dict.set (attrs d) "name" new;
                         data := data d |}) id_
                   {| attrs := Dict.set (Dict.set (attrs d) "name" new)
                                        "name" old;
                      data := data d |} = g) as ->.
  { assert (forall A (l : list (string * A)) k v w,
               Dict.set (Dict.set l k v) k w = Dict.set l k w) as Twice.
    { intros A l k v w. induction l as [|[k0 v0] l IH]; simpl.
      - now rewrite String.eqb_refl.
      - destruct (String.eqb k0 k) eqn:E; simpl; rewrite E; auto.
        now rewrite IH. }
    rewrite !Twice. rewrite (dict_set_same (attrs d) "name" old) by auto.
    apply dict_set_same. rewrite Hg. now destruct d. }
  now rewrite (with_table_same pfile g f Ht).
Qed.

(** A rename of an id that is not in the table raises [KeyError] once the
    name was found free, and leaves the file as it was. *)
Lemma change_preset_name_no_id pfile id_ name f g :
  open_table pfile f = Ok g ->
  name_in name (get_names g) = false ->
  Dict.mem g id_ = false ->
  change_preset_name pfile id_ name f = (f, Raise KeyError).
Proof.
  intros Ht Hn Hm. unfold change_preset_name.
  rewrite (bind_ok _ _ f _ _ (names_of_eq pfile f g Ht)). rewrite Hn.
  unfold get_attr, dataset_of. run_m. rewrite Ht. cbv beta iota.
  unfold Dict.item. apply dict_mem_false in Hm. now rewrite Hm.
Qed.

Lemma change_preset_name_renames pfile id_ name f g d :
  open_table pfile f = Ok g ->
  name_in name (get_names g) = false ->
  Dict.get g id_ = Some d ->
  change_preset_name pfile id_ name f
  = (with_table pfile
       (Dict.set g id_ {| attrs := Dict.set (attrs d) "name" name;
                          data := data d |}) f,
     Ok (Dict.get (attrs d) "name")).
Proof.
  intros Ht Hn Hd. unfold change_preset_name.
  rewrite (bind_ok _ _ f _ _ (names_of_eq pfile f g Ht)). rewrite Hn.
  rewrite (bind_ok _ _ f _ _ (get_attr_eq pfile id_ "name" f g d Ht Hd)).
  now rewrite (bind_ok _ _ f _ _ (set_attr_eq pfile id_ "name" name f g d Ht Hd)).
Qed.

(* ------------------------------------------------------------------ *)
(** ** A save keeps the names distinct *)

Lemma check_preset_name_is_free policy c preset_name f name :
  check_preset_name policy c preset_name f = (f, Ok name) ->
  name_in name (get_names (members (T_TRANSACTIONS c) f)) = false.
Proof.
  unfold check_preset_name.
  rewrite (bind_ok _ _ f _ _ (names_of_eq (T_TRANSACTIONS c) f _ eq_refl)).
  change (TRANSACTIONS (type_file_of c f))
    with (members (T_TRANSACTIONS c) f).
  destruct (name_in preset_name
                    (get_names (members (T_TRANSACTIONS c) f))) eqn:Hin.
  - destruct policy; [discriminate|]. unfold lift. intros H.
    injection H as H.
    now apply (series_highest_fresh preset_name).
  - intros H. run_inv H. exact Hin.
Qed.

Lemma save_transaction_keeps_names_distinct c mat_id values_id ni_id name
  f f' r :
  names_distinct (members (T_TRANSACTIONS c) f) ->
  name_in name (get_names (members (T_TRANSACTIONS c) f)) = false ->
  save_transaction c mat_id values_id ni_id name f = (f', Ok r) ->
  names_distinct (members (T_TRANSACTIONS c) f').
Proof.
  intros Hd Hfree H. destruct r as [pid pname].
  pose proof (save_transaction_ok _ _ _ _ _ _ _ _ _ H) as [Hh [_ [_ Hk]]].
  destruct (Dict.mem (members (T_TRANSACTIONS c) f) pid) eqn:E.
  - now rewrite (Hk eq_refl).
  - unfold save_transaction in H. rewrite Hh, bind_lift_ok in H.
    rewrite (bind_ok _ _ f _ _ (has_key_eq (T_TRANSACTIONS c) pid f _ eq_refl))
      in H.
    change (TRANSACTIONS (type_file_of c f))
      with (members (T_TRANSACTIONS c) f) in H.
    rewrite E in H. cbn [negb] in H. rewrite bind_assoc in H.
    rewrite (bind_ok _ _ _ _ _
               (create_dataset_eq (T_TRANSACTIONS c) pid _ f _ eq_refl E)) in H.
    rewrite (bind_ok _ _ _ _ _
               (create_then_set (T_TRANSACTIONS c) pid _ "name" name
                  _ _ _ (open_with_table_same _ _ _) E)) in H.
    rewrite with_table_twice in H.
    rewrite (bind_ok _ _ _ _ _
               (get_attr_eq (T_TRANSACTIONS c) pid "name" _ _ _
                  (open_with_table_same _ _ _)
                  (dict_get_app_fresh _ _ _ E))) in H.
    run_inv H. rewrite members_with_table_same.
    now apply names_distinct_named.
Qed.

Lemma save_data_keeps_names_distinct c values_id node_values name f f' u :
  names_distinct (members (T_DATA c) f) ->
  save_data c values_id node_values name f = (f', Ok u) ->
  names_distinct (members (T_DATA c) f').
Proof.
  intros Hd H.
  destruct (Dict.mem (members (T_DATA c) f) values_id) eqn:E.
  - rewrite (save_data_known _ _ _ _ _ E) in H. now run_inv H.
  - unfold save_data in H.
    rewrite (bind_ok _ _ f _ _ (has_key_eq (T_DATA c) values_id f _ eq_refl))
      in H.
    change (DATA (type_file_of c f)) with (members (T_DATA c) f) in H.
    rewrite E in H. cbn [negb] in H.
    destruct (Json.reload node_values) as [payload|e];
      [|rewrite bind_lift_raise in H; discriminate].
    rewrite bind_lift_ok in H.
    rewrite (bind_ok _ _ _ _ _
               (create_dataset_eq (T_DATA c) values_id payload f _ eq_refl E))
      in H.
    apply bind_ok_inv in H. destruct H as [f1 [values_name [Hs H]]].
    apply (series_name_is_fresh _ _ _ _ _ _ (open_with_table_same _ _ _))
      in Hs.
    destruct Hs as [-> Hfresh].
    rewrite (create_then_set (T_DATA c) values_id payload "name" values_name
               _ _ _ (open_with_table_same _ _ _) E) in H.
    rewrite with_table_twice in H. run_inv H.
    rewrite members_with_table_same.
    apply names_distinct_named; auto.
    apply name_not_in_shown. apply name_not_in_shown in Hfresh.
    now rewrite shown_unnamed in Hfresh.
Qed.

(** X11. A save of a material or of a node group, whatever it does with a
    name that is taken, keeps the names of the transactions of the class
    distinct, and the names of its values records. *)
Theorem graph_processing_keeps_names_distinct (policy : on_collision)
  (s : subject) (preset_name user_ : string) (f f' : file)
  (r : bool * option string * string) :
  graph_processing policy s preset_name user_ f = (f', Ok r) ->
  (names_distinct (members (T_TRANSACTIONS (class_of s)) f) ->
   names_distinct (members (T_TRANSACTIONS (class_of s)) f'))
  /\ (names_distinct (members (T_DATA (class_of s)) f) ->
      names_distinct (members (T_DATA (class_of s)) f')).
Proof.
  destruct r as [[b pname] pid]. intros H. apply graph_processing_steps in H.
  destruct H as [name mat_id nv ntd_ ntd node_ids ni_id f1 f2 f3 f4 f5
                   H0 Hg Hv H1 H2 Hk H3 H4 H5 H6].
  pose proof (touches_frame _ _ _ _ _ _ (touches_save_info _ _ _) H1) as F1.
  pose proof (touches_frame _ _ _ _ _ _ (touches_save_data _ _ _ _) H2) as F2.
  pose proof (touches_frame _ _ _ _ _ _ (touches_save_kinds _ _ _) H3) as F3.
  pose proof (touches_frame _ _ _ _ _ _ (touches_save_node_stack _) H4) as F4.
  pose proof (touches_frame _ _ _ _ _ _
                (touches_save_transaction _ _ _ _ _) H5) as F5.
  pose proof (touches_frame _ _ _ _ _ _ (touches_link_preset _ _ _ _) H6)
    as F6.
  split; intros Hd.
  - rewrite (members_frame _ _ _ _ _ F6) by untouched.
    apply (save_transaction_keeps_names_distinct _ _ _ _ _ _ _ _) with (3 := H5);
      rewrite (members_frame _ _ _ _ _ F4), (members_frame _ _ _ _ _ F3),
        (members_frame _ _ _ _ _ F2), (members_frame _ _ _ _ _ F1);
      auto; try untouched.
    now apply (check_preset_name_is_free policy _ preset_name).
  - rewrite (members_frame _ _ _ _ _ F6), (members_frame _ _ _ _ _ F5),
      (members_frame _ _ _ _ _ F4), (members_frame _ _ _ _ _ F3);
      try untouched.
    apply (save_data_keeps_names_distinct _ _ _ _ _ _ _) with (2 := H2).
    rewrite (members_frame _ _ _ _ _ F1); auto; untouched.
Qed.

(* ------------------------------------------------------------------ *)
(** ** Physics, collision, hair and node presets *)

Lemma settings_processing_known t data preset_name f g phy_id d :
  open_table t f = Ok g ->
  name_in preset_name (get_names g) = false ->
  hash_dict data = Ok phy_id ->
  Dict.get g phy_id = Some d ->
  settings_preset_processing t data preset_name f
  = (f, Ok (false, Dict.get (attrs d) "name")).
Proof.
  intros Ht Hn Hh Hd. unfold settings_preset_processing.
  rewrite (bind_ok _ _ f _ _ (names_of_eq t f g Ht)). rewrite Hn.
  rewrite Hh, bind_lift_ok.
  rewrite (bind_ok _ _ f _ _ (has_key_eq t phy_id f g Ht)).
  assert (Dict.mem g phy_id = true) as -> by (apply dict_mem_get; eauto).
  cbn [negb].
  now rewrite (bind_ok _ _ f _ _ (get_attr_eq t phy_id "name" f g d Ht Hd)).
Qed.

Lemma settings_processing_new t data preset_name f g phy_id payload :
  open_table t f = Ok g ->
  name_in preset_name (get_names g) = false ->
  hash_dict data = Ok phy_id ->
  Dict.mem g phy_id = false ->
  Json.reload (VDict data) = Ok payload ->
  settings_preset_processing t data preset_name f
  = (with_table t
       (g ++ [(phy_id, {| attrs := [("name", preset_name)];
                          data := payload |})]) f,
     Ok (true, Some preset_name)).
Proof.
  intros Ht Hn Hh Hm Hp. unfold settings_preset_processing.
  rewrite (bind_ok _ _ f _ _ (names_of_eq t f g Ht)). rewrite Hn.
  rewrite Hh, bind_lift_ok.
  rewrite (bind_ok _ _ f _ _ (has_key_eq t phy_id f g Ht)).
  rewrite Hm. cbn [negb]. rewrite Hp, bind_lift_ok.
  rewrite (bind_ok _ _ _ _ _ (create_dataset_eq t phy_id payload f g Ht Hm)).
  rewrite (bind_ok _ _ _ _ _
             (create_then_set t phy_id payload "name" preset_name
                _ _ _ (open_with_table_same _ _ _) Hm)).
  now rewrite with_table_twice.
Qed.

(** What a settings save that succeeds found or wrote. *)
Lemma settings_processing_ok t data preset_name f f' b pname g :
  open_table t f = Ok g ->
  settings_preset_processing t data preset_name f = (f', Ok (b, pname)) ->
  name_in preset_name (get_names g) = false
  /\ exists phy_id,
      hash_dict data = Ok phy_id
      /\ ((exists d, Dict.get g phy_id = Some d /\ f' = f /\ b = false
                     /\ pname = Dict.get (attrs d) "name")
          \/ (exists payload,
                 Dict.mem g phy_id = false
                 /\ Json.reload (VDict data) = Ok payload
                 /\ b = true /\ pname = Some preset_name
                 /\ f' = with_table t
                           (g ++ [(phy_id,
                                   {| attrs := [("name", preset_name)];
                                      data := payload |})]) f)).
Proof.
  intros Ht H.
  destruct (name_in preset_name (get_names g)) eqn:Hn.
  { rewrite (settings_processing_refuses t g data preset_name f Ht Hn) in H.
    discriminate. }
  split; auto.
  destruct (hash_dict data) as [phy_id|e] eqn:Hh.
  2:{ unfold settings_preset_processing in H.
      rewrite (bind_ok _ _ f _ _ (names_of_eq t f g Ht)) in H.
      rewrite Hn, Hh in H. rewrite bind_lift_raise in H. discriminate. }
  exists phy_id. split; auto.
  destruct (Dict.get g phy_id) as [d|] eqn:Hd.
  - rewrite (settings_processing_known _ _ _ _ _ _ _ Ht Hn Hh Hd) in H.
    run_inv H. left. eauto.
  - apply dict_mem_false in Hd.
    destruct (Json.reload (VDict data)) as [payload|e] eqn:Hp.
    + rewrite (settings_processing_new _ _ _ _ _ _ _ Ht Hn Hh Hd Hp) in H.
      run_inv H. right. exists payload. auto.
    + unfold settings_preset_processing in H.
      rewrite (bind_ok _ _ f _ _ (names_of_eq t f g Ht)) in H.
      rewrite Hn, Hh, bind_lift_ok in H.
      rewrite (bind_ok _ _ f _ _ (has_key_eq t phy_id f g Ht)) in H.
      rewrite Hd in H. cbn [negb] in H. rewrite Hp in H.
      rewrite bind_lift_raise in H. discriminate.
Qed.

(** Settings that were saved are found again under any name that is free;
    the save writes to its own table only and keeps its names distinct. *)
Lemma settings_processing_once t data preset_name f f' b pname g :
  open_table t f = Ok g ->
  settings_preset_processing t data preset_name f = (f', Ok (b, pname)) ->
  (forall name,
      name_in name (get_names (members t f')) = false ->
      settings_preset_processing t data name f' = (f', Ok (false, pname)))
  /\ (forall t', t' <> t -> open_table t' f' = open_table t' f)
  /\ KIND f' = KIND f
  /\ (names_distinct g -> names_distinct (members t f')).
Proof.
  intros Ht H.
  destruct (settings_processing_ok _ _ _ _ _ _ _ _ Ht H)
    as [Hn [phy_id [Hh [[d [Hd [-> [-> ->]]]]
                       |[payload [Hm [Hp [-> [-> ->]]]]]]]]].
  - split; [|split; [|split]]; auto.
    + intros name Hfree. unfold members in Hfree. rewrite Ht in Hfree.
      now apply settings_processing_known with (g := g) (phy_id := phy_id).
    + unfold members. now rewrite Ht.
  - split; [|split; [|split]].
    + intros name Hfree. rewrite members_with_table_same in Hfree.
      rewrite (settings_processing_known t data name _ _ phy_id _
                 (open_with_table_same _ _ _) Hfree Hh
                 (dict_get_app_fresh _ _ _ Hm)).
      reflexivity.
    + intros t' Hne. now apply open_with_table_other.
    + apply kind_with_table.
    + intros Hd. rewrite members_with_table_same.
      now apply names_distinct_named.
Qed.

(** X12. Settings that were saved as a physics preset of a type, or as a
    collision preset, are found again: the same settings saved under a
    name that is free write nothing and return [False] with the name of
    the preset that is there. A save that succeeds writes to the table of
    its type only and keeps the names of that table distinct. *)
Theorem physics_preset_saved_once (ptype : string) (data : dict)
  (preset_name : string) (f f' : file) (b : bool) (pname : option string)
  (g : group) :
  Dict.get (PHYSICS f) ptype = Some g ->
  (physics_preset_processing ptype data preset_name f = (f', Ok (b, pname)) ->
   (forall name,
       name_in name (get_names (members (T_PHYSICS ptype) f')) = false ->
       physics_preset_processing ptype data name f' = (f', Ok (false, pname)))
   /\ (forall t', t' <> T_PHYSICS ptype -> open_table t' f' = open_table t' f)
   /\ KIND f' = KIND f
   /\ (names_distinct g -> names_distinct (members (T_PHYSICS ptype) f')))
  /\ (ptype = "COLLISION" ->
      collision_preset_processing data preset_name f = (f', Ok (b, pname)) ->
      (forall name,
          name_in name (get_names (members (T_PHYSICS "COLLISION") f')) = false ->
          collision_preset_processing data name f' = (f', Ok (false, pname)))
      /\ (forall t', t' <> T_PHYSICS "COLLISION" ->
                     open_table t' f' = open_table t' f)
      /\ KIND f' = KIND f
      /\ (names_distinct g ->
          names_distinct (members (T_PHYSICS "COLLISION") f'))).
Proof.
  intros Hg.
  assert (open_table (T_PHYSICS ptype) f = Ok g) as Ht.
  { cbn [open_table]. unfold Dict.item. now rewrite Hg. }
  split.
  - intros H. unfold physics_preset_processing in *.
    exact (settings_processing_once _ _ _ _ _ _ _ _ Ht H).
  - intros -> H. unfold collision_preset_processing in *.
    exact (settings_processing_once _ _ _ _ _ _ _ _ Ht H).
Qed.

Lemma dict_mem_keys {A} (g : list (string * A)) k :
  Dict.mem g k = true <-> In k (Dict.keys g).
Proof.
  unfold Dict.mem, Dict.keys. induction g as [|[k0 v] g IH]; simpl.
  - split; [discriminate|intros []].
  - destruct (String.eqb k0 k) eqn:E.
    + apply String.eqb_eq in E. split; auto.
    + apply String.eqb_neq in E. rewrite IH. split; auto.
      intros [H|H]; auto. contradiction.
Qed.

Lemma dict_keys_app {A} (g g' : list (string * A)) :
  Dict.keys (g ++ g') = Dict.keys g ++ Dict.keys g'.
Proof. unfold Dict.keys. apply map_app. Qed.

Lemma hair_processing_known data preset_name f h_id d :
  name_in preset_name (get_names (HAIR_POINTS f)) = false ->
  hash_dict data = Ok h_id ->
  Dict.get (HAIR_POINTS f) h_id = Some d ->
  hair_preset_processing data preset_name f
  = (f, Ok (false, Dict.get (attrs d) "name")).
Proof.
  intros Hn Hh Hd. unfold hair_preset_processing.
  rewrite (bind_ok _ _ f _ _ (names_of_eq T_HAIR_POINTS f _ eq_refl)).
  rewrite Hn, Hh, bind_lift_ok.
  rewrite (bind_ok _ _ f _ _ (has_key_eq T_HAIR_POINTS h_id f _ eq_refl)).
  assert (Dict.mem (HAIR_POINTS f) h_id = true) as ->
      by (apply dict_mem_get; eauto).
  cbn [negb].
  now rewrite (bind_ok _ _ f _ _
                 (get_attr_eq T_HAIR_POINTS h_id "name" f _ d eq_refl Hd)).
Qed.

(** X13. A hair save that succeeds keeps the two tables of hair presets on
    the same ids, and the curve that was saved is found again under any
    name that is free. *)
Theorem hair_preset_saved_once (data : dict) (preset_name : string)
  (f f' : file) (b : bool) (pname : option string) :
  Dict.keys (HAIR_POINTS f) = Dict.keys (HAIR_SIZES f) ->
  hair_preset_processing data preset_name f = (f', Ok (b, pname)) ->
  Dict.keys (HAIR_POINTS f') = Dict.keys (HAIR_SIZES f')
  /\ (forall name,
         name_in name (get_names (HAIR_POINTS f')) = false ->
         hair_preset_processing data name f' = (f', Ok (false, pname))).
Proof.
  intros Hk H. unfold hair_preset_processing in H.
  rewrite (bind_ok _ _ f _ _ (names_of_eq T_HAIR_POINTS f _ eq_refl)) in H.
  destruct (name_in preset_name (get_names (HAIR_POINTS f))) eqn:Hn;
    [discriminate|].
  destruct (hash_dict data) as [h_id|e] eqn:Hh;
    [|rewrite bind_lift_raise in H; discriminate].
  rewrite bind_lift_ok in H.
  rewrite (bind_ok _ _ f _ _ (has_key_eq T_HAIR_POINTS h_id f _ eq_refl)) in H.
  destruct (Dict.get (HAIR_POINTS f) h_id) as [d|] eqn:Hd.
  - assert (Dict.mem (HAIR_POINTS f) h_id = true) as E
        by (apply dict_mem_get; eauto).
    rewrite E in H. cbn [negb] in H.
    rewrite (bind_ok _ _ f _ _
               (get_attr_eq T_HAIR_POINTS h_id "name" f _ d eq_refl Hd)) in H.
    run_inv H. split; auto.
    intros name Hfree. now apply hair_processing_known with (h_id := h_id).
  - apply dict_mem_false in Hd. rewrite Hd in H. cbn [negb] in H.
    destruct (Dict.item data "points") as [points|e];
      [|rewrite bind_lift_raise in H; discriminate].
    rewrite bind_lift_ok in H.
    destruct points; try discriminate H. rewrite bind_ret in H.
    rewrite (bind_ok _ _ _ _ _
               (create_dataset_eq T_HAIR_POINTS h_id _ f _ eq_refl Hd)) in H.
    rewrite (bind_ok _ _ _ _ _
               (create_then_set T_HAIR_POINTS h_id _ "name" preset_name
                  _ _ _ (open_with_table_same _ _ _) Hd)) in H.
    rewrite with_table_twice in H.
    destruct (Dict.item data "sizes") as [sizes|e];
      [|rewrite bind_lift_raise in H; discriminate].
    rewrite bind_lift_ok in H.
    destruct sizes; try discriminate H. rewrite bind_ret in H.
    apply bind_ok_inv in H. destruct H as [f1 [[] [Hc H]]].
    apply (create_dataset_inv T_HAIR_SIZES _ _ _ _ _ _ eq_refl) in Hc.
    destruct Hc as [Hs ->]. run_inv H.
    cbn [HAIR_POINTS HAIR_SIZES with_table].
    split.
    + rewrite !dict_keys_app. now rewrite Hk.
    + intros name Hfree.
      match goal with
      | |- hair_preset_processing _ _ ?f1 = _ =>
          rewrite (hair_processing_known data name f1 h_id _ Hfree Hh
                     (dict_get_app_fresh _ _ _ Hd))
      end.
      reflexivity.
Qed.

(** The part of [node_preset_processing] that does not read the file: the
    kind of the node and the id of its data. *)
Lemma node_preset_processing_eq node_ g preset_name f :
  node_preset_processing node_ g preset_name f
  = match
      rbind (of_option StopIteration
                       (hd_error (match_node_structure_gen node_ g)))
        (fun found =>
         rbind (get_nodes_func_dict (snd found)) (fun func =>
         rbind (node_at g (path_value (fst found))) (fun n =>
         rbind (func n) (fun data =>
         rbind (hash_dict data) (fun nid => Ok (snd found, data, nid))))))
    with
    | Raise e => (f, Raise e)
    | Ok (node_type, data, nid) =>
        bind (names_of T_NODES) (fun names =>
          if name_in preset_name names then
            raise (NameExistsError
                     ("[Node Preset] " +++ preset_name
                      +++ " already exists. Please choose another name."))
          else
            bind (has_key T_NODES nid) (fun known =>
              if negb known then
                kind_ids node_type ;;;
                payload <- lift (Json.reload (VDict data)) ;;
                create_dataset T_NODES nid payload ;;;
                set_attr T_NODES nid "name" preset_name ;;;
                set_attr T_NODES nid "type" node_type ;;;
                listed <- kind_ids node_type ;;
                (if negb (mem_string nid listed)
                 then kind_append node_type nid
                 else ret tt) ;;;
                ret (true, None)
              else
                pname <- get_attr T_NODES nid "name" ;;
                ret (false, pname))) f
    end.
Proof.
  unfold node_preset_processing.
  destruct (of_option StopIteration
              (hd_error (match_node_structure_gen node_ g)))
    as [found|e]; [|reflexivity].
  rewrite bind_lift_ok. cbn [rbind]. cbv zeta.
  destruct (get_nodes_func_dict (snd found)) as [func|e]; [|reflexivity].
  rewrite bind_lift_ok. cbn [rbind].
  destruct (node_at g (path_value (fst found))) as [n|e]; [|reflexivity].
  rewrite bind_lift_ok. cbn [rbind].
  destruct (func n) as [data|e]; [|reflexivity].
  rewrite bind_lift_ok. cbn [rbind].
  destruct (hash_dict data) as [nid|e]; [|reflexivity].
  rewrite bind_lift_ok. reflexivity.
Qed.

(** X14. A special node that was saved as a preset is found again: saved
    under a name that is free, it writes nothing and returns [False] with
    the name of the record; under a name that is taken it is refused. The
    save that creates the record returns [True] with no name, and lists the
    record in the dataset of its kind. *)
Theorem node_preset_saved_once (node_ : nat) (g : node_tree)
  (preset_name : string) (f f' : file) (b : bool) (pname : option string) :
  node_preset_processing node_ g preset_name f = (f', Ok (b, pname)) ->
  exists node_type nid d l,
    Dict.get (NODES f') nid = Some d
    /\ (if b then pname = None
                  /\ Dict.get (attrs d) "name" = Some preset_name
                  /\ Dict.get (attrs d) "type" = Some node_type
                  /\ Dict.get (KIND f') node_type = Some l
                  /\ mem_string nid l = true
        else f' = f /\ pname = Dict.get (attrs d) "name")
    /\ (forall name,
           name_in name (get_names (NODES f')) = false ->
           node_preset_processing node_ g name f'
           = (f', Ok (false, Dict.get (attrs d) "name")))
    /\ (forall name,
           name_in name (get_names (NODES f')) = true ->
           node_preset_processing node_ g name f'
           = (f', Raise (NameExistsError
                           ("[Node Preset] " +++ name
                            +++ " already exists. Please choose another name.")))).
Proof.
  intros H.
  rewrite node_preset_processing_eq in H.
  destruct (rbind _ _) as [[[node_type data] nid]|e] eqn:Chain;
    [|discriminate].
  assert (forall f1 d name,
             Dict.get (NODES f1) nid = Some d ->
             (name_in name (get_names (NODES f1)) = false ->
              node_preset_processing node_ g name f1
              = (f1, Ok (false, Dict.get (attrs d) "name")))
             /\ (name_in name (get_names (NODES f1)) = true ->
                 node_preset_processing node_ g name f1
                 = (f1, Raise (NameExistsError
                                 ("[Node Preset] " +++ name
                                  +++ " already exists. Please choose another name."))))) as Known.
  { intros f1 d name Hd. rewrite node_preset_processing_eq, Chain.
    rewrite (bind_ok _ _ f1 _ _ (names_of_eq T_NODES f1 _ eq_refl)).
    split; intros Hn; rewrite Hn; [|reflexivity].
    rewrite (bind_ok _ _ f1 _ _ (has_key_eq T_NODES nid f1 _ eq_refl)).
    assert (Dict.mem (NODES f1) nid = true) as ->
        by (apply dict_mem_get; eauto).
    cbn [negb].
    now rewrite (bind_ok _ _ f1 _ _
                   (get_attr_eq T_NODES nid "name" f1 _ d eq_refl Hd)). }
  rewrite (bind_ok _ _ f _ _ (names_of_eq T_NODES f _ eq_refl)) in H.
  destruct (name_in preset_name (get_names (NODES f))); [discriminate|].
  rewrite (bind_ok _ _ f _ _ (has_key_eq T_NODES nid f _ eq_refl)) in H.
  destruct (Dict.get (NODES f) nid) as [d|] eqn:Hd.
  - assert (Dict.mem (NODES f) nid = true) as E
        by (apply dict_mem_get; eauto).
    rewrite E in H. cbn [negb] in H.
    rewrite (bind_ok _ _ f _ _
               (get_attr_eq T_NODES nid "name" f _ d eq_refl Hd)) in H.
    run_inv H. exists node_type, nid, d, []. split; auto. split; auto.
    split; intros name Hn; now apply (Known f' d name).
  - apply dict_mem_false in Hd. rewrite Hd in H. cbn [negb] in H.
    apply bind_ok_inv in H. destruct H as [f1 [l0 [Hl H]]].
    apply kind_ids_inv in Hl. destruct Hl as [-> Hl].
    destruct (Json.reload (VDict data)) as [payload|e];
      [|rewrite bind_lift_raise in H; discriminate].
    rewrite bind_lift_ok in H.
    rewrite (bind_ok _ _ _ _ _
               (create_dataset_eq T_NODES nid payload f _ eq_refl Hd)) in H.
    rewrite (bind_ok _ _ _ _ _
               (create_then_set T_NODES nid payload "name" preset_name
                  _ _ _ (open_with_table_same _ _ _) Hd)) in H.
    rewrite with_table_twice in H.
    rewrite (bind_ok _ _ _ _ _
               (create_then_set T_NODES nid payload "type" node_type
                  _ _ _ (open_with_table_same _ _ _) Hd)) in H.
    rewrite with_table_twice in H.
    apply bind_ok_inv in H. destruct H as [f2 [l1 [Hl1 H]]].
    apply kind_ids_inv in Hl1. destruct Hl1 as [-> Hl1].
    set (d := {| attrs := Dict.set (Dict.set [] "name" preset_name)
                                   "type" node_type;
                 data := payload |}) in *.
    set (f1 := with_table T_NODES (NODES f ++ [(nid, d)]) f) in *.
    assert (exists l, Dict.get (KIND f') node_type = Some l
                      /\ mem_string nid l = true
                      /\ NODES f' = NODES f ++ [(nid, d)]
                      /\ b = true /\ pname = None)
      as [l [Hk [Hin [Hnodes [-> ->]]]]].
    { destruct (mem_string nid l1) eqn:M; cbn [negb] in H.
      - run_inv H. exists l1. auto.
      - rewrite (bind_ok _ _ _ _ _ (kind_append_eq node_type nid f1 l1 Hl1))
          in H.
        run_inv H. exists (l1 ++ [nid]). cbn [KIND NODES with_kind].
        rewrite dict_get_set_same. split; auto. split; auto.
        apply mem_string_app_last. }
    assert (Dict.get (NODES f') nid = Some d) as Hd'.
    { rewrite Hnodes. now apply dict_get_app_fresh. }
    exists node_type, nid, d, l. split; auto. split.
    { repeat split; auto. }
    split; intros name Hn; now apply (Known f' d name).
Qed.

(* ------------------------------------------------------------------ *)
(** ** Saving a stack of modifiers *)

Lemma save_transaction_grows c mat_id values_id ni_id name f f' r k :
  save_transaction c mat_id values_id ni_id name f = (f', Ok r) ->
  Dict.mem (members (T_TRANSACTIONS c) f) k = true ->
  Dict.mem (members (T_TRANSACTIONS c) f') k = true.
Proof.
  intros H Hm. destruct r as [pid pname].
  pose proof (save_transaction_ok _ _ _ _ _ _ _ _ _ H) as [Hh [_ [_ Hk]]].
  destruct (Dict.mem (members (T_TRANSACTIONS c) f) pid) eqn:E.
  - now rewrite (Hk eq_refl).
  - unfold save_transaction in H. rewrite Hh, bind_lift_ok in H.
    rewrite (bind_ok _ _ f _ _ (has_key_eq (T_TRANSACTIONS c) pid f _ eq_refl))
      in H.
    change (TRANSACTIONS (type_file_of c f))
      with (members (T_TRANSACTIONS c) f) in H.
    rewrite E in H. cbn [negb] in H. rewrite bind_assoc in H.
    rewrite (bind_ok _ _ _ _ _
               (create_dataset_eq (T_TRANSACTIONS c) pid _ f _ eq_refl E)) in H.
    rewrite (bind_ok _ _ _ _ _
               (create_then_set (T_TRANSACTIONS c) pid _ "name" name
                  _ _ _ (open_with_table_same _ _ _) E)) in H.
    rewrite with_table_twice in H.
    rewrite (bind_ok _ _ _ _ _
               (get_attr_eq (T_TRANSACTIONS c) pid "name" _ _ _
                  (open_with_table_same _ _ _)
                  (dict_get_app_fresh _ _ _ E))) in H.
    run_inv H. rewrite members_with_table_same.
    now apply dict_mem_app.
Qed.

(** A save of a graph lists its preset among the transactions of the
    class, keeps the transactions that are there, and leaves the stacks of
    modifiers alone. *)
Lemma graph_processing_transactions policy s preset_name user_ f f' b pname
  pid :
  graph_processing policy s preset_name user_ f = (f', Ok (b, pname, pid)) ->
  Dict.mem (members (T_TRANSACTIONS (class_of s)) f') pid = true
  /\ (forall k,
         Dict.mem (members (T_TRANSACTIONS (class_of s)) f) k = true ->
         Dict.mem (members (T_TRANSACTIONS (class_of s)) f') k = true)
  /\ members T_MODIFIER_STACK f' = members T_MODIFIER_STACK f.
Proof.
  intros H. pose proof (graph_processing_ok _ _ _ _ _ _ _ _ _ H) as S.
  apply graph_processing_steps in H.
  destruct H as [name mat_id nv ntd_ ntd node_ids ni_id f1 f2 f3 f4 f5
                   H0 Hg Hv H1 H2 Hk H3 H4 H5 H6].
  pose proof (touches_frame _ _ _ _ _ _ (touches_save_info _ _ _) H1) as F1.
  pose proof (touches_frame _ _ _ _ _ _ (touches_save_data _ _ _ _) H2) as F2.
  pose proof (touches_frame _ _ _ _ _ _ (touches_save_kinds _ _ _) H3) as F3.
  pose proof (touches_frame _ _ _ _ _ _ (touches_save_node_stack _) H4) as F4.
  pose proof (touches_frame _ _ _ _ _ _
                (touches_save_transaction _ _ _ _ _) H5) as F5.
  pose proof (touches_frame _ _ _ _ _ _ (touches_link_preset _ _ _ _) H6)
    as F6.
  split; [|split].
  - destruct S as [? [? [? [? [? [? [dtrans S]]]]]]].
    apply dict_mem_get. exists dtrans. tauto.
  - intros k Hm.
    rewrite (members_frame _ _ _ _ _ F6) by untouched.
    apply (save_transaction_grows _ _ _ _ _ _ _ _ _ H5).
    rewrite (members_frame _ _ _ _ _ F4), (members_frame _ _ _ _ _ F3),
      (members_frame _ _ _ _ _ F2), (members_frame _ _ _ _ _ F1);
      auto; untouched.
  - rewrite (members_frame _ _ _ _ _ F6), (members_frame _ _ _ _ _ F5),
      (members_frame _ _ _ _ _ F4), (members_frame _ _ _ _ _ F3),
      (members_frame _ _ _ _ _ F2), (members_frame _ _ _ _ _ F1);
      auto; untouched.
Qed.

Lemma save_layers_ok mods preset_name :
  forall ids success fail f f' ids' success' fail',
    save_layers mods preset_name ids success fail f
    = (f', Ok (ids', success', fail')) ->
    Forall (is_transaction f) ids ->
    List.length ids' = List.length ids + List.length mods
    /\ List.length success' + List.length fail'
       = List.length success + List.length fail + List.length mods
    /\ Forall (is_transaction f') ids'
    /\ members T_MODIFIER_STACK f' = members T_MODIFIER_STACK f.
Proof.
  induction mods as [|md rest IH];
    intros ids success fail f f' ids' success' fail' H Hids.
  - cbn [save_layers] in H. run_inv H. cbn [List.length].
    repeat split; auto; lia.
  - cbn [save_layers] in H. cbv zeta in H.
    apply bind_ok_inv in H. destruct H as [f1 [[[b pname] pid] [Hg H]]].
    unfold geometry_node_processing in Hg.
    apply graph_processing_transactions in Hg.
    cbn [class_of] in Hg. destruct Hg as [Hp [Hkeep Hst]].
    assert (Forall (is_transaction f1) (ids ++ [pid])) as Hids1.
    { apply Forall_app. split.
      - eapply Forall_impl; [|exact Hids]. intros k. apply Hkeep.
      - constructor; auto. }
    destruct b; apply IH in H; auto;
      destruct H as [Hl [Hc [Hf Hm]]];
      rewrite ?length_app in *; cbn [List.length] in *;
      (split; [lia|]); (split; [lia|]); split; auto; congruence.
Qed.

(** X15. A stack preset that is saved reports every layer and the stack
    itself once, each as a success or as a failure; the ids of the layers
    are transactions of the node groups afterwards; and the stack is either
    new, stored under the hash of the ids with the proposed name and
    reported last among the successes, or known, and then the table of
    stacks is as before and the name is reported last among the
    failures. *)
Theorem modifier_stack_preset_is_reported (modifiers : list stack_modifier)
  (preset_name : string) (include_surface_deform : bool) (f f' : file)
  (success fail : list (option string)) :
  modifier_stack_preset_processing modifiers preset_name
                                   include_surface_deform f
  = (f', Ok (success, fail)) ->
  List.length success + List.length fail
  = S (List.length (layers modifiers include_surface_deform))
  /\ exists ids ms_id,
      List.length ids
      = List.length (layers modifiers include_surface_deform)
      /\ Forall (is_transaction f') ids
      /\ hash_list (map VStr ids) = Ok ms_id
      /\ ((exists reported,
              success = reported ++ [Some preset_name]
              /\ Dict.mem (members T_MODIFIER_STACK f) ms_id = false
              /\ members T_MODIFIER_STACK f'
                 = members T_MODIFIER_STACK f
                   ++ [(ms_id, {| attrs := [("name", preset_name)];
                                  data := ids_value ids |})])
          \/ (exists reported,
                 fail = reported ++ [Some preset_name]
                 /\ Dict.mem (members T_MODIFIER_STACK f) ms_id = true
                 /\ members T_MODIFIER_STACK f'
                    = members T_MODIFIER_STACK f)).
Proof.
  unfold modifier_stack_preset_processing. cbv zeta.
  fold (layers modifiers include_surface_deform).
  intros H.
  rewrite (bind_ok _ _ f _ _ (names_of_eq T_MODIFIER_STACK f _ eq_refl)) in H.
  destruct (name_in preset_name _); [discriminate|].
  apply bind_ok_inv in H. destruct H as [f1 [[[ids s0] f0] [Hl H]]].
  apply save_layers_ok in Hl; [|constructor].
  cbn [List.length] in Hl. destruct Hl as [Hn [Hc [Hids Hst]]].
  destruct (hash_list (map VStr ids)) as [ms_id|e] eqn:Hh;
    [|rewrite bind_lift_raise in H; discriminate].
  rewrite bind_lift_ok in H.
  rewrite (bind_ok _ _ f1 _ _ (has_key_eq T_MODIFIER_STACK ms_id f1 _ eq_refl))
    in H.
  change (MODIFIER_STACK f1) with (members T_MODIFIER_STACK f1) in H.
  destruct (Dict.mem (members T_MODIFIER_STACK f1) ms_id) eqn:E;
    cbn [negb] in H.
  - run_inv H. split.
    { rewrite length_app. cbn [List.length]. lia. }
    exists ids, ms_id. split; [lia|]. split; auto. split; auto.
    right. exists f0. rewrite <- Hst. auto.
  - rewrite (bind_ok _ _ _ _ _
               (create_dataset_eq T_MODIFIER_STACK ms_id _ f1 _ eq_refl E))
      in H.
    rewrite (bind_ok _ _ _ _ _
               (create_then_set T_MODIFIER_STACK ms_id _ "name" preset_name
                  _ _ _ (open_with_table_same _ _ _) E)) in H.
    rewrite with_table_twice in H. run_inv H. split.
    { rewrite length_app. cbn [List.length]. lia. }
    exists ids, ms_id. split; [lia|]. split.
    { eapply Forall_impl; [|exact Hids]. intros k Hk.
      unfold is_transaction in *.
      now rewrite (members_with_table_other (T_TRANSACTIONS Geometry_Node)
                     T_MODIFIER_STACK) by discriminate. }
    split; auto. left. exists s0.
    rewrite members_with_table_same, <- Hst. auto.
Qed.

(* ------------------------------------------------------------------ *)
(** ** The paths of the special nodes *)

Lemma structure_node_eq ntype data u nm t a i d gnodes glinks :
  structure_node ntype data (Node u nm t a i d gnodes glinks)
  = (if String.eqb t ntype then [data] else [])
    ++ (if String.eqb t "GROUP" then structure_from ntype gnodes data O
        else []).
Proof.
  simpl. f_equal. destruct (String.eqb t "GROUP"); auto.
  generalize O. induction gnodes as [|m rest IH]; intros k; simpl; auto.
  now rewrite IH.
Qed.

Section Paths.

Variable ntype : string.

Lemma structure_from_listed l :
  Forall (listed_from ntype) l ->
  forall parent i p,
    In p (structure_from ntype l parent i)
    <-> exists j q n m,
          nth_error l j = Some n /\ p = parent ++ (i + j) :: q
          /\ follow n q = Some m /\ type m = ntype.
Proof.
  induction 1 as [|n0 rest Hn _ IH]; intros parent i p.
  - cbn [structure_from]. split; [intros []|].
    intros [j [q [n [m [Hj _]]]]]. destruct j; discriminate.
  - cbn [structure_from]. unfold listed_from in Hn.
    rewrite in_app_iff, Hn, IH. split.
    + intros [[q [m [-> [Hf Ht]]]]|[j [q [n [m [Hj [-> [Hf Ht]]]]]]]].
      * exists O, q, n0, m. rewrite Nat.add_0_r, <- app_assoc. auto.
      * exists (S j), q, n, m. rewrite Nat.add_succ_r. auto.
    + intros [[|j] [q [n [m [Hj [-> [Hf Ht]]]]]]].
      * left. injection Hj as <-. exists q, m.
        rewrite Nat.add_0_r, <- app_assoc. auto.
      * right. exists j, q, n, m. rewrite Nat.add_succ_r. auto.
Qed.

Lemma structure_node_listed n : listed_from ntype n.
Proof.
  induction n as [u nm t a i d gnodes glinks IH] using node_induction.
  intros data p. rewrite structure_node_eq, in_app_iff.
  pose proof (structure_from_listed gnodes IH data O p) as Hfrom.
  set (n := Node u nm t a i d gnodes glinks).
  change (String.eqb t "GROUP") with (is_group n).
  split.
  - intros [Hp|Hp].
    + destruct (String.eqb t ntype) eqn:E; [|destruct Hp].
      destruct Hp as [<-|[]]. apply String.eqb_eq in E.
      exists [], n. rewrite app_nil_r. auto.
    + destruct (is_group n) eqn:G; [|destruct Hp].
      apply Hfrom in Hp. destruct Hp as [j [q [n' [m [Hj [-> [Hf Ht]]]]]]].
      exists (j :: q), m. split; auto. split; auto.
      cbn [follow]. rewrite G. cbn [group_nodes n]. now rewrite Hj.
  - intros [[|j q] [m [-> [Hf Ht]]]].
    + left. injection Hf as <-. cbn [type n] in Ht.
      apply String.eqb_eq in Ht. rewrite Ht, app_nil_r. now left.
    + right. cbn [follow] in Hf.
      destruct (is_group n) eqn:G; [|discriminate].
      cbn [group_nodes n] in Hf.
      destruct (nth_error gnodes j) as [n'|] eqn:Hj; [|discriminate].
      apply Hfrom. exists j, q, n', m. auto.
Qed.

(** [get_node_structure_list] on the nodes of a tree yields the paths of
    indices that denote a node of the type, and no other. *)
Lemma get_node_structure_list_spec (l : list node) (p : list nat) :
  In p (get_node_structure_list l ntype [])
  <-> exists m, node_by_index l p = Some m /\ type m = ntype.
Proof.
  unfold get_node_structure_list.
  rewrite (structure_from_listed l).
  2:{ apply Forall_forall. intros n _. apply structure_node_listed. }
  split.
  - intros [j [q [n [m [Hj [-> [Hf Ht]]]]]]]. exists m.
    cbn [app Nat.add node_by_index]. now rewrite Hj.
  - intros [m [Hn Ht]]. destruct p as [|j q]; [discriminate|].
    cbn [node_by_index] in Hn.
    destruct (nth_error l j) as [n|] eqn:Hj; [|discriminate].
    exists j, q, n, m. auto.
Qed.

End Paths.

(** X16. The classification of a tree lists, under each kind of special node
    of the class that occurs in the tree, the paths of indices that lead,
    through the groups, to a node of that kind, all of them and no other;
    a kind that does not occur is not a key. *)
Theorem node_type_dict_lists_the_nodes (g : node_tree) (c : classification)
  (k : string) :
  (forall ps,
      In (k, ps) (node_type_dict g c) ->
      In k (slice_dict c) /\ ps <> []
      /\ forall p, In p ps
                   <-> exists m, node_by_index (nodes g) p = Some m
                                 /\ type m = k)
  /\ (forall p m,
         In k (slice_dict c) ->
         node_by_index (nodes g) p = Some m -> type m = k ->
         exists ps, In (k, ps) (node_type_dict g c) /\ In p ps).
Proof.
  assert (forall kv,
             In kv (node_type_dict g c)
             <-> (In (fst kv) (slice_dict c)
                  /\ snd kv = get_node_structure_list (nodes g) (fst kv) []
                  /\ snd kv <> [])) as Hin.
  { intros [k' ps]. unfold node_type_dict. rewrite filter_In. cbn [fst snd].
    assert (forall l : list (list nat),
               Nat.ltb 0 (List.length l) = true <-> l <> []) as Hne.
    { intros [|x l]; cbn; split; intros H; try discriminate; auto. }
    rewrite Hne.
    assert (Dict.of_pairs
              (map (fun node_type =>
                      (node_type,
                       get_node_structure_list (nodes g) node_type []))
                   (slice_dict c))
            = map (fun node_type =>
                     (node_type,
                      get_node_structure_list (nodes g) node_type []))
                  (slice_dict c)) as -> by (destruct c; reflexivity).
    rewrite in_map_iff. split.
    - intros [[x [E Hx]] Hn]. injection E as <- <-. auto.
    - intros [Hk [-> Hn]]. split; auto. exists k'. auto. }
  split.
  - intros ps H. apply Hin in H. cbn [fst snd] in H.
    destruct H as [Hk [-> Hn]]. split; auto. split; auto.
    intros p. apply get_node_structure_list_spec.
  - intros p m Hk Hp Ht.
    exists (get_node_structure_list (nodes g) k []).
    assert (In p (get_node_structure_list (nodes g) k [])) as Hp'
        by (apply get_node_structure_list_spec; eauto).
    split; auto. apply Hin. cbn [fst snd]. split; auto. split; auto.
    intros E. rewrite E in Hp'. destruct Hp'.
Qed.

(* ------------------------------------------------------------------ *)
(** ** The rename operators *)

Section RenameFacts.

Import Rename.

Variable chunks : H5.file -> list H5.file.

Lemma modify_in_zip_raises {R} (func : H5.M R) write_fault (d : disk)
  entries c c' e :
  Zip.zip_file d = Some entries ->
  Zip.entry_named file entries preset_file = Some c ->
  func c = (c', Raise e) ->
  Zip.modify_in_zip file chunks preset_file func write_fault d
  = ({| Zip.zip_file := Zip.zip_file d;
        Zip.extract_dir :=
          Zip.remove_file file (Zip.extract_dir d) preset_file |},
     Ok None).
Proof.
  intros Hz He Hf.
  unfold Zip.modify_in_zip, Zip.attempt, Zip.extract. rewrite Hz, He.
  unfold Zip.run. cbn [Zip.extract_dir Zip.zip_file].
  rewrite dict_get_set_same, Hf.
  unfold Zip.unlink. cbn [Zip.extract_dir Zip.zip_file].
  assert (Dict.mem (Dict.set (Dict.set (Zip.extract_dir d) preset_file c)
                             preset_file c') preset_file = true) as ->
      by (apply dict_mem_get; eexists; apply dict_get_set_same).
  cbn [fst Zip.zip_file Zip.extract_dir].
  now rewrite !remove_file_set.
Qed.

Lemma rename_execute_missing_id write_fault pfile names id_ name (d : disk)
  entries c g :
  String.eqb id_ "None" = false ->
  ~ unusable name ->
  Zip.zip_file d = Some entries ->
  Zip.entry_named file entries preset_file = Some c ->
  open_table pfile c = Ok g ->
  names c = Ok (get_names g) ->
  name_in name (get_names g) = false ->
  Dict.mem g id_ = false ->
  rename_execute chunks write_fault pfile names id_ name d
  = ({| Zip.zip_file := Zip.zip_file d;
        Zip.extract_dir :=
          Zip.remove_file file (Zip.extract_dir d) preset_file |},
     Ok (Changed None, FINISHED)).
Proof.
  intros Hid Hu Hz He Hg Hn Hfree Hm. unfold rename_execute.
  rewrite Hid. apply check_name_usable in Hu. rewrite Hu.
  unfold get_from_zip. rewrite Hz, He, Hn, Hfree.
  rewrite (modify_in_zip_raises _ _ _ _ _ _ _ Hz He
             (change_preset_name_no_id pfile _ _ _ _ Hg Hfree Hm)).
  now rewrite ?Hz.
Qed.

(** X5. Renaming with an id that is not in the table changes nothing in the
    archive, and the operator still reports that [None] was changed to the
    new name and returns [FINISHED]: the [KeyError] ends in the wrapper,
    which returns [None]. *)
Theorem rename_of_a_missing_id_is_reported_finished (write_fault : option nat)
  (id_ name : string) (d : disk) (entries : list (string * file))
  (c : file) :
  id_ <> "None" ->
  ~ unusable name ->
  Zip.zip_file d = Some entries ->
  Zip.entry_named file entries preset_file = Some c ->
  (name_in name (get_names (TRANSACTIONS (MATERIALS c))) = false ->
   Dict.mem (TRANSACTIONS (MATERIALS c)) id_ = false ->
   HAIRFACTORY_OT_rename_mat_preset chunks write_fault id_ name d
   = ({| Zip.zip_file := Zip.zip_file d;
         Zip.extract_dir :=
           Zip.remove_file file (Zip.extract_dir d) preset_file |},
      Ok (Changed None, FINISHED)))
  /\ (name_in name (get_names (NODES c)) = false ->
      Dict.mem (NODES c) id_ = false ->
      HAIRFACTORY_OT_rename_node_preset chunks write_fault id_ name d
      = ({| Zip.zip_file := Zip.zip_file d;
            Zip.extract_dir :=
              Zip.remove_file file (Zip.extract_dir d) preset_file |},
         Ok (Changed None, FINISHED))).
Proof.
  intros Hid Hu Hz He. apply String.eqb_neq in Hid.
  split; intros Hfree Hm.
  - now apply (rename_execute_missing_id write_fault
                 (T_TRANSACTIONS Material) get_mat_preset_names id_ name d
                 entries c (TRANSACTIONS (MATERIALS c))).
  - now apply (rename_execute_missing_id write_fault T_NODES
                 get_node_preset_names id_ name d entries c (NODES c)).
Qed.

Hypothesis one_piece : forall f, chunks f = [f].

Lemma rename_execute_renames pfile names id_ name (d : disk) entries c g rec :
  String.eqb id_ "None" = false ->
  ~ unusable name ->
  Zip.zip_file d = Some entries ->
  Zip.entry_named file entries preset_file = Some c ->
  open_table pfile c = Ok g ->
  (forall f, names f = rbind (open_table pfile f)
                             (fun g => Ok (get_names g))) ->
  name_in name (get_names g) = false ->
  Dict.get g id_ = Some rec ->
  exists d',
    rename_execute chunks None pfile names id_ name d
    = (d', Ok (Changed (Some (Dict.get (attrs rec) "name")), FINISHED))
    /\ get_from_zip preset_file (get_name_by_id pfile id_) d'
       = Some (Some name)
    /\ rename_execute chunks None pfile names id_ name d'
       = (d', Ok (Already_used, CANCELLED)).
Proof.
  intros Hid Hu Hz He Hg Hn Hfree Hrec.
  pose proof (change_preset_name_renames pfile id_ name c g rec Hg Hfree Hrec)
    as Hc.
  set (rec' := {| attrs := Dict.set (attrs rec) "name" name;
                  data := data rec |}) in *.
  set (g' := Dict.set g id_ rec') in *.
  set (c' := with_table pfile g' c) in *.
  assert (open_table pfile c' = Ok g') as Hg'
      by apply open_with_table_same.
  assert (Dict.get g' id_ = Some rec') as Hrec'
      by apply dict_get_set_same.
  assert (Dict.get (attrs rec') "name" = Some name) as Hshow
      by apply dict_get_set_same.
  pose proof (modify_in_zip_ok chunks preset_file
                (change_preset_name pfile id_ name) d entries c c' _
                Hz He Hc) as Hm.
  rewrite one_piece in Hm. cbn [map] in Hm.
  eexists. unfold rename_execute. rewrite Hid.
  apply check_name_usable in Hu. rewrite Hu.
  unfold get_from_zip at 1. rewrite Hz, He, Hn, Hg. cbn [rbind].
  rewrite Hfree, Hm. split; [reflexivity|].
  unfold get_from_zip. cbn [Zip.zip_file Zip.entry_named].
  rewrite String.eqb_refl.
  unfold get_name_by_id.
  rewrite (get_attr_eq pfile id_ "name" c' g' rec' Hg' Hrec'). cbn [snd].
  rewrite Hshow. split; [reflexivity|].
  rewrite Hn, Hg'. cbn [rbind].
  assert (name_in name (get_names g') = true) as ->; [|reflexivity].
  now apply name_in_get_names with (id_ := id_) (d := rec').
Qed.

(** X6. With a file that is read back in one piece, renaming a preset
    through the operator returns [FINISHED] with the previous name; the name
    then read from the archive for the id is the new one, and the same
    rename once more is refused as already used, the archive as it is. *)
Theorem rename_is_read_back (id_ name : string) (d : disk)
  (entries : list (string * file)) (c : file) :
  id_ <> "None" ->
  ~ unusable name ->
  Zip.zip_file d = Some entries ->
  Zip.entry_named file entries preset_file = Some c ->
  (forall rec,
      name_in name (get_names (TRANSACTIONS (MATERIALS c))) = false ->
      Dict.get (TRANSACTIONS (MATERIALS c)) id_ = Some rec ->
      exists d',
        HAIRFACTORY_OT_rename_mat_preset chunks None id_ name d
        = (d', Ok (Changed (Some (Dict.get (attrs rec) "name")), FINISHED))
        /\ get_from_zip preset_file
             (get_name_by_id (T_TRANSACTIONS Material) id_) d'
           = Some (Some name)
        /\ HAIRFACTORY_OT_rename_mat_preset chunks None id_ name d'
           = (d', Ok (Already_used, CANCELLED)))
  /\ (forall rec,
         name_in name (get_names (NODES c)) = false ->
         Dict.get (NODES c) id_ = Some rec ->
         exists d',
           HAIRFACTORY_OT_rename_node_preset chunks None id_ name d
           = (d', Ok (Changed (Some (Dict.get (attrs rec) "name")), FINISHED))
           /\ get_from_zip preset_file (get_name_by_id T_NODES id_) d'
              = Some (Some name)
           /\ HAIRFACTORY_OT_rename_node_preset chunks None id_ name d'
              = (d', Ok (Already_used, CANCELLED))).
Proof.
  intros Hid Hu Hz He. apply String.eqb_neq in Hid.
  split; intros rec Hfree Hrec.
  - now apply (rename_execute_renames (T_TRANSACTIONS Material)
                 get_mat_preset_names id_ name d entries c
                 (TRANSACTIONS (MATERIALS c)) rec).
  - now apply (rename_execute_renames T_NODES get_node_preset_names id_ name
                 d entries c (NODES c) rec).
Qed.

End RenameFacts.

(* ------------------------------------------------------------------ *)
(** ** The store is addressed by content *)

Lemma rmap_ok_inv {A B} (f : A -> result B) l l' :
  rmap f l = Ok l' -> Forall2 (fun a b => f a = Ok b) l l'.
Proof.
  revert l'. induction l as [|a l IH]; intros l' H; cbn [rmap] in H.
  - injection H as <-. constructor.
  - destruct (f a) as [b|e] eqn:E; [|discriminate]. cbn [rbind] in H.
    destruct (rmap f l) as [bs|e]; [|discriminate]. cbn [rbind] in H.
    injection H as <-. constructor; auto.
Qed.

Lemma reload_sequence xs ws b :
  Forall reads_back xs ->
  Forall2 (fun a w => Json.reload a = Ok w) xs ws ->
  map (Json.dumps b) ws = map (Json.dumps b) xs.
Proof.
  intros HF H2. induction H2 as [|x w xs ws Hx _ IH]; auto.
  inversion HF; subst. cbn [map]. f_equal; auto.
  now destruct (H1 w Hx b).
Qed.

Lemma reload_items (kvs kws : list (string * value)) b
  (g : value -> value) :
  Forall (fun kv => reads_back (snd kv)) kvs ->
  Forall2 (fun kv kw => rbind (Json.reload (snd kv))
                          (fun w => Ok (fst kv, w)) = Ok kw) kvs kws ->
  (forall (kv : string * value) w,
      reads_back (snd kv) -> Json.reload (snd kv) = Ok w ->
      Json.dumps b (g w) = Json.dumps b (snd kv)) ->
  map (fun kw => (fst kw, Json.dumps b (g (snd kw)))) kws
  = map (fun kv => (fst kv, Json.dumps b (snd kv))) kvs.
Proof.
  intros HF H2 Hg. induction H2 as [|kv kw kvs kws Hx _ IH]; auto.
  inversion HF; subst. cbn [map].
  destruct (Json.reload (snd kv)) as [w|e] eqn:E; [|discriminate].
  cbn [rbind] in Hx. injection Hx as <-. cbn [fst snd].
  f_equal; auto. f_equal. now apply Hg.
Qed.

Lemma reload_reads_back v : reads_back v.
Proof.
  induction v using value_induction; intros w Hw sk;
    try (cbn in Hw; injection Hw as <-; auto; fail);
    try discriminate.
  - cbn [Json.reload] in Hw.
    destruct (rmap Json.reload xs) as [ws|e] eqn:E; [|discriminate].
    injection Hw as <-. apply rmap_ok_inv in E.
    cbn [immutable_value Json.dumps].
    rewrite (reload_sequence xs ws sk H E). auto.
  - cbn [Json.reload] in Hw.
    destruct (rmap Json.reload xs) as [ws|e] eqn:E; [|discriminate].
    injection Hw as <-. apply rmap_ok_inv in E.
    cbn [immutable_value Json.dumps].
    rewrite (reload_sequence xs ws sk H E). auto.
  - cbn [Json.reload] in Hw.
    destruct (rmap _ kvs) as [kws|e] eqn:E; [|discriminate].
    injection Hw as <-. apply rmap_ok_inv in E.
    cbn [immutable_value Json.dumps]. cbv zeta. rewrite !map_map.
    cbn [fst snd].
    rewrite (reload_items kvs kws sk (fun w => w) H E).
    2:{ intros kv w R Hr. now destruct (R w Hr sk). }
    rewrite (reload_items kvs kws sk immutable_value H E).
    2:{ intros kv w R Hr. now destruct (R w Hr sk) as [_ [? _]]. }
    split; auto. split; auto.
    assert (map (fun x : string * value =>
                   (fst x, Json.dumps sk (immutable_value (snd x)))) kvs
            = map (fun kv : string * value =>
                     (fst kv, Json.dumps sk (snd kv))) kvs) as ->; auto.
    clear - H E. induction E as [|kv kw kvs kws Hx _ IH]; auto.
    inversion H; subst. cbn [map]. f_equal; auto. f_equal.
    destruct (Json.reload (snd kv)) as [w|e] eqn:Er; [|discriminate].
    now destruct (H2 w Er sk) as [_ [_ ?]].
Qed.

(** The payload that is read back has the id of the value written. *)
Lemma content_id_reload v w i :
  Json.reload v = Ok w -> content_id v = Ok i -> content_id w = Ok i.
Proof.
  intros Hw Hi.
  pose proof (reload_reads_back v w Hw) as R.
  destruct v; try discriminate Hi; cbn [Json.reload] in Hw.
  - destruct (rmap Json.reload xs) as [ws|e]; [|discriminate].
    injection Hw as <-. cbn [content_id] in *. unfold hash_list in *.
    cbv zeta in *.
    change (Json.dumps false (VTuple ws)) with (Json.dumps false (VList ws)).
    change (Json.dumps false (VTuple xs)) with (Json.dumps false (VList xs))
      in Hi.
    now rewrite (proj1 (R false)).
  - destruct (rmap Json.reload xs) as [ws|e]; [|discriminate].
    injection Hw as <-. cbn [content_id] in *. unfold hash_list in *.
    cbv zeta in *.
    change (Json.dumps false (VTuple ws)) with (Json.dumps false (VList ws)).
    now rewrite (proj1 (R false)).
  - destruct (rmap _ kvs) as [kws|e]; [|discriminate].
    injection Hw as <-. cbn [content_id] in *. unfold hash_dict in *.
    cbv zeta in *.
    change (VDict (immutable_dict kws)) with (immutable_value (VDict kws)).
    change (VDict (immutable_dict kvs)) with (immutable_value (VDict kvs))
      in Hi.
    destruct (R true) as [_ [R2 R3]]. rewrite R2. now rewrite R3 in Hi.
Qed.


Section Keeps.

Variable I : file -> Prop.

Lemma keeps_ret {A} (a : A) : keeps I (ret a).
Proof. intros f H. exact H. Qed.

Lemma keeps_raise {A} e : keeps I (@raise A e).
Proof. intros f H. exact H. Qed.

Lemma keeps_lift {A} (r : result A) : keeps I (lift r).
Proof. intros f H. exact H. Qed.

Lemma keeps_bind {A B} (m : M A) (k : A -> M B) :
  keeps I m ->
  (forall a f, snd (m f) = Ok a -> keeps I (k a)) ->
  keeps I (bind m k).
Proof.
  intros Hm Hk f Hf. unfold bind. specialize (Hm f Hf).
  specialize (Hk) with (f := f).
  destruct (m f) as [f1 [a|e]]; cbn [fst snd] in *; auto.
  now apply (Hk a).
Qed.

Lemma keeps_table_of t : keeps I (table_of t).
Proof. intros f H. exact H. Qed.

Lemma keeps_has_key t id_ : keeps I (has_key t id_).
Proof.
  apply keeps_bind; [apply keeps_table_of|intros; apply keeps_ret].
Qed.

Lemma keeps_dataset_of t id_ : keeps I (dataset_of t id_).
Proof.
  apply keeps_bind; [apply keeps_table_of|intros; apply keeps_lift].
Qed.

Lemma keeps_get_attr t id_ key : keeps I (get_attr t id_ key).
Proof.
  apply keeps_bind; [apply keeps_dataset_of|intros; apply keeps_ret].
Qed.

Lemma keeps_names_of t : keeps I (names_of t).
Proof.
  apply keeps_bind; [apply keeps_table_of|intros; apply keeps_ret].
Qed.

Lemma keeps_kind_ids node_type : keeps I (kind_ids node_type).
Proof. intros f H. exact H. Qed.

Lemma keeps_series_name t name : keeps I (series_name t name).
Proof.
  apply keeps_bind; [apply keeps_names_of|intros names f _].
  destruct (name_in name names); [apply keeps_lift|apply keeps_ret].
Qed.

End Keeps.

Lemma addressed_with_table t g f :
  addressed f ->
  (content_table t = true ->
   forall id_ d, Dict.get g id_ = Some d -> content_id (data d) = Ok id_) ->
  addressed (with_table t g f).
Proof.
  intros Hf Hg t0 id_ d Hc Hd.
  destruct (table_eq_dec t0 t) as [->|Hne].
  - rewrite members_with_table_same in Hd. eauto.
  - rewrite members_with_table_other in Hd by auto. eauto.
Qed.

Lemma addressed_with_kind k f : addressed f -> addressed (with_kind k f).
Proof.
  intros Hf t id_ d Hc Hd. unfold members in Hd.
  rewrite open_with_kind in Hd. eauto.
Qed.

Lemma addressed_members t f g id_ d :
  addressed f -> content_table t = true -> open_table t f = Ok g ->
  Dict.get g id_ = Some d -> content_id (data d) = Ok id_.
Proof.
  intros Hf Hc Ht Hd. apply (Hf t id_ d Hc). unfold members. now rewrite Ht.
Qed.

Lemma keeps_create_dataset t id_ v :
  (content_table t = true -> content_id v = Ok id_) ->
  keeps addressed (create_dataset t id_ v).
Proof.
  intros Hv f Hf. unfold create_dataset, bind, table_of.
  destruct (open_table t f) as [g|e] eqn:Ht; cbn [fst]; auto.
  destruct (Dict.mem g id_); cbn [fst raise write]; auto.
  apply addressed_with_table; auto.
  intros Hc id0 d Hd. rewrite dict_get_app in Hd.
  destruct (Dict.get g id0) as [x|] eqn:E.
  - injection Hd as <-. now apply (addressed_members t f g id0 x).
  - destruct (String.eqb id_ id0) eqn:E2; [|discriminate].
    injection Hd as <-. apply String.eqb_eq in E2. subst id0. cbn [data].
    auto.
Qed.

Lemma dict_get_set {A} (g : list (string * A)) k v k' :
  Dict.get (Dict.set g k v) k'
  = if String.eqb k k' then Some v else Dict.get g k'.
Proof.
  destruct (String.eqb k k') eqn:E.
  - apply String.eqb_eq in E. subst. apply dict_get_set_same.
  - apply String.eqb_neq in E. now apply dict_get_set_other.
Qed.

Lemma keeps_set_attr t id_ key text :
  keeps addressed (set_attr t id_ key text).
Proof.
  intros f Hf. unfold set_attr, bind, table_of, lift.
  destruct (open_table t f) as [g|e] eqn:Ht; cbn [fst]; auto.
  unfold Dict.item.
  destruct (Dict.get g id_) as [d|] eqn:Hd; cbn [of_option fst write]; auto.
  apply addressed_with_table; auto.
  intros Hc id0 d0 H0. rewrite dict_get_set in H0.
  destruct (String.eqb id_ id0) eqn:E.
  - injection H0 as <-. apply String.eqb_eq in E. subst id0. cbn [data].
    now apply (addressed_members t f g id_ d).
  - now apply (addressed_members t f g id0 d0).
Qed.

Lemma keeps_append_id t key id_ :
  content_table t = false -> keeps addressed (append_id t key id_).
Proof.
  intros Hc f Hf. unfold append_id, bind, table_of, lift.
  destruct (open_table t f) as [g|e] eqn:Ht; cbn [fst]; auto.
  unfold Dict.item.
  destruct (Dict.get g key) as [d|] eqn:Hd; cbn [of_option fst write]; auto.
  apply addressed_with_table; auto. congruence.
Qed.

Lemma keeps_kind_append node_type id_ :
  keeps addressed (kind_append node_type id_).
Proof.
  intros f Hf. unfold kind_append, bind, kind_ids.
  destruct (Dict.item (KIND f) node_type); cbn [fst write]; auto.
Qed.

(** Applies the lemmas above to code built from the primitives; what is
    left are the records that are created. *)
Ltac keeps_step :=
  match goal with
  | |- keeps _ (ret _) => apply keeps_ret
  | |- keeps _ (raise _) => apply keeps_raise
  | |- keeps _ (lift _) => apply keeps_lift
  | |- keeps _ (has_key _ _) => apply keeps_has_key
  | |- keeps _ (dataset_of _ _) => apply keeps_dataset_of
  | |- keeps _ (get_attr _ _ _) => apply keeps_get_attr
  | |- keeps _ (names_of _) => apply keeps_names_of
  | |- keeps _ (kind_ids _) => apply keeps_kind_ids
  | |- keeps _ (series_name _ _) => apply keeps_series_name
  | |- keeps _ (set_attr _ _ _ _) => apply keeps_set_attr
  | |- keeps _ (kind_append _ _) => apply keeps_kind_append
  | |- keeps _ (append_id _ _ _) => apply keeps_append_id; reflexivity
  | |- keeps _ (create_dataset _ _ _) =>
      apply keeps_create_dataset; discriminate
  | |- keeps _ (bind _ _) =>
      apply keeps_bind;
      [|let a := fresh "a" in
        let f := fresh "f" in
        let E := fresh "E" in
        intros a f E; cbn [lift snd] in E]
  end.

Ltac keeps_auto :=
  repeat (keeps_step
          || match goal with
             | |- keeps _ (if ?b then _ else _) => destruct b
             | |- keeps _ (match ?x with _ => _ end) => destruct x
             end);
  auto.

Lemma keeps_save_nodes g node_type func nodes :
  forall ct ids, keeps addressed (save_nodes g node_type func nodes ct ids).
Proof.
  induction nodes as [|node rest IH]; intros ct ids; cbn [save_nodes].
  - apply keeps_ret.
  - keeps_auto.
    apply keeps_create_dataset. intros _.
    eapply content_id_reload; eassumption.
Qed.

Lemma keeps_save_kinds g ntd :
  forall node_ids, keeps addressed (save_kinds g ntd node_ids).
Proof.
  induction ntd as [|[node_type nodes] rest IH]; intros node_ids;
    cbn [save_kinds].
  - apply keeps_ret.
  - keeps_auto. apply keeps_save_nodes.
Qed.

Lemma keeps_save_info s mat_id user_ :
  keeps addressed (save_info s mat_id user_).
Proof. unfold save_info. keeps_auto. Qed.

Lemma keeps_save_data c values_id node_values preset_name :
  content_id node_values = Ok values_id ->
  keeps addressed (save_data c values_id node_values preset_name).
Proof.
  intros H. unfold save_data. keeps_auto.
  apply keeps_create_dataset. intros _.
  now apply (content_id_reload node_values).
Qed.

Lemma keeps_save_node_stack node_ids :
  keeps addressed (save_node_stack node_ids).
Proof.
  unfold save_node_stack. keeps_auto.
  apply keeps_create_dataset. intros _. assumption.
Qed.

Lemma keeps_save_transaction c mat_id values_id ni_id preset_name :
  keeps addressed (save_transaction c mat_id values_id ni_id preset_name).
Proof.
  unfold save_transaction. keeps_auto.
  apply keeps_create_dataset. intros _. assumption.
Qed.

Lemma keeps_link_preset c mat_id pid values_id :
  keeps addressed (link_preset c mat_id pid values_id).
Proof. unfold link_preset. keeps_auto. Qed.

Lemma values_of_content s nv :
  values_of s = Ok nv -> content_id (fst nv) = Ok (snd nv).
Proof.
  destruct s as [m|g active]; cbn [values_of].
  - destruct (format_mat_node_data m) as [l|e]; [|discriminate].
    cbn [rbind]. destruct (hash_list l) as [i|e] eqn:E; [|discriminate].
    cbn [rbind]. intros H. injection H as <-. exact E.
  - destruct (get_node_group_input_data g active) as [l|e]; [|discriminate].
    cbn [rbind]. destruct (hash_dict l) as [i|e] eqn:E; [|discriminate].
    cbn [rbind]. intros H. injection H as <-. exact E.
Qed.

Lemma keeps_graph_processing policy s preset_name user_ :
  keeps addressed (graph_processing policy s preset_name user_).
Proof.
  unfold graph_processing. cbv zeta.
  apply keeps_bind.
  { unfold check_preset_name. keeps_auto. }
  intros name f0 _. keeps_auto.
  - apply keeps_save_info.
  - apply keeps_save_data. eapply values_of_content. eassumption.
  - apply keeps_save_kinds.
  - apply keeps_save_node_stack.
  - apply keeps_save_transaction.
  - apply keeps_link_preset.
Qed.

Lemma keeps_save_layers mods preset_name :
  forall ids success fail,
    keeps addressed (save_layers mods preset_name ids success fail).
Proof.
  induction mods as [|md rest IH]; intros ids success fail;
    cbn [save_layers].
  - apply keeps_ret.
  - cbv zeta. apply keeps_bind.
    + apply keeps_graph_processing.
    + intros [[b pname] pid] f _. destruct b; apply IH.
Qed.

(** X17. Every function that saves or renames keeps the store addressed by
    content, whether it returns or raises: where every node record, node
    stack, values record, transaction, stack of modifiers and physics
    preset was stored under the hash of its payload, it still is
    afterwards. A new file is such a file. *)
Theorem saves_keep_the_store_content_addressed (f : file) :
  addressed f ->
  (forall m preset_name user_,
      addressed (fst (material_preset_processing m preset_name user_ f)))
  /\ (forall tree active preset_name user_,
         addressed (fst (geometry_node_preset_processing
                           tree active preset_name user_ f)))
  /\ (forall modifiers preset_name include_surface_deform,
         addressed (fst (modifier_stack_preset_processing
                           modifiers preset_name include_surface_deform f)))
  /\ (forall node_ g preset_name,
         addressed (fst (node_preset_processing node_ g preset_name f)))
  /\ (forall ptype settings preset_name,
         addressed (fst (physics_preset_processing ptype settings preset_name
                                                   f)))
  /\ (forall settings preset_name,
         addressed (fst (collision_preset_processing settings preset_name f)))
  /\ (forall curve preset_name,
         addressed (fst (hair_preset_processing curve preset_name f)))
  /\ (forall pfile id_ new_name,
         addressed (fst (change_preset_name pfile id_ new_name f))).
Proof.
  intros Hf.
  assert (forall t data preset_name,
             keeps addressed (settings_preset_processing t data preset_name))
    as Settings.
  { intros t data preset_name. unfold settings_preset_processing.
    keeps_auto. apply keeps_create_dataset. intros _.
    eapply content_id_reload; eassumption. }
  repeat split; intros.
  - revert f Hf. change (keeps addressed
                           (material_preset_processing m preset_name user_)).
    unfold material_preset_processing. keeps_auto.
    apply keeps_graph_processing.
  - revert f Hf.
    change (keeps addressed
              (geometry_node_preset_processing tree active preset_name
                                               user_)).
    unfold geometry_node_preset_processing. keeps_auto.
    apply keeps_graph_processing.
  - revert f Hf.
    change (keeps addressed
              (modifier_stack_preset_processing modifiers preset_name
                                                include_surface_deform)).
    unfold modifier_stack_preset_processing. cbv zeta. keeps_auto.
    + apply keeps_save_layers.
    + apply keeps_create_dataset. intros _. assumption.
  - revert f Hf.
    change (keeps addressed (node_preset_processing node_ g preset_name)).
    unfold node_preset_processing. cbv zeta. keeps_auto.
    apply keeps_create_dataset. intros _.
    eapply content_id_reload; eassumption.
  - apply Settings, Hf.
  - apply Settings, Hf.
  - revert f Hf.
    change (keeps addressed (hair_preset_processing curve preset_name)).
    unfold hair_preset_processing. keeps_auto.
  - revert f Hf. change (keeps addressed (change_preset_name pfile id_ new_name)).
    unfold change_preset_name. keeps_auto.
Qed.

Lemma create_preset_files_addressed : addressed create_preset_files.
Proof.
  intros t id_ d _ Hd. unfold members in Hd.
  destruct t as [[]|[]|[]|[]|[]| | | |p| |]; try discriminate Hd.
  cbn [open_table create_preset_files PHYSICS] in Hd.
  unfold Dict.item in Hd. cbn [Dict.get] in Hd.
  repeat (destruct (String.eqb _ p); [discriminate Hd|]).
  discriminate Hd.
Qed.

(* ------------------------------------------------------------------ *)
(** ** C7: what the callers of the wrapper see *)

(** The exception a save operator reports is never one of its processing
    function: the wrapper has swallowed those, and what the [except]
    clause of the operator catches is raised before the wrapper is
    called. *)
Lemma save_execute_raised {A R} chunks write_fault preset_name
  (collect : result A) catches (processing : A -> string -> H5.M R)
  (conclude : R -> report * status) (d d' : disk) e st :
  (forall res e', fst (conclude res) <> Raised e') ->
  save_execute chunks write_fault preset_name collect catches processing
               conclude d = (d', Ok (Raised e, st)) ->
  collect = Raise e /\ d' = d.
Proof.
  intros Hc. unfold save_execute.
  destruct (check_name preset_name) as [r|] eqn:N.
  { unfold check_name in N.
    destruct (is_string_blank preset_name); [injection N as <-; discriminate|].
    destruct (_ || _)%bool; [injection N as <-; discriminate|].
    destruct (String.eqb _ _); [injection N as <-; discriminate|].
    discriminate N. }
  destruct collect as [a|e0].
  - destruct (modify_in_zip_returns chunks preset_file
                (processing a preset_name) write_fault d)
      as [d1 [o [-> _]]].
    destruct o as [res|]; [|discriminate].
    intros H. exfalso. apply (Hc res e).
    destruct (conclude res) as [r s]. cbn [fst]. congruence.
  - destruct (catches e0); [|discriminate].
    intros H. injection H as -> -> _. auto.
Qed.

Lemma save_mat_reports_no_exception_of_the_save chunks write_fault m
  preset_name user_ (d d' : disk) e st :
  HAIRFACTORY_OT_save_mat chunks write_fault m preset_name user_ d
  = (d', Ok (Raised e, st)) ->
  user_ = Raise e /\ d' = d.
Proof.
  apply save_execute_raised. intros [[] pname] e'; discriminate.
Qed.

(** Saving under a name that is taken: the processing function raises
    [NameExistsError] with its message, the wrapper swallows it, and the
    operator, whose [except (NameExistsError, TypeError)] clause never
    runs, reports that the preset was not saved. *)
Example save_mat_under_a_taken_name :
  snd (material_preset_processing (Sample.skin 1 "0.5") "Red_Skin" "USER"
                                  (fst Sample.saved))
  = Raise (name_exists "Red_Skin")
  /\ HAIRFACTORY_OT_save_mat one_chunk None (Sample.skin 1 "0.5") "Red_Skin"
                             (Ok "USER") sample_disk
     = (sample_disk, Ok (Not_saved, CANCELLED)).
Proof. vm_compute. split; reflexivity. Qed.

(** The [except NameExistsError] clause of a rename operator never runs
    either: whatever [change_preset_name] raises ends in the wrapper. *)
Lemma rename_reports_no_exception chunks write_fault pfile names id_ name
  (d d' : disk) e st :
  Rename.rename_execute chunks write_fault pfile names id_ name d
  <> (d', Ok (Rename.Rename_raised e, st)).
Proof.
  unfold Rename.rename_execute.
  destruct (String.eqb id_ "None"); [discriminate|].
  destruct (check_name name); [discriminate|].
  destruct (get_from_zip preset_file names d) as [used|]; [|discriminate].
  destruct (name_in name used); [discriminate|].
  destruct (modify_in_zip_returns chunks preset_file
              (change_preset_name pfile id_ name) write_fault d)
    as [d1 [o [-> _]]].
  discriminate.
Qed.

(* ------------------------------------------------------------------ *)
(** ** C1: the same state under the same name *)

(** The first save creates the preset; the same state saved again under
    the same name is refused with [NameExistsError]: it does not return
    [created = false] with the id of the first save. *)
Lemma C1_same_name_is_refused :
  snd Sample.saved = Ok (true, Some "Red_Skin")
  /\ display_name (TRANSACTIONS (MATERIALS (fst Sample.saved)))
       "c96324399341599e8940280463ae1aef1a1f5d62383ed4563af97d9458f7f159"
     = Some "Red_Skin"
  /\ material_preset_processing (Sample.skin 1 "0.5") "Red_Skin" "USER"
                                (fst Sample.saved)
     = (fst Sample.saved, Raise (name_exists "Red_Skin")).
Proof. vm_compute. repeat split. Qed.

(* ------------------------------------------------------------------ *)
(** ** The theorems at work *)

Lemma C2_taken_name_is_refused_witness :
  material_preset_processing (Sample.skin 1 "0.5") "Taken" "USER"
                             Sample.stocked
  = (Sample.stocked, Raise (name_exists "Taken"))
  /\ geometry_node_preset_processing
       (node_group (Sample.curls "2.5")) (Sample.curls "2.5") "Taken" "USER"
       Sample.stocked
     = (Sample.stocked, Raise (name_exists "Taken"))
  /\ physics_preset_processing "CLOTH" Sample.cloth "Taken" Sample.stocked
     = (Sample.stocked, Raise (name_exists "Taken"))
  /\ collision_preset_processing Sample.collision "Taken" Sample.stocked
     = (Sample.stocked, Raise (name_exists "Taken"))
  /\ hair_preset_processing Sample.strands "Taken" Sample.stocked
     = (Sample.stocked, Raise (name_exists "Taken")).
Proof.
  destruct (C2_taken_name_is_refused Sample.stocked "Taken")
    as [Hm [Hg [Hp [Hc Hh]]]].
  split; [apply Hm; vm_compute; reflexivity|].
  split; [apply Hg; vm_compute; reflexivity|].
  split; [eapply Hp; vm_compute; reflexivity|].
  split; [eapply Hc; vm_compute; reflexivity|].
  apply Hh; vm_compute; reflexivity.
Defined.

Lemma C8_rename_witness :
  (exists message,
      change_preset_name (T_TRANSACTIONS Material)
        "c96324399341599e8940280463ae1aef1a1f5d62383ed4563af97d9458f7f159"
        "Red_Skin" (fst Sample.saved)
      = (fst Sample.saved, Raise (NameExistsError message)))
  /\ (exists f' g',
      change_preset_name (T_TRANSACTIONS Material)
        "c96324399341599e8940280463ae1aef1a1f5d62383ed4563af97d9458f7f159"
        "Red_Skin_v2" (fst Sample.saved)
      = (f', Ok (Some "Red_Skin"))
      /\ open_table (T_TRANSACTIONS Material) f' = Ok g'
      /\ display_name g'
           "c96324399341599e8940280463ae1aef1a1f5d62383ed4563af97d9458f7f159"
         = Some "Red_Skin_v2").
Proof.
  assert (open_table (T_TRANSACTIONS Material) (fst Sample.saved)
          = Ok [("c96324399341599e8940280463ae1aef1a1f5d62383ed4563af97d9458f7f159",
                 {| attrs := [("name", "Red_Skin")];
                    data := ids_value
                      ["1c79ba05fa4fbc303413b7a7ef40fee47865c58f6d5d7228f0377079d359a9ae";
                       "b4e75a413aa3a1e0656dd174cc5521bd70435c15ef8a3b4515acce164a4824e1";
                       "de982b5f29994aa3ab61952e0094665f7036b6b03e6dc47de05709aaa90b0900"] |})])
    as Ht by (vm_compute; reflexivity).
  split.
  - apply (proj1 (C8_rename _ _ _ _ "Red_Skin" Ht)).
    vm_compute; reflexivity.
  - destruct (proj2 (C8_rename _ _ _
                      "c96324399341599e8940280463ae1aef1a1f5d62383ed4563af97d9458f7f159"
                      "Red_Skin_v2" Ht)
                    ltac:(vm_compute; reflexivity) _
                    ltac:(vm_compute; reflexivity))
      as [f' [g' [H1 [H2 [H3 _]]]]].
    exists f', g'. auto.
Defined.

(** Saving under the name that is taken, through the wrapper: the mutation
    function raises [NameExistsError], and the wrapper returns [None]; the
    exception does not reach the caller. *)
Lemma C7_exception_is_swallowed :
  snd (material_preset_processing (Sample.skin 1 "0.5") "Red_Skin" "USER"
                                  (fst Sample.saved))
  = Raise (name_exists "Red_Skin")
  /\ Zip.modify_in_zip file one_chunk "Presets.hfdb"
       (material_preset_processing (Sample.skin 1 "0.5") "Red_Skin" "USER")
       None sample_disk
     = (sample_disk, Ok None).
Proof. vm_compute. split; reflexivity. Qed.

Lemma C7_failure_is_cleaned_up_and_returns_none_witness :
  let out :=
    Zip.modify_in_zip file one_chunk "Presets.hfdb"
      (material_preset_processing (Sample.skin 1 "0.5") "Red_Skin" "USER")
      None sample_disk in
  snd out = Ok None
  /\ Dict.mem (Zip.extract_dir (fst out)) "Presets.hfdb" = false
  /\ Zip.zip_file (fst out) = Zip.zip_file sample_disk.
Proof.
  destruct (C7_failure_is_cleaned_up_and_returns_none one_chunk "Presets.hfdb"
              (material_preset_processing (Sample.skin 1 "0.5") "Red_Skin"
                                          "USER")
              None sample_disk
              {| Zip.zip_file := Zip.zip_file sample_disk;
                 Zip.extract_dir := [("Presets.hfdb", fst Sample.saved)] |}
              (name_exists "Red_Skin")
              ltac:(vm_compute; reflexivity)) as [H1 [H2 H3]].
  split; [exact H1|]. split; [exact H2|].
  apply H3. right.
  exists {| Zip.zip_file := Zip.zip_file sample_disk;
            Zip.extract_dir := [("Presets.hfdb", fst Sample.saved)] |},
         {| Zip.zip_file := Zip.zip_file sample_disk;
            Zip.extract_dir := [("Presets.hfdb", fst Sample.saved)] |},
         (name_exists "Red_Skin").
  split; vm_compute; reflexivity.
Defined.

Lemma C10_unusable_name_is_rejected_witness :
  cancelled sample_disk
    (Operators.HAIRFACTORY_OT_save_mat one_chunk None (Sample.skin 1 "0.5")
                                       "my preset" (Ok "USER") sample_disk)
  /\ cancelled sample_disk
       (Operators.HAIRFACTORY_OT_save_node one_chunk None 2
          (Some (mat_node_tree (Sample.skin 1 "0.5"))) "my preset"
          sample_disk)
  /\ cancelled sample_disk
       (Operators.HAIRFACTORY_OT_save_hair one_chunk None (Ok Sample.strands)
                                           "my preset" sample_disk).
Proof.
  assert (unusable "my preset") as U.
  { right. left. exists " "%char. split; [simpl; auto|reflexivity]. }
  destruct (C10_unusable_name_is_rejected one_chunk None sample_disk
              "my preset" U) as [Hm [_ [Hn [_ [_ [_ Hh]]]]]].
  split; [apply Hm|]. split; [apply Hn|apply Hh].
Defined.

Lemma C9_next_series_name_witness :
  series_name (T_DATA Material) "Foo" foo_renamed
  = (foo_renamed, Ok "Foo.001")
  /\ get_names
       (DATA (MATERIALS
                (fst (material_preset_processing (Sample.skin 1 "0.7") "Foo"
                                                 "USER" foo_renamed))))
     = [Some "Foo"; Some "Foo.001"].
Proof.
  split.
  - apply (C9_next_series_name (T_DATA Material) foo_renamed
                               (DATA (MATERIALS foo_renamed)) "Foo" 0);
      vm_compute; reflexivity.
  - vm_compute. reflexivity.
Defined.

(** The digest of the dict of the spec's example, as Python computes it. *)
Example hash_dict_a_b :
  hash_dict [("a", VInt 1); ("b", VList [VInt 1; VInt 2])]
  = Ok "e6f20bdc3757e5e7be4e316deff4196f19cf5954ffc76b1896228680fcdef66c".
Proof. vm_compute. reflexivity. Qed.

(** Shows that two given values hash alike. *)
Ltac alike :=
  cbn;
  repeat match goal with
         | |- True => exact I
         | |- NoDup _ => repeat constructor; cbn; intuition discriminate
         | |- Forall2 _ _ _ => constructor
         | |- exists _, _ => eexists; split; [cbn; eauto 10|cbn]
         | |- _ /\ _ => split
         | |- _ = _ => reflexivity
         | |- writes_alike _ _ => cbn
         end.

Lemma C3_hash_dict_insensitive_witness :
  hash_dict [("a", VInt 1); ("b", VList [VInt 1; VInt 2])]
  = hash_dict [("b", VList [VInt 1; VInt 2]); ("a", VInt 1)]
  /\ hash_dict [("a", VInt 1); ("b", VList [VInt 1; VInt 2])]
     = hash_dict [("b", VArray [VInt 1; VInt 2]); ("a", VInt 1)]
  /\ hash_dict [("a", VInt 1);
                ("n", VDict [("x", VArray [VList [VInt 1; VInt 2]]);
                             ("y", VDict [("p", VTuple []); ("q", VNone)])])]
     = hash_dict [("n", VDict [("y", VDict [("q", VNone); ("p", VList [])]);
                               ("x", VList [VTuple [VInt 1; VInt 2]])]);
                  ("a", VInt 1)].
Proof.
  split; [|split]; apply C3_hash_dict_insensitive; alike.
Defined.

Lemma C1_saved_state_is_found_again_witness :
  material_preset_processing (Sample.skin 1 "0.5") "Red_Skin_2" "OTHER"
                             (fst Sample.saved)
  = (fst Sample.saved, Ok (false, Some "Red_Skin"))
  /\ material_preset_processing (Sample.skin 1 "0.5") "Red_Skin" "USER"
                                (fst Sample.saved)
     = (fst Sample.saved, Raise (name_exists "Red_Skin")).
Proof.
  assert (preset_processing (Of_material (Sample.skin 1 "0.5"))
                            "Red_Skin" "USER" create_preset_files
          = (fst Sample.saved, Ok (true, Some "Red_Skin"))) as H0
      by (vm_compute; reflexivity).
  destruct (C1_saved_state_is_found_again
              (Of_material (Sample.skin 1 "0.5")) "Red_Skin" "USER"
              create_preset_files (fst Sample.saved) true (Some "Red_Skin")
              H0)
    as [pid [_ [_ [Hfree [Htaken _]]]]].
  rewrite <- !preset_processing_material.
  split.
  - assert (taken (Of_material (Sample.skin 1 "0.5")) "Red_Skin_2"
                  (fst Sample.saved) = false) as H1
        by (vm_compute; reflexivity).
    exact (proj2 (Hfree "Red_Skin_2" "OTHER" H1)).
  - assert (taken (Of_material (Sample.skin 1 "0.5")) "Red_Skin"
                  (fst Sample.saved) = true) as H1
        by (vm_compute; reflexivity).
    exact (Htaken "Red_Skin" "USER" H1).
Defined.




(** The two snapshots have different ids, so the table of values holds two
    records after the two saves. *)
Example skins_have_two_values_records :
  rbind (values_of Sample.red_skin) (fun nv => Ok (snd nv))
  = Ok "b4e75a413aa3a1e0656dd174cc5521bd70435c15ef8a3b4515acce164a4824e1"
  /\ rbind (values_of Sample.pale_skin) (fun nv => Ok (snd nv))
     = Ok "f978843dc02f7348aca4a1fd943e4cf305b795d56b61f57f551168c627b0e3a8"
  /\ Dict.keys (DATA (MATERIALS Sample.both_saved))
     = ["b4e75a413aa3a1e0656dd174cc5521bd70435c15ef8a3b4515acce164a4824e1";
        "f978843dc02f7348aca4a1fd943e4cf305b795d56b61f57f551168c627b0e3a8"]
  /\ List.length (INFO (MATERIALS Sample.both_saved)) = 1.
Proof. vm_compute. repeat split; reflexivity. Qed.

(** The documents of the two sample presets are what the export returns. *)
Example sample_documents :
  export_mat_preset_data_by_preset_id Sample.plain_id Sample.plain_saved
  = (Sample.plain_saved, Ok Sample.plain_document)
  /\ export_mat_preset_data_by_preset_id Sample.red_id (fst Sample.saved)
     = (fst Sample.saved, Ok Sample.red_document).
Proof. split; vm_compute; reflexivity. Qed.

Lemma C6_import_of_a_known_preset_writes_nothing_witness :
  import_preset_data Material Sample.plain_document Sample.plain_imported
  = (Sample.plain_imported, Ok (false, Some "Plain_Skin")).
Proof.
  destruct (C6_import_of_a_known_preset_writes_nothing
              Material Sample.plain_document Sample.plain_imported)
    as [H _].
  assert (exists d, read_fields Sample.plain_document = Ok d
                    /\ f_id d = VStr Sample.plain_id) as [d [Hd Hp]].
  { eexists. split; reflexivity. }
  assert (exists ds,
             Dict.get (members (T_TRANSACTIONS Material) Sample.plain_imported)
                      Sample.plain_id = Some ds
             /\ Dict.get (attrs ds) "name" = Some "Plain_Skin")
    as [ds [Hg Hn]].
  { eexists. split; reflexivity. }
  rewrite <- Hn. exact (H d Sample.plain_id ds Hd Hp Hg).
Defined.

(* ------------------------------------------------------------------ *)
(** ** C5: export, then import into a new file *)

(** C5 on the preset [Red_Skin], which has a color ramp. The export
    writes, for each special node, the entry [[path, payload, name, id]];
    the import reads the id at index 4 of the entry, which has four
    elements. The import into a new file raises [IndexError] after it has
    created the transaction, a record of the graph whose payload is not the
    original one, and the values record: no node record, no node stack and
    no link is created. *)
Theorem C5_round_trip_fails_on_a_special_node :
  export_mat_preset_data_by_preset_id Sample.red_id (fst Sample.saved)
  = (fst Sample.saved, Ok Sample.red_document)
  /\ (exists path payload name nid,
        rbind (getitem Sample.red_document (VStr "data")) (fun d =>
        rbind (getitem d (VStr "nodes")) (fun n =>
        getitem n (VStr "VALTORGB")))
        = Ok (VList [VList [path; payload; name; nid]]))
  /\ snd (import_mat_preset_data Sample.red_document create_preset_files)
     = Raise IndexError
  /\ (let f := fst (import_mat_preset_data Sample.red_document
                                           create_preset_files) in
      Dict.keys (TRANSACTIONS (MATERIALS f)) = [Sample.red_id]
      /\ NODES f = []
      /\ NODE_STACK f = []
      /\ FULL (MATERIALS f) = []
      /\ option_map data
           (Dict.get (INFO (MATERIALS f))
              "1c79ba05fa4fbc303413b7a7ef40fee47865c58f6d5d7228f0377079d359a9ae")
         <> option_map data
              (Dict.get (INFO (MATERIALS (fst Sample.saved)))
                 "1c79ba05fa4fbc303413b7a7ef40fee47865c58f6d5d7228f0377079d359a9ae")).
Proof.
  split; [vm_compute; reflexivity|].
  split; [do 4 eexists; reflexivity|].
  split; [vm_compute; reflexivity|].
  vm_compute. repeat split; try reflexivity. discriminate.
Qed.

(** Without special nodes the round trip works: the import into a new
    file creates the transaction under the same id, and the values record
    it refers to has the payload of the original. *)
Example round_trip_without_special_nodes :
  snd (import_mat_preset_data Sample.plain_document create_preset_files)
  = Ok (true, Some "Plain_Skin")
  /\ Dict.keys (TRANSACTIONS (MATERIALS Sample.plain_imported))
     = [Sample.plain_id]
  /\ option_map data (Dict.get (TRANSACTIONS (MATERIALS Sample.plain_imported))
                                Sample.plain_id)
     = option_map data (Dict.get (TRANSACTIONS (MATERIALS Sample.plain_saved))
                                 Sample.plain_id)
  /\ map (fun kd => (fst kd, data (snd kd)))
         (DATA (MATERIALS Sample.plain_imported))
     = map (fun kd => (fst kd, data (snd kd)))
           (DATA (MATERIALS Sample.plain_saved)).
Proof. vm_compute. repeat split; reflexivity. Qed.

(* ------------------------------------------------------------------ *)
(** ** More theorems at work *)

Lemma modify_in_zip_rewrites_the_archive_witness :
  let rename := change_preset_name (T_TRANSACTIONS Material) "a1" "Elm" in
  let out := Zip.modify_in_zip file one_chunk "Presets.hfdb" rename None
                               shelf_disk in
  out = ({| Zip.zip_file := Some [("Presets.hfdb", fst (rename shelf))];
            Zip.extract_dir := [] |}, Ok (Some (Some "Oak")))
  /\ get_from_zip "Presets.hfdb"
       (Rename.get_name_by_id (T_TRANSACTIONS Material) "a1") (fst out)
     = Some (Some "Elm").
Proof.
  exact (modify_in_zip_rewrites_the_archive one_chunk "Presets.hfdb"
           (change_preset_name (T_TRANSACTIONS Material) "a1" "Elm")
           shelf_disk [("Presets.hfdb", shelf)] shelf
           (fst (change_preset_name (T_TRANSACTIONS Material) "a1" "Elm"
                                    shelf))
           (Some "Oak")
           (Rename.get_name_by_id (T_TRANSACTIONS Material) "a1")
           eq_refl eq_refl eq_refl).
Defined.

Lemma modify_in_zip_write_fault_truncates_witness :
  Zip.modify_in_zip file one_chunk "Presets.hfdb"
    (change_preset_name (T_TRANSACTIONS Material) "a1" "Elm") (Some 0)
    shelf_disk
  = ({| Zip.zip_file := Some []; Zip.extract_dir := [] |}, Ok None).
Proof.
  exact (modify_in_zip_write_fault_truncates one_chunk "Presets.hfdb"
           (change_preset_name (T_TRANSACTIONS Material) "a1" "Elm")
           shelf_disk [("Presets.hfdb", shelf)] shelf
           (fst (change_preset_name (T_TRANSACTIONS Material) "a1" "Elm"
                                    shelf))
           (Some "Oak") 0 eq_refl eq_refl eq_refl Nat.lt_0_1).
Defined.

Lemma finished_only_when_stored_witness :
  let out :=
    Operators.HAIRFACTORY_OT_save_mat one_chunk None (Sample.skin 10 "0.7")
      "Pale_Skin" (Ok "USER") sample_disk in
  snd out = Ok (Saved, FINISHED)
  /\ exists pname,
      written one_chunk
        (material_preset_processing (Sample.skin 10 "0.7") "Pale_Skin" "USER")
        (true, pname) sample_disk (fst out).
Proof.
  intros out.
  assert (out = (fst out, Ok (Saved, FINISHED))) as E
      by (vm_compute; reflexivity).
  destruct (proj1 (finished_only_when_stored one_chunk None sample_disk
                     (fst out) Saved "Pale_Skin")
                  (Sample.skin 10 "0.7") (Ok "USER") E)
    as [_ [_ [u [pname [Hu Hw]]]]].
  injection Hu as <-.
  split; [rewrite E; reflexivity|]. exists pname. exact Hw.
Defined.

Lemma rename_of_a_missing_id_is_reported_finished_witness :
  Rename.HAIRFACTORY_OT_rename_mat_preset one_chunk None "c3" "Elm"
                                            shelf_disk
  = (shelf_disk, Ok (Rename.Changed None, FINISHED)).
Proof.
  exact (proj1 (rename_of_a_missing_id_is_reported_finished one_chunk None
                  "c3" "Elm" shelf_disk [("Presets.hfdb", shelf)] shelf
                  ltac:(discriminate)
                  (check_name_none "Elm" eq_refl) eq_refl eq_refl)
               eq_refl eq_refl).
Defined.

Lemma rename_is_read_back_witness :
  exists d',
    Rename.HAIRFACTORY_OT_rename_mat_preset one_chunk None "a1" "Elm"
                                              shelf_disk
    = (d', Ok (Rename.Changed (Some (Some "Oak")), FINISHED))
    /\ get_from_zip preset_file
         (Rename.get_name_by_id (T_TRANSACTIONS Material) "a1") d'
       = Some (Some "Elm")
    /\ Rename.HAIRFACTORY_OT_rename_mat_preset one_chunk None "a1" "Elm" d'
       = (d', Ok (Rename.Already_used, CANCELLED)).
Proof.
  exact (proj1 (rename_is_read_back one_chunk (fun f => eq_refl) "a1" "Elm"
                  shelf_disk [("Presets.hfdb", shelf)] shelf
                  ltac:(discriminate)
                  (check_name_none "Elm" eq_refl) eq_refl eq_refl)
               {| attrs := [("name", "Oak")];
                  data := ids_value ["m1"; "v1"; "s1"] |}
               eq_refl eq_refl).
Defined.

Lemma get_match_series_highest_is_fresh_witness :
  name_in "Foo.002" [Some "Foo"; None; Some "Foo.001"] = false.
Proof.
  exact (get_match_series_highest_is_fresh "Foo"
           [Some "Foo"; None; Some "Foo.001"] "Foo.002" eq_refl).
Defined.

Lemma get_match_series_highest_counts_on_witness :
  get_match_series_highest "Foo.001" [Some "Foo"; Some "Foo.001"]
  = Ok "Foo.002"
  /\ get_match_series_highest "Foo.001"
       [Some "Foo"; Some "Foo.001"; Some "Foo.002"]
     = Ok "Foo.003".
Proof.
  exact (get_match_series_highest_counts_on "Foo.001"
           [Some "Foo"; Some "Foo.001"] 1 eq_refl).
Defined.

Lemma shelf_names_distinct :
  names_distinct (TRANSACTIONS (MATERIALS shelf)).
Proof.
  unfold names_distinct. cbn.
  repeat constructor; cbn; intuition discriminate.
Qed.

Lemma change_preset_name_keeps_names_distinct_witness :
  names_distinct
    (members (T_TRANSACTIONS Material)
       (fst (change_preset_name (T_TRANSACTIONS Material) "a1" "Elm" shelf))).
Proof.
  exact (change_preset_name_keeps_names_distinct (T_TRANSACTIONS Material)
           "a1" "Elm" shelf _ (Some "Oak") (TRANSACTIONS (MATERIALS shelf))
           eq_refl shelf_names_distinct eq_refl).
Defined.

Lemma change_preset_name_back_witness :
  change_preset_name (T_TRANSACTIONS Material) "a1" "Oak"
    (fst (change_preset_name (T_TRANSACTIONS Material) "a1" "Elm" shelf))
  = (shelf, Ok (Some "Elm")).
Proof.
  exact (change_preset_name_back (T_TRANSACTIONS Material) "a1" "Oak" "Elm"
           shelf _ (TRANSACTIONS (MATERIALS shelf))
           eq_refl shelf_names_distinct eq_refl).
Defined.

Lemma graph_processing_keeps_names_distinct_witness :
  names_distinct (members (T_TRANSACTIONS Material) Sample.red_saved)
  /\ names_distinct (members (T_DATA Material) Sample.red_saved).
Proof.
  assert (graph_processing Refuse Sample.red_skin "Red_Skin" "USER"
                           create_preset_files
          = (Sample.red_saved, Ok (true, Some "Red_Skin", Sample.red_id))) as E
      by (vm_compute; reflexivity).
  destruct (graph_processing_keeps_names_distinct _ _ _ _ _ _ _ E)
    as [H1 H2].
  split; [apply H1|apply H2]; apply NoDup_nil.
Defined.

Lemma physics_preset_saved_once_witness :
  let f' := fst (physics_preset_processing "CLOTH" Sample.cloth "Silk"
                                           create_preset_files) in
  physics_preset_processing "CLOTH" Sample.cloth "Satin" f'
  = (f', Ok (false, Some "Silk")).
Proof.
  intros f'.
  assert (physics_preset_processing "CLOTH" Sample.cloth "Silk"
                                    create_preset_files
          = (f', Ok (true, Some "Silk"))) as E by (vm_compute; reflexivity).
  destruct (proj1 (physics_preset_saved_once "CLOTH" Sample.cloth "Silk"
                     create_preset_files f' true (Some "Silk") [] eq_refl) E)
    as [H _].
  apply H. vm_compute. reflexivity.
Defined.

Lemma hair_preset_saved_once_witness :
  let f' := fst (hair_preset_processing Sample.strands "Braid"
                                        create_preset_files) in
  Dict.keys (HAIR_POINTS f') = Dict.keys (HAIR_SIZES f')
  /\ hair_preset_processing Sample.strands "Plait" f'
     = (f', Ok (false, Some "Braid")).
Proof.
  intros f'.
  assert (hair_preset_processing Sample.strands "Braid" create_preset_files
          = (f', Ok (true, Some "Braid"))) as E by (vm_compute; reflexivity).
  destruct (hair_preset_saved_once Sample.strands "Braid" create_preset_files
              f' true (Some "Braid") eq_refl E) as [H1 H2].
  split; [exact H1|]. apply H2. vm_compute. reflexivity.
Defined.

Lemma node_preset_saved_once_witness :
  let tree := mat_node_tree (Sample.skin 1 "0.5") in
  let f' := fst (node_preset_processing 2 tree "Gold" create_preset_files) in
  node_preset_processing 2 tree "Gilt" f' = (f', Ok (false, Some "Gold"))
  /\ exists message,
      node_preset_processing 2 tree "Gold" f'
      = (f', Raise (NameExistsError message)).
Proof.
  intros tree f'.
  assert (node_preset_processing 2 tree "Gold" create_preset_files
          = (f', Ok (true, None))) as E by (vm_compute; reflexivity).
  destruct (node_preset_saved_once 2 tree "Gold" create_preset_files f' true
              None E)
    as [node_type [nid [d [l [_ [[_ [Hn _]] [Hfree Htaken]]]]]]].
  split.
  - rewrite <- Hn. apply Hfree. vm_compute. reflexivity.
  - eexists. apply Htaken. vm_compute. reflexivity.
Defined.

Lemma modifier_stack_preset_is_reported_witness :
  let out := modifier_stack_preset_processing curly "Stack" false
                                              create_preset_files in
  snd out = Ok ([Some "Stack_Curls"; Some "Stack"], [])
  /\ exists ids ms_id,
      List.length ids = 1
      /\ Forall (is_transaction (fst out)) ids
      /\ hash_list (map VStr ids) = Ok ms_id
      /\ Dict.mem (members T_MODIFIER_STACK (fst out)) ms_id = true.
Proof.
  intros out.
  assert (out = (fst out, Ok ([Some "Stack_Curls"; Some "Stack"], []))) as E
      by (vm_compute; reflexivity).
  destruct (modifier_stack_preset_is_reported curly "Stack" false
              create_preset_files (fst out)
              [Some "Stack_Curls"; Some "Stack"] [] E)
    as [_ [ids [ms_id [Hl [Hids [Hh Hcase]]]]]].
  split; [rewrite E; reflexivity|].
  exists ids, ms_id. split; [exact Hl|]. split; [exact Hids|].
  split; [exact Hh|].
  destruct Hcase as [[reported [_ [Hm Hst]]]|[reported [Hf _]]].
  - rewrite Hst. unfold Dict.mem. now rewrite dict_get_app_fresh.
  - destruct reported; discriminate Hf.
Defined.

Lemma node_type_dict_lists_the_nodes_witness :
  exists m,
    node_by_index (nodes (mat_node_tree (Sample.skin 1 "0.5"))) [1] = Some m
    /\ type m = "VALTORGB".
Proof.
  destruct (proj1 (node_type_dict_lists_the_nodes
                     (mat_node_tree (Sample.skin 1 "0.5")) Material
                     "VALTORGB")
                  [[1]] (or_introl eq_refl)) as [_ [_ Hp]].
  apply Hp. left. reflexivity.
Defined.

Lemma saves_keep_the_store_content_addressed_witness :
  addressed (fst (material_preset_processing (Sample.skin 1 "0.5") "Red_Skin"
                                             "USER" create_preset_files)).
Proof.
  exact (proj1 (saves_keep_the_store_content_addressed
                  create_preset_files create_preset_files_addressed)
               (Sample.skin 1 "0.5") "Red_Skin" "USER").
Defined.
